(** * http-mongodb: the request-dispatch engine of [src/index.js]

    A shallow embedding of the [runtime] function of [src/index.js]: the
    [error] and [parse] helpers, the nine Express routes in their order of
    registration, and the timer armed for every request.

    What the handlers receive from outside the file is taken as it is
    handed to them: the request ([req.method], [req.path], [req.body] as
    [express.json()] left it, the [Authorization] header), and a
    [platform] record for the MongoDB driver, [fclone], the base64 decoder
    of [Buffer], the [decodeURIComponent] Express applies to route
    parameters, what Node does with a promise that rejects unhandled, and
    the wording of the engine's TypeErrors.

    The event loop is modelled by turns.  A turn is one uninterrupted run
    of handler code: from the arrival of the request, or from the
    settlement of an awaited promise, up to the next [await] on I/O.  The
    10 second timer is a callback that runs between two turns. *)

From Stdlib Require Import String Ascii List ZArith NArith Bool Lia.
From Stdlib Require Import DecimalString.
Import ListNotations.
Local Open Scope string_scope.
Set Warnings "-register-all".

(* ================================================================== *)
(** ** JavaScript strings *)

Module JsString.

(** [s.split(sep)] for a non-empty separator.  [skip] counts the
    characters of a separator that has just been recognised and is
    still to be passed over. *)
Fixpoint split_from (sep : string) (skip : nat) (s : string) : list string :=
  match s with
  | EmptyString => [EmptyString]
  | String c rest =>
      match skip with
      | S k => split_from sep k rest
      | O =>
          if String.prefix sep s
          then EmptyString :: split_from sep (String.length sep - 1) rest
          else match split_from sep 0 rest with
               | piece :: pieces => String c piece :: pieces
               | [] => [String c EmptyString]
               end
      end
  end.

Definition split (sep s : string) : list string := split_from sep 0 s.

(** [pieces.join(sep)] *)
Definition join (sep : string) (pieces : list string) : string :=
  String.concat sep pieces.

(** [s.includes(sub)] *)
Fixpoint includes (sub s : string) : bool :=
  String.prefix sub s ||
  match s with
  | EmptyString => false
  | String _ rest => includes sub rest
  end.

Definition lower_char (c : ascii) : ascii :=
  let n := nat_of_ascii c in
  if (65 <=? n)%nat && (n <=? 90)%nat then ascii_of_nat (n + 32) else c.

(** [s.toLowerCase()] on ASCII text *)
Fixpoint toLowerCase (s : string) : string :=
  match s with
  | EmptyString => EmptyString
  | String c rest => String (lower_char c) (toLowerCase rest)
  end.

Definition newline : string := String (ascii_of_nat 10) EmptyString.

End JsString.

(* ================================================================== *)
(** ** JavaScript values *)

(** The values that travel through the gateway: decoded JSON bodies, the
    results of driver calls, and the bodies handed to [res.json].  An
    object carries the name of the constructor it inherits and its own
    enumerable properties.  A cursor is an object that also inherits a
    [toArray] method; [docs] are the elements the cursor streams and
    [failure] is the message [toArray()] rejects with, if it does. *)
Inductive jsval : Type :=
| VUndefined
| VNull
| VBool (b : bool)
| VNum (n : Z)
| VStr (s : string)
| VArr (elems : list jsval)
| VObj (cls : string) (fields : list (string * jsval))
| VCursor (cls : string) (fields : list (string * jsval))
          (docs : list jsval) (failure : option string).

(** A synchronous or awaited computation either yields a value or throws
    an [Error] whose [message] is recorded. *)
Inductive outcome (A : Type) : Type :=
| Ok (a : A)
| Throw (message : string).
Arguments Ok {A} a.
Arguments Throw {A} message.

Module Js.

(** ToBoolean, as applied by [req.body && ...] and [if (authorization)] *)
Definition truthy (v : jsval) : bool :=
  match v with
  | VUndefined | VNull => false
  | VBool b => b
  | VNum n => negb (n =? 0)%Z
  | VStr s => negb (s =? "")
  | VArr _ | VObj _ _ | VCursor _ _ _ _ => true
  end.

(** [Array.isArray(v)] *)
Definition isArray (v : jsval) : bool :=
  match v with VArr _ => true | _ => false end.

(** own property lookup *)
Fixpoint own (k : string) (fields : list (string * jsval)) : option jsval :=
  match fields with
  | [] => None
  | (k', v) :: rest => if k' =? k then Some v else own k rest
  end.

Definition get (k : string) (fields : list (string * jsval)) : jsval :=
  match own k fields with Some v => v | None => VUndefined end.

(** Defining a property in an object literal: an existing key keeps its
    place and takes the new value, a new key goes last. *)
Fixpoint set (k : string) (v : jsval) (fields : list (string * jsval))
  : list (string * jsval) :=
  match fields with
  | [] => [(k, v)]
  | (k', v') :: rest =>
      if k' =? k then (k', v) :: rest else (k', v') :: set k v rest
  end.

Definition set_all (props fields : list (string * jsval))
  : list (string * jsval) :=
  fold_left (fun acc kv => set (fst kv) (snd kv) acc) props fields.

Definition chars (s : string) : list jsval :=
  map (fun c => VStr (String c EmptyString)) (list_ascii_of_string s).

End Js.

(* ================================================================== *)
(** ** The request, the credential, the platform *)

(** The methods of the requests Node's HTTP server hands to Express
    (a [CONNECT] request raises the server's [connect] event instead and
    reaches no route). *)
Inductive method : Type :=
| GET | HEAD | POST | PUT | DELETE | OPTIONS | TRACE | PATCH.

Definition is_post (m : method) : bool :=
  match m with POST => true | _ => false end.

(** [req.method.toLowerCase()] *)
Definition method_lower (m : method) : string :=
  match m with
  | GET => "get" | HEAD => "head" | POST => "post" | PUT => "put"
  | DELETE => "delete" | OPTIONS => "options"
  | TRACE => "trace" | PATCH => "patch"
  end.

(** What the handlers read of [req].  The pathname Express matches the
    routes against always starts with a slash; [path_tail] is what
    follows it, percent-escapes included. *)
Record request : Type := {
  req_method : method;
  path_tail : string;
  body : jsval;
  authorization : option string
}.

(** [req.path] *)
Definition path (req : request) : string := String "/" (path_tail req).

Record credential : Type := { user : string; password : string }.

(** The three objects an action can be looked up on. *)
Inductive target : Type :=
| Client
| Database (db_name : string)
| Collection (db_name collection_name : string).

(** How an awaited promise settles; [Pending] never does. *)
Inductive settle : Type :=
| Resolves (result : jsval)
| Rejects (message : string)
| Pending.

(** What calling a method of the driver does before the [await]. *)
Inductive invocation : Type :=
| ThrowsNow (message : string)
| Returns (p : settle).

(** What Node does with a promise that rejects and that nothing handles
    (its [--unhandled-rejections] mode).  [ModeThrow], the default since
    Node 15, raises the rejection as an uncaught exception, which ends
    the process; [ModeWarn], the default before, prints a warning and the
    process goes on. *)
Inductive rejection_mode : Type := ModeThrow | ModeWarn.

(** Everything [runtime] uses and does not define. *)
Record platform : Type := {
  (** [MongoDB.MongoClient.connect(config.connection,
      {...config.client, auth})]: [None] when the promise resolves,
      [Some m] when it rejects with [err.message = m] *)
  connect : option credential -> option string;
  (** [client.db(name)]: [Some m] when the call throws *)
  client_db : string -> option string;
  (** [database.collection(name)]: [Some m] when the call throws *)
  db_collection : string -> string -> option string;
  (** [target[action]]: [None] when the property is not a function *)
  lookup : target -> string -> option (list jsval -> invocation);
  (** the [fclone] package *)
  fclone : jsval -> jsval;
  (** [Buffer.from(s, "base64").toString("utf-8")] *)
  base64_utf8 : string -> string;
  (** [decodeURIComponent(piece)], on the pieces of a pathname Express
      captures for a route.  A request with a piece that does not decode
      is answered by Express itself (400) before the first handler of
      the file runs; on the requests the handlers receive every piece
      decodes, and this is its decoding. *)
  decodeURIComponent : string -> string;
  (** the mode of Node for unhandled rejections *)
  unhandled_rejections : rejection_mode;
  (** messages of the TypeErrors the engine raises *)
  msg_not_function : string;
  msg_not_iterable : string;
  msg_no_property : string;
  (** message of the error [res.json] raises once the head is sent *)
  msg_headers_sent : string
}.

(* ================================================================== *)
(** ** The response object and the per-request state *)

(** [statusCode] is the field [res.status] assigns.  [written] lists the
    (status, body) pairs put on the wire, oldest first. *)
Record response : Type := {
  statusCode : Z;
  written : list (Z * jsval)
}.

(** [res.headersSent] *)
Definition headersSent (r : response) : bool :=
  match written r with [] => false | _ :: _ => true end.

(** [res.status(code)] *)
Definition res_status (code : Z) (r : response) : response :=
  {| statusCode := code; written := written r |}.

(** [res.json(v)]: once the head is sent, setting the headers of a second
    reply raises and nothing more is written. *)
Definition res_json (P : platform) (v : jsval) (r : response)
  : outcome response :=
  if headersSent r then Throw (msg_headers_sent P)
  else Ok {| statusCode := statusCode r;
             written := written r ++ [(statusCode r, v)] |}.

(** [res] with [res.locals], and what the request did to the outside:
    the connections it asked for, the lookups [target[action]] it made,
    the rejections of handler promises nothing catches, and whether one
    of them has ended the process. *)
Record state : Type := {
  res : response;
  locals_client : bool;
  locals_database : option string;
  locals_collection : option (string * string);
  connects : list (option credential);
  dispatched : list (target * string);
  uncaught : list string;
  exited : bool
}.

Definition initial : state :=
  {| res := {| statusCode := 200; written := [] |};
     locals_client := false;
     locals_database := None;
     locals_collection := None;
     connects := [];
     dispatched := [];
     uncaught := [];
     exited := false |}.

Definition with_res (r : response) (st : state) : state :=
  {| res := r;
     locals_client := locals_client st;
     locals_database := locals_database st;
     locals_collection := locals_collection st;
     connects := connects st;
     dispatched := dispatched st;
     uncaught := uncaught st;
     exited := exited st |}.

Definition with_client (st : state) : state :=
  {| res := res st;
     locals_client := true;
     locals_database := locals_database st;
     locals_collection := locals_collection st;
     connects := connects st;
     dispatched := dispatched st;
     uncaught := uncaught st;
     exited := exited st |}.

Definition with_database (d : string) (st : state) : state :=
  {| res := res st;
     locals_client := locals_client st;
     locals_database := Some d;
     locals_collection := locals_collection st;
     connects := connects st;
     dispatched := dispatched st;
     uncaught := uncaught st;
     exited := exited st |}.

Definition with_collection (d c : string) (st : state) : state :=
  {| res := res st;
     locals_client := locals_client st;
     locals_database := locals_database st;
     locals_collection := Some (d, c);
     connects := connects st;
     dispatched := dispatched st;
     uncaught := uncaught st;
     exited := exited st |}.

Definition log_connect (auth : option credential) (st : state) : state :=
  {| res := res st;
     locals_client := locals_client st;
     locals_database := locals_database st;
     locals_collection := locals_collection st;
     connects := connects st ++ [auth];
     dispatched := dispatched st;
     uncaught := uncaught st;
     exited := exited st |}.

Definition log_dispatch (t : target) (action : string) (st : state) : state :=
  {| res := res st;
     locals_client := locals_client st;
     locals_database := locals_database st;
     locals_collection := locals_collection st;
     connects := connects st;
     dispatched := dispatched st ++ [(t, action)];
     uncaught := uncaught st;
     exited := exited st |}.

(** the process ends at an unhandled rejection *)
Definition ends_process (mode : rejection_mode) : bool :=
  match mode with ModeThrow => true | ModeWarn => false end.

(** The promise of an [async] handler rejects with message [m]; Express
    does not look at the promises its handlers return, so nothing
    handles the rejection.  Node reports it once the turn is over, and
    in [ModeThrow] the process ends there: no timer fires and no handler
    runs afterwards. *)
Definition log_uncaught (P : platform) (m : string) (st : state) : state :=
  {| res := res st;
     locals_client := locals_client st;
     locals_database := locals_database st;
     locals_collection := locals_collection st;
     connects := connects st;
     dispatched := dispatched st;
     uncaught := uncaught st ++ [m];
     exited := exited st || ends_process (unhandled_rejections P) |}.

(* ================================================================== *)
(** ** [error] and [parse] *)

(** The object literal [{ error: { reason, ...context, status } }];
    [context] is [None] for [null]. *)
Definition envelope (reason : string)
  (context : option (list (string * jsval))) (status : Z) : jsval :=
  let spread := match context with Some props => props | None => [] end in
  VObj "Object"
    [("error",
      VObj "Object"
        (Js.set "status" (VNum status)
           (Js.set_all spread [("reason", VStr reason)])))].

(** [error(reason, context, status, response)] with a response given, as
    all its callers do: sets the status, writes the envelope and returns
    it.  When [response.json] throws, the status has been assigned
    already. *)
Definition error (P : platform) (reason : string)
  (context : option (list (string * jsval))) (status : Z) (r : response)
  : response * outcome jsval :=
  let object := envelope reason context status in
  let r1 := res_status status r in
  match res_json P object r1 with
  | Ok r2 => (r2, Ok object)
  | Throw m => (r1, Throw m)
  end.

(** [object.constructor.name]: an own [constructor] property shadows the
    inherited one. *)
Definition name_of (P : platform) (ctor : jsval) : outcome jsval :=
  match ctor with
  | VUndefined | VNull => Throw (msg_no_property P)
  | VObj _ f | VCursor _ f _ _ => Ok (Js.get "name" f)
  | VBool _ | VNum _ | VStr _ | VArr _ => Ok VUndefined
  end.

Definition constructor_name (P : platform) (object : jsval) : outcome jsval :=
  match object with
  | VUndefined | VNull => Throw (msg_no_property P)
  | VBool _ => Ok (VStr "Boolean")
  | VNum _ => Ok (VStr "Number")
  | VStr _ => Ok (VStr "String")
  | VArr _ => Ok (VStr "Array")
  | VObj cls f | VCursor cls f _ _ =>
      match Js.own "constructor" f with
      | Some c => name_of P c
      | None => Ok (VStr cls)
      end
  end.

(** [object.constructor.name === "Cursor"] *)
Definition named_Cursor (name : jsval) : bool :=
  match name with VStr s => s =? "Cursor" | _ => false end.

(** [await object.toArray()] *)
Definition toArray (P : platform) (object : jsval) : outcome jsval :=
  match object with
  | VCursor _ _ docs None => Ok (VArr docs)
  | VCursor _ _ _ (Some m) => Throw m
  | _ => Throw (msg_not_function P)
  end.

(** [parse(object)], the [await] on [toArray] taken as completed. *)
Definition parse (P : platform) (object : jsval) : outcome jsval :=
  match constructor_name P object with
  | Throw m => Throw m
  | Ok name =>
      if named_Cursor name
      then match toArray P object with
           | Ok arr => Ok (fclone P arr)
           | Throw m => Throw m
           end
      else Ok (fclone P object)
  end.

(* ================================================================== *)
(** ** Route patterns

    Express compiles each route string to a regular expression, with an
    optional trailing slash.  A parameter [:name] stands for a non-empty
    run of characters other than ['/'], and ['*'] for any text.  On the
    pieces of the path between slashes this gives the shapes below.
    [pattern] is the match of the regular expression, with the pieces it
    captures as they stand in the path; [applies] decodes them, as
    Express does before it calls the handler. *)

Definition segments (p : string) : list string := JsString.split "/" p.

Definition nonempty (s : string) : bool := negb (s =? "").

(** [_:action]: the marker, then a non-empty name *)
Definition action_of (seg : string) : option string :=
  match seg with
  | String c a => if (c =? "_")%char && nonempty a then Some a else None
  | EmptyString => None
  end.

Record params : Type := {
  p_db_name : string;
  p_collection_name : string;
  p_action : string
}.

Definition no_params : params :=
  {| p_db_name := ""; p_collection_name := ""; p_action := "" |}.

(** The nine routes, named after what their handlers do. *)
Inductive route : Type :=
| ArmTimeout        (* app.all("*")                                   *)
| OpenConnection    (* app.post("/*")                                 *)
| ClientAction      (* app.post("/_:action/")                         *)
| OpenDatabase      (* app.post("/:db_name/*")                        *)
| DatabaseAction    (* app.post("/:db_name/_:action/")                *)
| OpenCollection    (* app.post("/:db_name/:collection_name/*")       *)
| CollectionAction  (* app.post("/:db_name/:collection_name/_:action/") *)
| PostFallback      (* app.post("*")                                  *)
| AllFallback.      (* app.all("*")                                   *)

(** registration order *)
Definition table : list route :=
  [ArmTimeout; OpenConnection; ClientAction; OpenDatabase; DatabaseAction;
   OpenCollection; CollectionAction; PostFallback; AllFallback].

(** the routes [next()] of [OpenConnection] goes on to *)
Definition after_connection : list route :=
  [ClientAction; OpenDatabase; DatabaseAction;
   OpenCollection; CollectionAction; PostFallback; AllFallback].

Definition post_only (r : route) : bool :=
  match r with ArmTimeout | AllFallback => false | _ => true end.

(** [layer.regexp.exec(path)]: whether the route matches, and the
    pieces it captures, not yet decoded *)
Definition pattern (r : route) (p : string) : option params :=
  match r with
  | ArmTimeout | PostFallback | AllFallback => Some no_params
  | OpenConnection =>
      if String.prefix "/" p then Some no_params else None
  | ClientAction =>
      match segments p with
      | [e; s] | [e; s; EmptyString] =>
          if nonempty e then None else
          match action_of s with
          | Some a => Some {| p_db_name := ""; p_collection_name := "";
                              p_action := a |}
          | None => None
          end
      | _ => None
      end
  | OpenDatabase =>
      match segments p with
      | e :: d :: _ :: _ =>
          if negb (nonempty e) && nonempty d
          then Some {| p_db_name := d; p_collection_name := "";
                       p_action := "" |}
          else None
      | _ => None
      end
  | DatabaseAction =>
      match segments p with
      | [e; d; s] | [e; d; s; EmptyString] =>
          if negb (nonempty e) && nonempty d then
            match action_of s with
            | Some a => Some {| p_db_name := d; p_collection_name := "";
                                p_action := a |}
            | None => None
            end
          else None
      | _ => None
      end
  | OpenCollection =>
      match segments p with
      | e :: d :: c :: _ :: _ =>
          if negb (nonempty e) && nonempty d && nonempty c
          then Some {| p_db_name := d; p_collection_name := c;
                       p_action := "" |}
          else None
      | _ => None
      end
  | CollectionAction =>
      match segments p with
      | [e; d; c; s] | [e; d; c; s; EmptyString] =>
          if negb (nonempty e) && nonempty d && nonempty c then
            match action_of s with
            | Some a => Some {| p_db_name := d; p_collection_name := c;
                                p_action := a |}
            | None => None
            end
          else None
      | _ => None
      end
  end.

(** [decode_param(val)] of Express's router: an empty capture is left as
    it is, any other goes through [decodeURIComponent]. *)
Definition decode_param (P : platform) (val : string) : string :=
  if nonempty val then decodeURIComponent P val else val.

(** [req.params], from the captures of the match *)
Definition decode_params (P : platform) (raw : params) : params :=
  {| p_db_name := decode_param P (p_db_name raw);
     p_collection_name := decode_param P (p_collection_name raw);
     p_action := decode_param P (p_action raw) |}.

(** A route applies when its verb and its pattern both accept; the
    handler is given the decoded parameters. *)
Definition applies (P : platform) (r : route) (req : request)
  : option params :=
  if post_only r && negb (is_post (req_method req)) then None
  else option_map (decode_params P) (pattern r (path req)).

(* ================================================================== *)
(** ** Handlers *)

(** Where the handling of one request stands between two turns. *)
Inductive pc : Type :=
| Arrived
| Connecting (auth : option credential)
| Calling (action : string) (p : settle)
| Draining (action : string) (cursor : jsval)
| Finished.

(** What a handler does with the chain: call [next()], or leave it. *)
Inductive flow : Type :=
| Next (st : state)
| Stop (k : pc) (st : state).

(** [return await error(...)] as the last act of a handler: a throw here
    rejects the handler's promise, which nothing catches. *)
Definition reply_error (P : platform) (reason : string)
  (context : option (list (string * jsval))) (status : Z) (st : state)
  : state :=
  match error P reason context status (res st) with
  | (r, Ok _) => with_res r st
  | (r, Throw m) => log_uncaught P m (with_res r st)
  end.

(** the [catch (err)] block of the three action handlers *)
Definition reply_not_found (P : platform) (action m : string) (st : state)
  : state :=
  reply_error P "not_found"
    (Some [("message", VStr m); ("action", VStr action)]) 404 st.

(** [return res.json(<clone>)] inside the [try] *)
Definition reply_result (P : platform) (action : string) (v : jsval)
  (st : state) : state :=
  match res_json P (fclone P v) (res st) with
  | Ok r => with_res r st
  | Throw m => reply_not_found P action m st
  end.

(** The authentication block of [app.post("/*")]. *)
Definition extract_auth (P : platform) (header : option string)
  : option credential :=
  match header with
  | None => None
  | Some h =>
      if nonempty h then
        let text :=
          base64_utf8 P (JsString.join "" (JsString.split "Basic " h)) in
        let parts := JsString.split ":" text in
        Some {| user := hd "" parts;
                password := JsString.join "" (tl parts) |}
      else None
  end.

(** [...req.body] *)
Definition spread (P : platform) (v : jsval) : outcome (list jsval) :=
  match v with
  | VArr l => Ok l
  | VStr s => Ok (Js.chars s)
  | _ => Throw (msg_not_iterable P)
  end.

(** [await target[action](...req.body)] up to the [await], inside the
    [try]; [tgt] is [None] when [res.locals] does not hold the object. *)
Definition invoke (P : platform) (tgt : option target) (action : string)
  (args : jsval) (st : state) : pc * state :=
  match tgt with
  | None => (Finished, reply_not_found P action (msg_no_property P) st)
  | Some t =>
      let st1 := log_dispatch t action st in
      match spread P args with
      | Throw m => (Finished, reply_not_found P action m st1)
      | Ok l =>
          match lookup P t action with
          | None =>
              (Finished, reply_not_found P action (msg_not_function P) st1)
          | Some f =>
              match f l with
              | ThrowsNow m => (Finished, reply_not_found P action m st1)
              | Returns p => (Calling action p, st1)
              end
          end
      end
  end.

Definition handler (P : platform) (req : request) (r : route) (ps : params)
  (st : state) : flow :=
  match r with
  | ArmTimeout => Next st
  | OpenConnection =>
      if Js.truthy (body req) && negb (Js.isArray (body req)) then
        Stop Finished
          (reply_error P "invalid_body"
             (Some [("message", VStr "body must be json array")]) 400 st)
      else
        let auth := extract_auth P (authorization req) in
        Stop (Connecting auth) (log_connect auth st)
  | ClientAction =>
      let (k, st') :=
        invoke P (if locals_client st then Some Client else None)
          (p_action ps) (body req) st in
      Stop k st'
  | OpenDatabase =>
      if locals_client st then
        match client_db P (p_db_name ps) with
        | Some m => Stop Finished (log_uncaught P m st)
        | None => Next (with_database (p_db_name ps) st)
        end
      else Stop Finished (log_uncaught P (msg_no_property P) st)
  | DatabaseAction =>
      let (k, st') :=
        invoke P (option_map Database (locals_database st))
          (p_action ps) (body req) st in
      Stop k st'
  | OpenCollection =>
      match locals_database st with
      | Some d =>
          match db_collection P d (p_collection_name ps) with
          | Some m => Stop Finished (log_uncaught P m st)
          | None => Next (with_collection d (p_collection_name ps) st)
          end
      | None => Stop Finished (log_uncaught P (msg_no_property P) st)
      end
  | CollectionAction =>
      let (k, st') :=
        invoke P
          (option_map (fun dc => Collection (fst dc) (snd dc))
             (locals_collection st))
          (p_action ps) (body req) st in
      Stop k st'
  | PostFallback =>
      if headersSent (res st) then Stop Finished st
      else Stop Finished (reply_error P "not_found" None 404 st)
  | AllFallback =>
      if headersSent (res st) then Stop Finished st
      else Stop Finished
             (reply_error P "method_not_allowed"
                (Some [("method", VStr (method_lower (req_method req)))])
                405 st)
  end.

(** Express walks the routes in order; past the last one nothing of this
    file runs. *)
Fixpoint run_routes (P : platform) (req : request) (rs : list route)
  (st : state) : pc * state :=
  match rs with
  | [] => (Finished, st)
  | r :: rest =>
      match applies P r req with
      | None => run_routes P req rest st
      | Some ps =>
          match handler P req r ps st with
          | Next st' => run_routes P req rest st'
          | Stop k st' => (k, st')
          end
      end
  end.

(* ================================================================== *)
(** ** Turns, the timer, and the life of a request *)

(** The [catch (err)] block of [app.post("/*")], for a rejected connect:
    the driver's message is cut down when it mentions [MongoError]. *)
Definition connection_message (P : platform) (m : string) : outcome string :=
  if JsString.includes "MongoError" m then
    match nth_error (JsString.split "[MongoError: " m) 1 with
    | None => Throw (msg_no_property P)
    | Some piece =>
        Ok (JsString.toLowerCase
              (JsString.join ""
                 (JsString.split "."
                    (hd "" (JsString.split JsString.newline piece)))))
    end
  else Ok m.

Definition connection_settled (P : platform) (req : request)
  (auth : option credential) (st : state) : pc * state :=
  match connect P auth with
  | Some m =>
      match connection_message P m with
      | Ok message =>
          (Finished,
           reply_error P "connection_failed"
             (Some [("message", VStr message)]) 400 st)
      | Throw e => (Finished, log_uncaught P e st)
      end
  | None => run_routes P req after_connection (with_client st)
  end.

(** [parse(result)] up to its [await], then [res.json], inside the [try]
    of the action handler. *)
Definition result_settled (P : platform) (action : string) (object : jsval)
  (st : state) : pc * state :=
  match constructor_name P object with
  | Throw m => (Finished, reply_not_found P action m st)
  | Ok name =>
      if named_Cursor name then
        match object with
        | VCursor _ _ _ _ => (Draining action object, st)
        | _ => (Finished, reply_not_found P action (msg_not_function P) st)
        end
      else (Finished, reply_result P action object st)
  end.

(** One turn of handler code. *)
Definition step (P : platform) (req : request) (c : pc * state)
  : pc * state :=
  let (k, st) := c in
  match k with
  | Arrived => run_routes P req table st
  | Connecting auth => connection_settled P req auth st
  | Calling action (Resolves v) => result_settled P action v st
  | Calling action (Rejects m) => (Finished, reply_not_found P action m st)
  | Calling action Pending => (Calling action Pending, st)
  | Draining action cursor =>
      match toArray P cursor with
      | Ok arr => (Finished, reply_result P action arr st)
      | Throw m => (Finished, reply_not_found P action m st)
      end
  | Finished => (Finished, st)
  end.

Fixpoint turns (P : platform) (req : request) (n : nat) (c : pc * state)
  : pc * state :=
  match n with
  | O => c
  | S n' => turns P req n' (step P req c)
  end.

(** The callback given to [setTimeout]. *)
Definition timeout_guard (P : platform) (st : state) : state :=
  if headersSent (res st) then st
  else reply_error P "timeout" None 500 st.

(** The timer comes due: its callback runs, unless the process has
    ended. *)
Definition fire (P : platform) (c : pc * state) : pc * state :=
  if exited (snd c) then c else (fst c, timeout_guard P (snd c)).

(** The state of a request when its timer is about to fire.  The timer
    is armed in the first turn, so at least that turn has run; [early]
    counts the further turns that complete within the 10 seconds. *)
Definition at_deadline (P : platform) (early : nat) (req : request)
  : pc * state :=
  turns P req (S early) (Arrived, initial).

(** The whole life of a request: the turns before the deadline, the
    timer, and the turns that are left.  No request takes more than four
    turns, and a request whose handler promise was rejected unhandled is
    [Finished] ([exited_Finished]), so that nothing runs for it once the
    process has ended. *)
Definition serve (P : platform) (early : nat) (req : request) : pc * state :=
  turns P req 4 (fire P (at_deadline P early req)).

Definition replies (c : pc * state) : list (Z * jsval) := written (res (snd c)).

(* ================================================================== *)
(** ** A sample platform

    A small driver to run the gateway on: one client with
    [listDatabases], databases with [stats], collections with [find]
    (a cursor of class [Cursor]), [aggregate] (a cursor of class
    [AggregationCursor]), [findOne] (no match: [null]) and [drop]
    (rejects).  [fclone] is the deep copy the package makes of a value
    without cycles: arrays element by element, objects into plain objects
    whose keys it visits last to first. *)

Module Sample.

Definition sextet (c : ascii) : option N :=
  let n := N_of_ascii c in
  if (65 <=? n)%N && (n <=? 90)%N then Some (n - 65)%N
  else if (97 <=? n)%N && (n <=? 122)%N then Some (n - 71)%N
  else if (48 <=? n)%N && (n <=? 57)%N then Some (n + 4)%N
  else if (n =? 43)%N || (n =? 45)%N then Some 62%N
  else if (n =? 47)%N || (n =? 95)%N then Some 63%N
  else None.

(** base64 to bytes; [acc] holds [bits] bits not yet given out.
    Characters outside the alphabet are passed over and ['='] ends the
    text. *)
Fixpoint decode (acc : N) (bits : N) (s : string) : string :=
  match s with
  | EmptyString => EmptyString
  | String c rest =>
      if (c =? "=")%char then EmptyString else
      match sextet c with
      | None => decode acc bits rest
      | Some v =>
          let acc' := (acc * 64 + v)%N in
          let bits' := (bits + 6)%N in
          if (8 <=? bits')%N then
            let left := (bits' - 8)%N in
            String (ascii_of_N (N.shiftr acc' left))
                   (decode (N.land acc' (N.ones left)) left rest)
          else decode acc' bits' rest
      end
  end.

(** bytes below 128 are their own UTF-8 text *)
Definition base64 (s : string) : string := decode 0 0 s.

Definition hex (c : ascii) : option N :=
  let n := N_of_ascii c in
  if (48 <=? n)%N && (n <=? 57)%N then Some (n - 48)%N
  else if (65 <=? n)%N && (n <=? 70)%N then Some (n - 55)%N
  else if (97 <=? n)%N && (n <=? 102)%N then Some (n - 87)%N
  else None.

(** percent-decoding of a piece whose escapes are well formed and stand
    for bytes below 128 *)
Fixpoint unescape (s : string) : string :=
  match s with
  | EmptyString => EmptyString
  | String c t =>
      match t with
      | String h (String l rest) =>
          match (c =? "%")%char, hex h, hex l with
          | true, Some a, Some b =>
              String (ascii_of_N (a * 16 + b)) (unescape rest)
          | _, _, _ => String c (unescape t)
          end
      | _ => String c (unescape t)
      end
  end.

Fixpoint clone (v : jsval) : jsval :=
  match v with
  | VArr l => VArr (map clone l)
  | VObj _ f | VCursor _ f _ _ =>
      VObj "Object" (rev (map (fun kv => (fst kv, clone (snd kv))) f))
  | _ => v
  end.

Definition alice : jsval :=
  VObj "Object" [("name", VStr "alice"); ("age", VNum 30)].
Definition bob : jsval :=
  VObj "Object" [("name", VStr "bob"); ("age", VNum 41)].

Definition methods (t : target) (action : string)
  : option (list jsval -> invocation) :=
  match t with
  | Client =>
      if action =? "listDatabases" then
        Some (fun _ => Returns (Resolves
          (VObj "Object" [("databases", VArr [VStr "mydb"]); ("ok", VNum 1)])))
      else None
  | Database _ =>
      if action =? "stats" then
        Some (fun _ => Returns (Resolves (VObj "Object" [("ok", VNum 1)])))
      else None
  | Collection _ _ =>
      if action =? "find" then
        Some (fun _ => Returns (Resolves
          (VCursor "Cursor" [("cmd", VStr "find")] [alice; bob] None)))
      else if action =? "aggregate" then
        Some (fun _ => Returns (Resolves
          (VCursor "AggregationCursor" [("cmd", VStr "aggregate")]
             [alice; bob] None)))
      else if action =? "findOne" then
        Some (fun _ => Returns (Resolves VNull))
      else if action =? "drop" then
        Some (fun _ => Returns (Rejects "ns not found"))
      else if action =? "watch" then
        Some (fun _ => Returns Pending)
      else None
  end.

Definition it : platform :=
  {| connect := fun auth =>
       match auth with
       | Some a =>
           if user a =? "root" then None
           else Some ("failed to connect to server [localhost:27017] " ++
                      "on first connect [MongoError: Authentication failed.]")
       | None => None
       end;
     client_db := fun _ => None;
     db_collection := fun _ _ => None;
     lookup := methods;
     fclone := clone;
     base64_utf8 := base64;
     decodeURIComponent := unescape;
     unhandled_rejections := ModeThrow;
     msg_not_function := "target[action] is not a function";
     msg_not_iterable := "req.body is not iterable";
     msg_no_property := "Cannot read properties of null or undefined";
     msg_headers_sent :=
       "Cannot set headers after they are sent to the client" |}.

(** a request for the pathname [p], which starts with a slash *)
Definition request_for (m : method) (p : string) (b : jsval)
  (header : option string) : request :=
  {| req_method := m;
     path_tail := match p with String _ t => t | EmptyString => "" end;
     body := b;
     authorization := header |}.

Definition post (p : string) (b : jsval) : request :=
  request_for POST p b None.

End Sample.

(* ================================================================== *)
(** ** Start-up: [DEFAULT_CONFIG] and [start] *)

Definition DEFAULT_CONFIG : jsval :=
  VObj "Object"
    [("connection", VStr "mongodb://localhost:27017");
     ("web_port", VStr "27020");
     ("client",
      VObj "Object"
        [("useNewUrlParser", VBool true);
         ("useUnifiedTopology", VBool true);
         ("connectTimeoutMS", VNum 2000)])].

Module JsObject.

Fixpoint indexed (i : nat) (l : list jsval) : list (string * jsval) :=
  match l with
  | [] => []
  | v :: rest => (NilZero.string_of_uint (Nat.to_uint i), v)
                 :: indexed (S i) rest
  end.

(** the own enumerable properties [Object.assign] copies from a source *)
Definition own_enumerable (source : jsval) : list (string * jsval) :=
  match source with
  | VObj _ f | VCursor _ f _ _ => f
  | VArr l => indexed 0 l
  | VStr s => indexed 0 (Js.chars s)
  | VUndefined | VNull | VBool _ | VNum _ => []
  end.

(** [Object.assign(target, source)], for a target that is an object, as
    [DEFAULT_CONFIG] is: the members of the source are defined on the
    target one by one, and the target is returned. *)
Definition assign (target source : jsval) : jsval :=
  match target with
  | VObj cls f => VObj cls (Js.set_all (own_enumerable source) f)
  | _ => target
  end.

End JsObject.

(** How [new MongoDB.MongoClient(...)] followed by [client.connect()]
    ends: the constructor stands outside the [try] block. *)
Inductive attempt : Type :=
| Established
| Refused (message : string)
| Threw (message : string).

(** What [start] uses of its host; [disk] is the state of the file
    system. *)
Record host (disk : Type) : Type := {
  (** [fs.readFile(CONFIG_PATH, "utf8")] *)
  readFile : disk -> outcome string;
  (** [fs.writeFile(CONFIG_PATH, text)] *)
  writeFile : string -> disk -> outcome disk;
  (** [JSON.parse(text)] *)
  JSON_parse : string -> outcome jsval;
  (** [JSON.stringify(value, null, 2)] *)
  JSON_stringify : jsval -> string;
  (** the initial connection made with the configuration *)
  initial_connection : jsval -> attempt;
  (** the body of [runtime] after its guard, ending in [app.listen]:
      [Some m] when it throws *)
  listen : jsval -> option string
}.
Arguments readFile {disk} h.
Arguments writeFile {disk} h.
Arguments JSON_parse {disk} h.
Arguments JSON_stringify {disk} h.
Arguments initial_connection {disk} h.
Arguments listen {disk} h.

(** The process while it starts: the disk, the object [DEFAULT_CONFIG]
    (which [Object.assign] changes), the reads and writes of the
    configuration file, the configuration the server runs with, and the
    rejections nothing handles. *)
Record boot (disk : Type) : Type := {
  disk_of : disk;
  defaults : jsval;
  reads : nat;
  writes : list string;
  serving : option jsval;
  rejections : list string
}.
Arguments disk_of {disk} b.
Arguments defaults {disk} b.
Arguments reads {disk} b.
Arguments writes {disk} b.
Arguments serving {disk} b.
Arguments rejections {disk} b.

Definition power_on {disk : Type} (d : disk) : boot disk :=
  {| disk_of := d; defaults := DEFAULT_CONFIG; reads := 0; writes := [];
     serving := None; rejections := [] |}.

Definition count_read {disk : Type} (b : boot disk) : boot disk :=
  {| disk_of := disk_of b; defaults := defaults b; reads := S (reads b);
     writes := writes b; serving := serving b;
     rejections := rejections b |}.

Definition set_defaults {disk : Type} (config : jsval) (b : boot disk)
  : boot disk :=
  {| disk_of := disk_of b; defaults := config; reads := reads b;
     writes := writes b; serving := serving b;
     rejections := rejections b |}.

Definition wrote {disk : Type} (text : string) (d : disk) (b : boot disk)
  : boot disk :=
  {| disk_of := d; defaults := defaults b; reads := reads b;
     writes := writes b ++ [text]; serving := serving b;
     rejections := rejections b |}.

Definition now_serving {disk : Type} (config : jsval) (b : boot disk)
  : boot disk :=
  {| disk_of := disk_of b; defaults := defaults b; reads := reads b;
     writes := writes b; serving := Some config;
     rejections := rejections b |}.

Definition rejected {disk : Type} (m : string) (b : boot disk) : boot disk :=
  {| disk_of := disk_of b; defaults := defaults b; reads := reads b;
     writes := writes b; serving := serving b;
     rejections := rejections b ++ [m] |}.

(** the text [start] looks for in the message of an error *)
Definition no_such_file : string := "no such file or directory".

(** [start(retry)]: the promise chain
    [readFile.then(load).then(runtime).catch(recover)].  [fuel] bounds
    the calls of [start] by itself; [None] when it runs out. *)
Fixpoint start {disk : Type} (H : host disk) (fuel : nat) (retry : bool)
  (b : boot disk) : option (boot disk) :=
  match fuel with
  | O => None
  | S fuel' =>
      let recover (m : string) (b : boot disk) : option (boot disk) :=
        if JsString.includes no_such_file m then
          let text := JSON_stringify H (defaults b) in
          match writeFile H text (disk_of b) with
          | Throw e => Some (rejected e b)
          | Ok d' =>
              if negb retry then Some (wrote text d' b)
              else start H fuel' false (wrote text d' b)
          end
        else Some b in
      let b1 := count_read b in
      match readFile H (disk_of b) with
      | Throw m => recover m b1
      | Ok text =>
          match JSON_parse H text with
          | Throw _ => Some b1
          | Ok parsed =>
              let config := JsObject.assign (defaults b) parsed in
              let b2 := set_defaults config b1 in
              match initial_connection H config with
              | Threw m => recover m b2
              | Refused _ => Some b2
              | Established =>
                  if Js.truthy config then
                    match listen H config with
                    | None => Some (now_serving config b2)
                    | Some m => recover m b2
                    end
                  else Some b2
              end
          end
      end
  end.

(** *** A sample host

    A disk that holds the configuration file or not, a serializer for
    values whose strings need no escaping, and a parser that knows the
    texts below. *)

Module SampleHost.

Definition quote : string := String (ascii_of_nat 34) EmptyString.

Fixpoint render (pad : string) (v : jsval) : string :=
  let inner := pad ++ "  " in
  let lines (items : list string) : string :=
    JsString.join ("," ++ JsString.newline)
      (map (fun item => inner ++ item) items) in
  match v with
  | VUndefined | VNull => "null"
  | VBool true => "true"
  | VBool false => "false"
  | VNum n => NilZero.string_of_int (Z.to_int n)
  | VStr s => quote ++ s ++ quote
  | VArr [] => "[]"
  | VArr l =>
      "[" ++ JsString.newline ++ lines (map (render inner) l)
      ++ JsString.newline ++ pad ++ "]"
  | VObj _ [] | VCursor _ [] _ _ => "{}"
  | VObj _ f | VCursor _ f _ _ =>
      "{" ++ JsString.newline
      ++ lines (map (fun kv => quote ++ fst kv ++ quote ++ ": "
                               ++ render inner (snd kv)) f)
      ++ JsString.newline ++ pad ++ "}"
  end.

Definition stringify (v : jsval) : string := render "" v.

(** a configuration file that sets the port and the driver options *)
Definition custom : jsval :=
  VObj "Object"
    [("web_port", VStr "8080");
     ("client", VObj "Object" [("connectTimeoutMS", VNum 500)])].

Definition parse_text (text : string) : outcome jsval :=
  if text =? stringify DEFAULT_CONFIG then Ok DEFAULT_CONFIG
  else if text =? stringify custom then Ok custom
  else Throw "Unexpected token".

Definition missing : string :=
  "ENOENT: no such file or directory, open 'http-mongodb.json'".

Definition it : host (option string) :=
  {| readFile := fun d =>
       match d with Some text => Ok text | None => Throw missing end;
     writeFile := fun text _ => Ok (Some text);
     JSON_parse := parse_text;
     JSON_stringify := stringify;
     initial_connection := fun _ => Established;
     listen := fun _ => None |}.

End SampleHost.

(* ================================================================== *)
(** ** Notions the properties are stated with *)

(** *** Credentials *)

Definition is_colon (c : ascii) : bool := (c =? ":")%char.

(** the text before the first colon *)
Fixpoint before_colon (s : string) : string :=
  match s with
  | EmptyString => EmptyString
  | String c rest => if is_colon c then EmptyString
                     else String c (before_colon rest)
  end.

(** the text after the first colon; [None] when there is no colon *)
Fixpoint after_colon (s : string) : option string :=
  match s with
  | EmptyString => None
  | String c rest => if is_colon c then Some rest else after_colon rest
  end.

(** the text with every colon taken out *)
Fixpoint without_colons (s : string) : string :=
  match s with
  | EmptyString => EmptyString
  | String c rest => if is_colon c then without_colons rest
                     else String c (without_colons rest)
  end.

(** *** Replies *)

(** The five kinds of failure and their statuses. *)
Definition kinds : list (string * Z) :=
  [("invalid_body", 400%Z); ("connection_failed", 400%Z);
   ("not_found", 404%Z); ("timeout", 500%Z); ("method_not_allowed", 405%Z)].

(** What stands between [reason] and [status] in the envelope of each
    kind of failure: a message for a body that is not an array and for a
    refused connection, the message and the action for a failed
    invocation, the method for a request that is not a POST, and nothing
    for a timeout and for a path that leads to no action. *)
Inductive context_for : string -> list (string * jsval) -> Prop :=
| invalid_body_context :
    context_for "invalid_body" [("message", VStr "body must be json array")]
| connection_failed_context (message : string) :
    context_for "connection_failed" [("message", VStr message)]
| failed_action_context (message action : string) :
    context_for "not_found"
      [("message", VStr message); ("action", VStr action)]
| no_action_context : context_for "not_found" []
| timeout_context : context_for "timeout" []
| method_context (name : string) :
    context_for "method_not_allowed" [("method", VStr name)].

(** the members an object literal [{ reason, ...context, status }] has
    when no member of the context is named [reason] or [status] *)
Definition members (reason : string) (context : list (string * jsval))
  (status : Z) : list (string * jsval) :=
  (("reason", VStr reason) :: context ++ [("status", VNum status)])%list.

(** the reply [(status, b)] is an error envelope of one of the five kinds,
    and carries the status it is sent with *)
Definition failure_reply (status : Z) (b : jsval) : Prop :=
  exists reason context,
    In (reason, status) kinds
    /\ context_for reason context
    /\ b = VObj "Object"
             [("error", VObj "Object" (members reason context status))].

(** the calls of [error] the file makes; [context] is [None] for [null],
    which spreads to nothing *)
Definition called (reason : string)
  (context : option (list (string * jsval))) (status : Z) : Prop :=
  In (reason, status) kinds
  /\ context_for reason
       (match context with Some props => props | None => [] end).

Definition well_formed (r : response) : Prop :=
  (written r = [] -> statusCode r = 200%Z)
  /\ forall status b, In (status, b) (written r) ->
       status = 200%Z \/ failure_reply status b.

(** *** Routing *)

(** What the handlers leave alone when they reply. *)
Definition same_routing (st st' : state) : Prop :=
  dispatched st' = dispatched st
  /\ connects st' = connects st
  /\ locals_client st' = locals_client st
  /\ locals_database st' = locals_database st
  /\ locals_collection st' = locals_collection st.

(** nothing, or the empty piece a trailing slash leaves *)
Definition trailing (tail : list string) : Prop := tail = [] \/ tail = [""].

(** Where in the path a lookup of [a] on [t] belongs: the path ends in
    an action segment, the marker followed by a piece that decodes to
    [a], and the pieces before it, whatever they look like, decode to the
    names of the target. *)
Definition site (P : platform) (req : request) (t : target) (a : string)
  : Prop :=
  req_method req = POST /\
  exists seg tail,
    seg <> "" /\ a = decodeURIComponent P seg /\ trailing tail /\
    match t with
    | Client =>
        segments (path req) = "" :: String "_" seg :: tail
    | Database d =>
        exists s1,
          s1 <> "" /\ d = decodeURIComponent P s1 /\
          segments (path req) = "" :: s1 :: String "_" seg :: tail
    | Collection d c =>
        exists s1 s2,
          s1 <> "" /\ s2 <> "" /\
          d = decodeURIComponent P s1 /\ c = decodeURIComponent P s2 /\
          segments (path req) = "" :: s1 :: s2 :: String "_" seg :: tail
    end.

(** The lookups made so far were made where the path says, and
    [res.locals] holds the objects the path names. *)
Definition routed (P : platform) (req : request) (st : state) : Prop :=
  (forall t a, In (t, a) (dispatched st) -> site P req t a)
  /\ (forall d, locals_database st = Some d ->
        exists s1 x rest,
          segments (path req) = "" :: s1 :: x :: rest
          /\ s1 <> "" /\ d = decodeURIComponent P s1)
  /\ (forall d c, locals_collection st = Some (d, c) ->
        exists s1 s2 x rest,
          segments (path req) = "" :: s1 :: s2 :: x :: rest
          /\ s1 <> "" /\ s2 <> ""
          /\ d = decodeURIComponent P s1 /\ c = decodeURIComponent P s2).

(** The objects the lookup on [t] needs are obtained without an error:
    [client.db] accepts the name of the database, and
    [database.collection] the name of the collection. *)
Definition opens (P : platform) (t : target) : Prop :=
  match t with
  | Client => True
  | Database d => client_db P d = None
  | Collection d c => client_db P d = None /\ db_collection P d c = None
  end.

(** The same for a path that leads to no action: the descent routes
    that apply to it obtain their objects from the names the path
    gives. *)
Definition objects_open (P : platform) (req : request) : Prop :=
  (forall s1 x rest,
     segments (path req) = "" :: s1 :: x :: rest -> s1 <> "" ->
     client_db P (decodeURIComponent P s1) = None)
  /\ (forall s1 s2 x rest,
        segments (path req) = "" :: s1 :: s2 :: x :: rest ->
        s1 <> "" -> s2 <> "" ->
        db_collection P (decodeURIComponent P s1) (decodeURIComponent P s2)
        = None).

(** a segment prefixed with the marker *)
Definition marked (seg : string) : bool := String.prefix "_" seg.

(** the path ends in an action segment *)
Definition ends_in_action (p : string) : bool :=
  match rev (filter nonempty (segments p)) with
  | last :: _ => marked last
  | [] => false
  end.

(** The rule as the specification words it: among the segments before
    the action segment that ends the path, count those that are not
    themselves marked; none gives the client, one the database of that
    name, two the collection of the second name in the database of the
    first (the names decoded). *)
Definition claimed_target (P : platform) (p : string) : option target :=
  match rev (filter nonempty (segments p)) with
  | [] => None
  | last :: before =>
      if marked last then
        match filter (fun seg => negb (marked seg)) (rev before) with
        | [] => Some Client
        | [d] => Some (Database (decodeURIComponent P d))
        | [d; c] =>
            Some (Collection (decodeURIComponent P d)
                    (decodeURIComponent P c))
        | _ => None
        end
      else None
  end.

(** Once the routes have been walked, no further lookup is made. *)
Definition settling (k : pc) : bool :=
  match k with Arrived | Connecting _ => false | _ => true end.

(** The turns a request may still take: none once its handlers are
    through or wait for a promise that never settles. *)
Definition turns_left (k : pc) : nat :=
  match k with
  | Arrived => 4
  | Connecting _ => 3
  | Calling _ Pending => 0
  | Calling _ _ => 2
  | Draining _ _ => 1
  | Finished => 0
  end.

(** *** Failed invocations *)

(** When a failed invocation is caught: in the turn that makes it, or in
    the turn in which its promise settles. *)
Inductive moment : Type := AtOnce | OnSettling.

(** The ways [await target[action](...req.body)] fails, with the
    [err.message] the [catch] block receives: the body cannot be spread,
    the action is not a function of the target, the call throws, or the
    promise it returns rejects. *)
Definition failure (P : platform) (t : target) (a : string) (args : jsval)
  : option (moment * string) :=
  match spread P args with
  | Throw m => Some (AtOnce, m)
  | Ok l =>
      match lookup P t a with
      | None => Some (AtOnce, msg_not_function P)
      | Some f =>
          match f l with
          | ThrowsNow m => Some (AtOnce, m)
          | Returns (Rejects m) => Some (OnSettling, m)
          | Returns _ => None
          end
      end
  end.

(** the turns after the first that must fit before the deadline *)
Definition turns_to_catch (w : moment) : nat :=
  match w with AtOnce => 1 | OnSettling => 2 end.

(** *** The body check *)

(** the guard of [app.post("/*")] lets the body through *)
Definition body_passes (req : request) : bool :=
  negb (Js.truthy (body req) && negb (Js.isArray (body req))).

(** *** Drivers that fail *)

Module Faulty.

(** the sample driver, refusing every connection with message [m] *)
Definition refusing (m : string) : platform :=
  {| connect := fun _ => Some m;
     client_db := client_db Sample.it;
     db_collection := db_collection Sample.it;
     lookup := lookup Sample.it;
     fclone := fclone Sample.it;
     base64_utf8 := base64_utf8 Sample.it;
     decodeURIComponent := decodeURIComponent Sample.it;
     unhandled_rejections := unhandled_rejections Sample.it;
     msg_not_function := msg_not_function Sample.it;
     msg_not_iterable := msg_not_iterable Sample.it;
     msg_no_property := msg_no_property Sample.it;
     msg_headers_sent := msg_headers_sent Sample.it |}.

(** the characters the driver refuses in the name of a database *)
Definition invalid_chars : list string := [" "; "."; "$"; "/"; "\"].

(** the sample driver, with the checks the driver makes on names:
    [client.db] throws on a name with a space, a dot, a dollar sign, a
    slash or a backslash, [database.collection] on a name with a dollar
    sign *)
Definition checking_names : platform :=
  {| connect := connect Sample.it;
     client_db := fun d =>
       match find (fun ch => JsString.includes ch d) invalid_chars with
       | Some ch =>
           Some ("database names cannot contain the character '"
                 ++ ch ++ "'")
       | None => None
       end;
     db_collection := fun _ c =>
       if JsString.includes "$" c
       then Some "collection names must not contain '$'"
       else None;
     lookup := lookup Sample.it;
     fclone := fclone Sample.it;
     base64_utf8 := base64_utf8 Sample.it;
     decodeURIComponent := decodeURIComponent Sample.it;
     unhandled_rejections := unhandled_rejections Sample.it;
     msg_not_function := msg_not_function Sample.it;
     msg_not_iterable := msg_not_iterable Sample.it;
     msg_no_property := msg_no_property Sample.it;
     msg_headers_sent := msg_headers_sent Sample.it |}.

(** [P] run by a Node that only warns of unhandled rejections *)
Definition warning (P : platform) : platform :=
  {| connect := connect P;
     client_db := client_db P;
     db_collection := db_collection P;
     lookup := lookup P;
     fclone := fclone P;
     base64_utf8 := base64_utf8 P;
     decodeURIComponent := decodeURIComponent P;
     unhandled_rejections := ModeWarn;
     msg_not_function := msg_not_function P;
     msg_not_iterable := msg_not_iterable P;
     msg_no_property := msg_no_property P;
     msg_headers_sent := msg_headers_sent P |}.

End Faulty.

(** *** Plain messages *)

(** neither a full stop, nor a line feed, nor an ASCII capital *)
Definition plain (c : ascii) : bool :=
  let n := nat_of_ascii c in
  negb (n =? 46)%nat && negb (n =? 10)%nat
  && negb ((65 <=? n)%nat && (n <=? 90)%nat).

Fixpoint all_chars (p : ascii -> bool) (s : string) : bool :=
  match s with
  | EmptyString => true
  | String c rest => p c && all_chars p rest
  end.

(** the text before the first [ch] *)
Fixpoint before_char (ch : ascii) (s : string) : string :=
  match s with
  | EmptyString => EmptyString
  | String c rest => if (c =? ch)%char then EmptyString
                     else String c (before_char ch rest)
  end.

(** the text with every [ch] taken out *)
Fixpoint without_char (ch : ascii) (s : string) : string :=
  match s with
  | EmptyString => EmptyString
  | String c rest => if (c =? ch)%char then without_char ch rest
                     else String c (without_char ch rest)
  end.

(** *** Success only after a lookup *)

(** the handlers wait for the call of an action or for its cursor *)
Definition awaiting_result (k : pc) : bool :=
  match k with Calling _ _ | Draining _ _ => true | _ => false end.

(** a request that waits for a result, or has a 200 among its replies,
    has looked an action up *)
Definition earned (c : pc * state) : Prop :=
  (awaiting_result (fst c) = true -> dispatched (snd c) <> [])
  /\ (forall b, In (200%Z, b) (written (res (snd c))) ->
                dispatched (snd c) <> []).

(* ================================================================== *)
(** * Properties *)

(** ** Turns *)

Lemma turns_Finished (P : platform) (req : request) (n : nat) (st : state) :
  turns P req n (Finished, st) = (Finished, st).
Proof. induction n as [|n IH]; simpl; auto. Qed.

Lemma turns_add (P : platform) (req : request) (n m : nat) (c : pc * state) :
  turns P req (n + m) c = turns P req m (turns P req n c).
Proof. revert c; induction n as [|n IH]; intro c; simpl; auto. Qed.

Lemma turns_after (P : platform) (req : request) (n m : nat) (c : pc * state) :
  n <= m -> turns P req m c = turns P req (m - n) (turns P req n c).
Proof.
  intro H. rewrite <- turns_add. f_equal. lia.
Qed.

(** ** Once the head is sent nothing more is written *)

(** case analysis on an innermost scrutinee of the goal *)
Ltac break_match :=
  match goal with
  | |- context [match ?x with _ => _ end] =>
      lazymatch x with
      | context [match _ with _ => _ end] => fail
      | _ => destruct x eqn:?
      end
  end.

Lemma headersSent_written (r : response) :
  headersSent r = false <-> written r = [].
Proof.
  unfold headersSent. destruct (written r); split; congruence.
Qed.

Lemma reply_error_sealed (P : platform) reason context status (st : state) :
  headersSent (res st) = true ->
  written (res (reply_error P reason context status st)) = written (res st).
Proof.
  intro H. unfold reply_error, error, res_json.
  replace (headersSent (res_status status (res st))) with true by exact (eq_sym H).
  reflexivity.
Qed.

Lemma reply_result_sealed (P : platform) action v (st : state) :
  headersSent (res st) = true ->
  written (res (reply_result P action v st)) = written (res st).
Proof.
  intro H. unfold reply_result, res_json. rewrite H.
  apply reply_error_sealed; exact H.
Qed.

Lemma invoke_sealed (P : platform) tgt action args (st : state) :
  headersSent (res st) = true ->
  written (res (snd (invoke P tgt action args st))) = written (res st).
Proof.
  intro H. unfold invoke, reply_not_found.
  repeat break_match; simpl;
    try (rewrite reply_error_sealed; [reflexivity|exact H]); reflexivity.
Qed.

Lemma handler_sealed (P : platform) (req : request) r ps (st : state) :
  headersSent (res st) = true ->
  match handler P req r ps st with
  | Next st' | Stop _ st' => written (res st') = written (res st)
  end.
Proof.
  intro H. destruct r; simpl;
    try match goal with
        | |- context [invoke ?Q ?t ?a ?b ?s] =>
            pose proof (invoke_sealed Q t a b s H) as Hi;
            destruct (invoke Q t a b s); simpl in *; exact Hi
        end;
    try rewrite H;
    repeat break_match; simpl;
    try reflexivity;
    rewrite reply_error_sealed; solve [reflexivity | exact H].
Qed.

Lemma run_routes_sealed (P : platform) (req : request) rs (st : state) :
  headersSent (res st) = true ->
  written (res (snd (run_routes P req rs st))) = written (res st).
Proof.
  revert st. induction rs as [|r rs IH]; intros st H; simpl; auto.
  destruct (applies P r req) as [ps|]; auto.
  pose proof (handler_sealed P req r ps st H) as Hh.
  destruct (handler P req r ps st) as [st'|k st']; simpl; auto.
  rewrite IH; auto.
  unfold headersSent in *. rewrite Hh. exact H.
Qed.

Lemma step_sealed (P : platform) (req : request) (c : pc * state) :
  headersSent (res (snd c)) = true ->
  written (res (snd (step P req c))) = written (res (snd c)).
Proof.
  destruct c as [k st]; cbn [snd]; intro H. unfold step.
  destruct k as [|auth|action [v|m|]|action cursor|]; cbn [snd]; auto.
  - apply run_routes_sealed; exact H.
  - unfold connection_settled.
    destruct (connect P auth) as [m|].
    + destruct (connection_message P m); cbn [snd]; auto.
      apply reply_error_sealed; exact H.
    + rewrite run_routes_sealed; auto.
  - unfold result_settled, reply_not_found.
    repeat break_match; simpl; auto;
      try (apply reply_error_sealed; exact H);
      apply reply_result_sealed; exact H.
  - apply reply_error_sealed; exact H.
  - unfold reply_not_found. break_match; simpl.
    + apply reply_result_sealed; exact H.
    + apply reply_error_sealed; exact H.
Qed.

Lemma turns_sealed (P : platform) (req : request) n (c : pc * state) :
  headersSent (res (snd c)) = true ->
  written (res (snd (turns P req n c))) = written (res (snd c)).
Proof.
  revert c. induction n as [|n IH]; intros c H; simpl; auto.
  rewrite IH.
  - apply step_sealed; exact H.
  - unfold headersSent in *. rewrite step_sealed; auto.
Qed.

Lemma timeout_guard_sealed (P : platform) (st : state) :
  headersSent (res st) = true -> timeout_guard P st = st.
Proof. intro H. unfold timeout_guard. rewrite H. reflexivity. Qed.

(** The timer leaves a request that has its reply as it is. *)
Lemma fire_sealed (P : platform) (c : pc * state) :
  headersSent (res (snd c)) = true -> fire P c = c.
Proof.
  intro H. unfold fire. destruct (exited (snd c)); [reflexivity|].
  rewrite timeout_guard_sealed by exact H. destruct c; reflexivity.
Qed.

Lemma fire_fst (P : platform) (c : pc * state) : fst (fire P c) = fst c.
Proof. unfold fire. destruct (exited (snd c)); reflexivity. Qed.

(** A reply given in the turns before the deadline is the only one. *)
Lemma replied_early (P : platform) (early : nat) (req : request) :
  headersSent (res (snd (at_deadline P early req))) = true ->
  replies (serve P early req) = written (res (snd (at_deadline P early req))).
Proof.
  intro H. unfold replies, serve.
  rewrite fire_sealed by exact H. apply turns_sealed; exact H.
Qed.

(** A request answered in its first turn. *)
Lemma replied_on_arrival (P : platform) (early : nat) (req : request) st :
  step P req (Arrived, initial) = (Finished, st) ->
  headersSent (res st) = true ->
  replies (serve P early req) = written (res st) /\
  connects (snd (serve P early req)) = connects st /\
  dispatched (snd (serve P early req)) = dispatched st.
Proof.
  intros Hstep Hsent.
  assert (Hd : at_deadline P early req = (Finished, st)).
  { unfold at_deadline.
    change (turns P req (S early) (Arrived, initial))
      with (turns P req early (step P req (Arrived, initial))).
    rewrite Hstep. apply turns_Finished. }
  unfold replies, serve. rewrite Hd.
  rewrite fire_sealed by exact Hsent.
  rewrite turns_Finished. auto.
Qed.

(** ** The first turn *)

Lemma prefix_nil (s : string) : String.prefix "" s = true.
Proof. destruct s; reflexivity. Qed.

Lemma path_starts_with_slash (req : request) :
  String.prefix "/" (path req) = true.
Proof. unfold path. simpl. apply prefix_nil. Qed.

Lemma arrival_not_post (P : platform) (req : request) :
  req_method req <> POST ->
  step P req (Arrived, initial) =
  (Finished,
   reply_error P "method_not_allowed"
     (Some [("method", VStr (method_lower (req_method req)))]) 405 initial).
Proof.
  intro H. unfold step, table. destruct req as [m t b h]; simpl in H.
  destruct m; try congruence; reflexivity.
Qed.

Lemma arrival_post (P : platform) (req : request) :
  req_method req = POST ->
  step P req (Arrived, initial) =
  if Js.truthy (body req) && negb (Js.isArray (body req))
  then (Finished,
        reply_error P "invalid_body"
          (Some [("message", VStr "body must be json array")]) 400 initial)
  else (Connecting (extract_auth P (authorization req)),
        log_connect (extract_auth P (authorization req)) initial).
Proof.
  intro H. unfold step, table. destruct req as [m t b h]; simpl in H; subst m.
  cbn [run_routes applies post_only req_method is_post negb andb pattern
       handler body authorization].
  rewrite path_starts_with_slash.
  destruct (Js.truthy b && negb (Js.isArray b)); reflexivity.
Qed.

(** C8: every request whose method is not POST, whatever its path and
    whenever its timer fires, is answered once, with status 405 and the
    envelope of reason [method_not_allowed]. *)
Theorem not_post_method_not_allowed (P : platform) (early : nat)
  (req : request) :
  req_method req <> POST ->
  replies (serve P early req) =
  [(405%Z,
    envelope "method_not_allowed"
      (Some [("method", VStr (method_lower (req_method req)))]) 405)].
Proof.
  intro H.
  destruct (replied_on_arrival P early req _ (arrival_not_post P req H))
    as [Hr _]; [reflexivity|].
  rewrite Hr. reflexivity.
Qed.

Lemma not_post_method_not_allowed_witness :
  GET <> POST /\
  replies (serve Sample.it 0
             (Sample.request_for GET "/mydb/users/_find/"
                (VObj "Object" []) None)) =
  [(405%Z,
    envelope "method_not_allowed" (Some [("method", VStr "get")]) 405)].
Proof.
  split; [discriminate|].
  apply (not_post_method_not_allowed Sample.it 0
           (Sample.request_for GET "/mydb/users/_find/"
              (VObj "Object" []) None)).
  simpl; discriminate.
Defined.

(** C2: a POST request whose decoded body passes the [req.body &&] test
    (it is present: [express.json()] leaves an array or an object, and
    every object is truthy) and is not an array is answered 400
    [invalid_body], and [MongoClient.connect] is never called for it. *)
Theorem invalid_body_no_connection (P : platform) (early : nat)
  (req : request) :
  req_method req = POST ->
  Js.truthy (body req) = true ->
  Js.isArray (body req) = false ->
  replies (serve P early req) =
  [(400%Z,
    envelope "invalid_body"
      (Some [("message", VStr "body must be json array")]) 400)]
  /\ connects (snd (serve P early req)) = [].
Proof.
  intros Hm Ht Ha.
  pose proof (arrival_post P req Hm) as Hs. rewrite Ht, Ha in Hs. simpl in Hs.
  destruct (replied_on_arrival P early req _ Hs) as (Hr & Hc & _);
    [reflexivity|].
  rewrite Hr, Hc. split; reflexivity.
Qed.

Lemma invalid_body_no_connection_witness :
  replies (serve Sample.it 2
             (Sample.post "/mydb/users/_find/"
                (VObj "Object" [("age", VNum 21)]))) =
  [(400%Z,
    envelope "invalid_body"
      (Some [("message", VStr "body must be json array")]) 400)]
  /\ connects (snd (serve Sample.it 2
                      (Sample.post "/mydb/users/_find/"
                         (VObj "Object" [("age", VNum 21)])))) = [].
Proof.
  apply (invalid_body_no_connection Sample.it 2
           (Sample.post "/mydb/users/_find/"
              (VObj "Object" [("age", VNum 21)]))); reflexivity.
Defined.

(** Every object and every array is truthy: a body [express.json()]
    decoded always passes the [req.body &&] test. *)
Lemma decoded_body_truthy (v : jsval) :
  match v with VArr _ | VObj _ _ => Js.truthy v = true | _ => True end.
Proof. destruct v; simpl; auto. Qed.

(** In particular every JSON object, the empty one included, is
    rejected before any connection is asked for. *)
Lemma object_body_rejected (P : platform) (early : nat) (req : request)
  (cls : string) (fields : list (string * jsval)) :
  req_method req = POST ->
  body req = VObj cls fields ->
  replies (serve P early req) =
  [(400%Z,
    envelope "invalid_body"
      (Some [("message", VStr "body must be json array")]) 400)]
  /\ connects (snd (serve P early req)) = [].
Proof.
  intros Hm Hb.
  pose proof (arrival_post P req Hm) as Hs. rewrite Hb in Hs. simpl in Hs.
  destruct (replied_on_arrival P early req _ Hs) as (Hr & Hc & _);
    [reflexivity|].
  rewrite Hr, Hc. split; reflexivity.
Qed.

(* ------------------------------------------------------------------ *)
(** ** The timeout guard *)

Lemma timeout_guard_unsent (P : platform) (st : state) :
  headersSent (res st) = false ->
  written (res (timeout_guard P st)) = [(500%Z, envelope "timeout" None 500)].
Proof.
  intro H. unfold timeout_guard, reply_error, error, res_json.
  rewrite H.
  replace (headersSent (res_status 500 (res st))) with false
    by exact (eq_sym H).
  cbn [res written with_res res_status statusCode].
  apply headersSent_written in H. rewrite H. reflexivity.
Qed.

(** The timer fires on a request that has no reply yet, in a process
    that runs: the reply of the guard is written, and it stays the only
    one. *)
Lemma unanswered_gets_timeout (P : platform) (early : nat) (req : request) :
  exited (snd (at_deadline P early req)) = false ->
  headersSent (res (snd (at_deadline P early req))) = false ->
  replies (serve P early req) = [(500%Z, envelope "timeout" None 500)].
Proof.
  intros Hx H. unfold replies, serve, fire. rewrite Hx.
  rewrite turns_sealed; cbn [snd].
  - apply timeout_guard_unsent; exact H.
  - unfold headersSent. rewrite timeout_guard_unsent by exact H. reflexivity.
Qed.




(** The late completion does run: the cursor is drained, [res.json]
    throws, the [catch] block calls [error], which throws again, and
    that rejection ends the process. *)
Example late_completion_is_lost :
  serve Sample.it 1 (Sample.post "/mydb/users/_find/" (VArr [])) =
  (Finished,
   {| res := {| statusCode := 404;
                written := [(500%Z, envelope "timeout" None 500)] |};
      locals_client := true;
      locals_database := Some "mydb";
      locals_collection := Some ("mydb", "users");
      connects := [None];
      dispatched := [(Collection "mydb" "users", "find")];
      uncaught := ["Cannot set headers after they are sent to the client"];
      exited := true |}).
Proof. reflexivity. Qed.

(* ------------------------------------------------------------------ *)
(** ** Invariants of the response *)

(** one of the calls of [error] the file makes *)
Ltac is_called := split; [simpl; tauto | cbn; constructor].

Section ResponseInvariant.

Variable P : platform.
Variable Inv : response -> Prop.

Hypothesis Inv_error :
  forall reason context status r,
    called reason context status -> Inv r ->
    Inv (fst (error P reason context status r)).
Hypothesis Inv_json :
  forall v r r', Inv r -> res_json P v r = Ok r' -> Inv r'.

Lemma reply_error_inv reason context status st :
  called reason context status -> Inv (res st) ->
  Inv (res (reply_error P reason context status st)).
Proof.
  intros Hk H. unfold reply_error.
  pose proof (Inv_error reason context status (res st) Hk H) as He.
  destruct (error P reason context status (res st)) as [r [o|m]];
    exact He.
Qed.

Lemma reply_not_found_inv action m st :
  Inv (res st) -> Inv (res (reply_not_found P action m st)).
Proof.
  intro H. apply reply_error_inv; [|exact H]. is_called.
Qed.

Lemma reply_result_inv action v st :
  Inv (res st) -> Inv (res (reply_result P action v st)).
Proof.
  intro H. unfold reply_result.
  destruct (res_json P (fclone P v) (res st)) as [r|m] eqn:E.
  - exact (Inv_json _ _ _ H E).
  - apply reply_not_found_inv; exact H.
Qed.

Lemma invoke_inv tgt action args st :
  Inv (res st) -> Inv (res (snd (invoke P tgt action args st))).
Proof.
  intro H. unfold invoke.
  repeat break_match; cbn [snd]; try exact H;
    apply reply_not_found_inv; exact H.
Qed.

Lemma handler_inv req r ps st :
  Inv (res st) ->
  match handler P req r ps st with
  | Next st' | Stop _ st' => Inv (res st')
  end.
Proof.
  intro H. destruct r; cbn [handler];
    try match goal with
        | |- context [invoke ?Q ?t ?a ?b ?s] =>
            pose proof (invoke_inv t a b s H) as Hi;
            destruct (invoke Q t a b s); exact Hi
        end;
    repeat break_match; try exact H;
    apply reply_error_inv; try exact H; is_called.
Qed.

Lemma run_routes_inv req rs st :
  Inv (res st) -> Inv (res (snd (run_routes P req rs st))).
Proof.
  revert st. induction rs as [|r rs IH]; intros st H; cbn [run_routes].
  - exact H.
  - destruct (applies P r req) as [ps|]; auto.
    pose proof (handler_inv req r ps st H) as Hh.
    destruct (handler P req r ps st) as [st'|k st']; auto.
Qed.

Lemma step_inv req c :
  Inv (res (snd c)) -> Inv (res (snd (step P req c))).
Proof.
  destruct c as [k st]; cbn [snd]; intro H. unfold step.
  destruct k as [|auth|action [v|m|]|action cursor|]; cbn [snd]; auto.
  - apply run_routes_inv; exact H.
  - unfold connection_settled.
    destruct (connect P auth) as [m|].
    + destruct (connection_message P m); cbn [snd]; auto.
      apply reply_error_inv; [is_called|exact H].
    + apply run_routes_inv; exact H.
  - unfold result_settled.
    repeat break_match; cbn [snd]; try exact H;
      try (apply reply_not_found_inv; exact H).
    apply reply_result_inv; exact H.
  - apply reply_not_found_inv; exact H.
  - break_match; cbn [snd].
    + apply reply_result_inv; exact H.
    + apply reply_not_found_inv; exact H.
Qed.

Lemma turns_inv req n c :
  Inv (res (snd c)) -> Inv (res (snd (turns P req n c))).
Proof.
  revert c. induction n as [|n IH]; intros c H; cbn [turns]; auto.
  apply IH, step_inv, H.
Qed.

Lemma serve_inv early req :
  Inv (res initial) -> Inv (res (snd (serve P early req))).
Proof.
  intro H. unfold serve. apply turns_inv. unfold fire.
  destruct (exited (snd (at_deadline P early req))).
  - apply turns_inv; exact H.
  - cbn [snd]. unfold timeout_guard. break_match.
    + apply turns_inv; exact H.
    + apply reply_error_inv; [is_called|]. apply turns_inv; exact H.
Qed.

End ResponseInvariant.

(** At most one reply is ever written for a request. *)
Lemma at_most_one_reply (P : platform) (early : nat) (req : request) :
  length (replies (serve P early req)) <= 1.
Proof.
  unfold replies.
  apply (serve_inv P (fun r => length (written r) <= 1)).
  - intros reason context status r _ H. unfold error, res_json.
    destruct (headersSent (res_status status r)) eqn:E; cbn [fst]; auto.
    apply headersSent_written in E. cbn [written]. rewrite E. simpl; lia.
  - intros v r r' H E. unfold res_json in E.
    destruct (headersSent r) eqn:Es; inversion E; subst; clear E.
    apply headersSent_written in Es. cbn [written]. rewrite Es. simpl; lia.
  - simpl; lia.
Qed.

(* ------------------------------------------------------------------ *)
(** ** The error envelope *)

Lemma get_set_same (k : string) (v : jsval) (fields : list (string * jsval)) :
  Js.get k (Js.set k v fields) = v.
Proof.
  unfold Js.get. induction fields as [|[k' v'] fields IH]; simpl.
  - rewrite String.eqb_refl. reflexivity.
  - destruct (k' =? k) eqn:E; simpl; rewrite E; auto.
Qed.

(** [status] is written last in the literal, so whatever [context]
    holds, the [status] member of the envelope is the status given. *)
Lemma envelope_status reason context (status : Z) :
  exists fields,
    envelope reason context status =
      VObj "Object" [("error", VObj "Object" fields)]
    /\ Js.get "status" fields = VNum status.
Proof.
  unfold envelope. eexists; split; [reflexivity|]. apply get_set_same.
Qed.

(** The literal of [error], for the contexts the file gives it: [reason]
    first, the members of the context in their order, [status] last. *)
Lemma envelope_called reason context (status : Z) :
  context_for reason
    (match context with Some props => props | None => [] end) ->
  envelope reason context status =
  VObj "Object"
    [("error",
      VObj "Object"
        (members reason
           (match context with Some props => props | None => [] end)
           status))].
Proof.
  intro H. unfold envelope, members.
  destruct context as [props|]; inversion H; subst; reflexivity.
Qed.

Lemma well_formed_error (P : platform) reason context status r :
  called reason context status -> well_formed r ->
  well_formed (fst (error P reason context status r)).
Proof.
  intros [Hk Hctx] [H0 H1]. unfold error, res_json.
  destruct (headersSent (res_status status r)) eqn:E; cbn [fst].
  - split.
    + intro Hw. cbn [written res_status] in Hw.
      unfold headersSent in E. cbn [written res_status] in E.
      rewrite Hw in E. discriminate.
    + exact H1.
  - apply headersSent_written in E. cbn [written res_status] in E.
    split; cbn [written statusCode res_status]; rewrite E.
    + discriminate.
    + intros s b [Hin|[]]. inversion Hin; subst. right.
      exists reason, (match context with Some props => props | None => [] end).
      split; [exact Hk|]. split; [exact Hctx|].
      apply envelope_called; exact Hctx.
Qed.

Lemma well_formed_json (P : platform) v r r' :
  well_formed r -> res_json P v r = Ok r' -> well_formed r'.
Proof.
  intros [H0 H1] E. unfold res_json in E.
  destruct (headersSent r) eqn:Es; inversion E; subst; clear E.
  apply headersSent_written in Es.
  split; cbn [written statusCode]; rewrite Es.
  - discriminate.
  - intros s b [Hin|[]]. inversion Hin; subst. left. auto.
Qed.

(** C10: every failure reply the gateway writes (every reply whose
    status is not 200) has a body of the shape
    [{ error: { reason, ...context, status } }]: an object whose one
    member [error] is an object with the members [reason], then those of
    the context, then [status].  The reason and the status are those of
    one of the five kinds of failure, the context is the one of that
    kind (none of its members is named [reason] or [status]), and the
    [status] member is the HTTP status of the reply. *)
Theorem failure_replies_are_envelopes (P : platform) (early : nat)
  (req : request) (status : Z) (b : jsval) :
  In (status, b) (replies (serve P early req)) ->
  status <> 200%Z ->
  exists reason context,
    In (reason, status) kinds
    /\ context_for reason context
    /\ b = VObj "Object"
             [("error",
               VObj "Object"
                 (("reason", VStr reason)
                  :: context ++ [("status", VNum status)])%list)].
Proof.
  intros Hin Hs.
  assert (W : well_formed (res (snd (serve P early req)))).
  { apply (serve_inv P well_formed).
    - intros; apply well_formed_error; assumption.
    - intros v r r'; apply well_formed_json.
    - split; [reflexivity|]. intros s b0 []. }
  destruct W as [_ W]. destruct (W status b Hin) as [E|E]; [congruence|].
  exact E.
Qed.

Lemma failure_replies_are_envelopes_witness :
  exists reason context,
    In (reason, 400%Z) kinds
    /\ context_for reason context
    /\ envelope "connection_failed"
         (Some [("message", VStr "authentication failed]")]) 400 =
       VObj "Object"
         [("error",
           VObj "Object"
             (("reason", VStr reason)
              :: context ++ [("status", VNum 400)])%list)].
Proof.
  apply (failure_replies_are_envelopes Sample.it 3
           (Sample.request_for POST "/mydb/_stats/" (VArr [])
              (Some "Basic Z3Vlc3Q6c2VjcmV0"))).
  - left; reflexivity.
  - discriminate.
Defined.

(* ------------------------------------------------------------------ *)
(** ** Credentials *)

Lemma split_colon_step (c : ascii) (rest : string) :
  JsString.split ":" (String c rest) =
  if is_colon c then EmptyString :: JsString.split ":" rest
  else match JsString.split ":" rest with
       | piece :: pieces => String c piece :: pieces
       | [] => [String c EmptyString]
       end.
Proof.
  unfold JsString.split, is_colon. cbn [JsString.split_from String.prefix].
  rewrite prefix_nil.
  destruct (ascii_dec ":" c) as [E|E].
  - subst c. rewrite Ascii.eqb_refl. reflexivity.
  - destruct (Ascii.eqb_spec c ":"); [subst; congruence|reflexivity].
Qed.

Lemma split_colon_shape (s : string) :
  JsString.split ":" s =
  before_colon s ::
  match after_colon s with
  | Some rest => JsString.split ":" rest
  | None => []
  end.
Proof.
  induction s as [|c rest IH].
  - reflexivity.
  - rewrite split_colon_step. cbn [before_colon after_colon].
    destruct (is_colon c); [reflexivity|].
    rewrite IH. reflexivity.
Qed.

Lemma concat_nil_cons (x : string) (l : list string) :
  String.concat "" (x :: l) = x ++ String.concat "" l.
Proof.
  destruct l as [|y l]; simpl.
  - induction x as [|c x IH]; simpl; congruence.
  - reflexivity.
Qed.

Lemma join_split_colon (s : string) :
  JsString.join "" (JsString.split ":" s) = without_colons s.
Proof.
  unfold JsString.join. induction s as [|c rest IH].
  - reflexivity.
  - rewrite split_colon_step. cbn [without_colons].
    destruct (is_colon c).
    + rewrite concat_nil_cons. exact IH.
    + destruct (JsString.split ":" rest) as [|piece pieces] eqn:E.
      * rewrite split_colon_shape in E. discriminate.
      * rewrite concat_nil_cons in *. simpl. rewrite IH. reflexivity.
Qed.

(** What the authentication block extracts from a non-empty header:
    [user] is the decoded text before its first colon, [password] is
    what follows that colon with every further colon removed. *)
Lemma extracted_credential (P : platform) (h : string) :
  nonempty h = true ->
  let text := base64_utf8 P (JsString.join "" (JsString.split "Basic " h)) in
  extract_auth P (Some h) =
  Some {| user := before_colon text;
          password := match after_colon text with
                      | Some rest => without_colons rest
                      | None => ""
                      end |}.
Proof.
  intros H text. unfold extract_auth. rewrite H. fold text.
  rewrite split_colon_shape. cbn [hd tl].
  destruct (after_colon text) as [rest|].
  - rewrite join_split_colon. reflexivity.
  - reflexivity.
Qed.

(** C5, at the header of user [user] and password [pa:ss]: the decoded
    text is [user:pa:ss], the user extracted is [user], and the password
    extracted is [pass], not [pa:ss]: [join("")] puts the pieces back
    together without the colons [split(":")] took out. *)
Theorem password_loses_its_colons :
  Sample.base64 "dXNlcjpwYTpzcw==" = "user:pa:ss"
  /\ extract_auth Sample.it (Some "Basic dXNlcjpwYTpzcw==") =
     Some {| user := "user"; password := "pass" |}.
Proof. split; reflexivity. Qed.

(* ------------------------------------------------------------------ *)
(** ** Normalising a result *)

(** A cursor is drained when its constructor is named [Cursor] ... *)
Lemma parse_Cursor (P : platform) fields docs :
  Js.own "constructor" fields = None ->
  parse P (VCursor "Cursor" fields docs None) = Ok (fclone P (VArr docs)).
Proof.
  intro H. unfold parse, constructor_name. rewrite H. reflexivity.
Qed.

(** ... and only then: a cursor of any other class is cloned as it is. *)
Lemma parse_other_cursor (P : platform) cls fields docs failure :
  Js.own "constructor" fields = None ->
  cls <> "Cursor" ->
  parse P (VCursor cls fields docs failure) =
  Ok (fclone P (VCursor cls fields docs failure)).
Proof.
  intros H Hc. unfold parse, constructor_name. rewrite H.
  cbn [named_Cursor]. apply String.eqb_neq in Hc. rewrite Hc. reflexivity.
Qed.

(** The turns of the action handler compute [parse]: a result that
    settles and is not awaited further is answered with [parse] of it. *)
Lemma result_settled_parse (P : platform) (req : request) (action : string)
  (object : jsval) (st : state) :
  headersSent (res st) = false ->
  written (res (snd (turns P req 2
                       (Calling action (Resolves object), st)))) =
  match parse P object with
  | Ok v => [(statusCode (res st), v)]
  | Throw m =>
      [(404%Z,
        envelope "not_found"
          (Some [("message", VStr m); ("action", VStr action)]) 404)]
  end.
Proof.
  intro H. apply headersSent_written in H.
  assert (Hj : forall v, written (res (reply_result P action v st)) =
                         [(statusCode (res st), fclone P v)]).
  { intro v. unfold reply_result, res_json, headersSent. rewrite H.
    reflexivity. }
  assert (Hn : forall m, written (res (reply_not_found P action m st)) =
                 [(404%Z,
                   envelope "not_found"
                     (Some [("message", VStr m); ("action", VStr action)])
                     404)]).
  { intro m. unfold reply_not_found, reply_error, error, res_json,
      headersSent. cbn [written res_status]. rewrite H. reflexivity. }
  change (turns P req 2 (Calling action (Resolves object), st))
    with (step P req (result_settled P action object st)).
  unfold result_settled, parse.
  destruct (constructor_name P object) as [name|m].
  - destruct (named_Cursor name).
    + destruct object as [| | | | | | |cls f docs failure];
        try (unfold step; cbn [snd toArray]; apply Hn).
      unfold step. cbn [toArray]. destruct failure; cbn [snd]; auto.
    + unfold step. cbn [snd]. apply Hj.
  - unfold step. cbn [snd]. apply Hn.
Qed.

(** C6, at [POST /mydb/users/_aggregate/] on the sample driver, whose
    [aggregate] returns a cursor of class [AggregationCursor] over two
    documents: the reply is 200 and its body is the clone of the cursor
    object itself, not the sequence of the two documents. *)
Theorem aggregation_cursor_not_drained :
  Sample.methods (Collection "mydb" "users") "aggregate" <> None
  /\ replies (serve Sample.it 3
                (Sample.post "/mydb/users/_aggregate/" (VArr [VArr []]))) =
     [(200%Z, fclone Sample.it
                (VCursor "AggregationCursor" [("cmd", VStr "aggregate")]
                   [Sample.alice; Sample.bob] None))]
  /\ fclone Sample.it
       (VCursor "AggregationCursor" [("cmd", VStr "aggregate")]
          [Sample.alice; Sample.bob] None)
     <> fclone Sample.it (VArr [Sample.alice; Sample.bob]).
Proof. repeat split; discriminate. Qed.

(** The sibling path: [find] returns a cursor of class [Cursor], and the
    reply is the sequence of its documents. *)
Example find_cursor_drained :
  replies (serve Sample.it 3
             (Sample.post "/mydb/users/_find/" (VArr [VObj "Object" []]))) =
  [(200%Z, fclone Sample.it (VArr [Sample.alice; Sample.bob]))].
Proof. reflexivity. Qed.

(** C7, at the results [null] and [undefined]: [parse] throws, on any
    platform, since [object.constructor] cannot be read. *)
Theorem parse_throws_on_null (P : platform) :
  parse P VNull = Throw (msg_no_property P)
  /\ parse P VUndefined = Throw (msg_no_property P).
Proof. split; reflexivity. Qed.

(** What the client sees of it: [findOne] without a match is answered
    404 [not_found]. *)
Example findOne_without_match :
  replies (serve Sample.it 3
             (Sample.post "/mydb/users/_findOne/"
                (VArr [VObj "Object" [("name", VStr "carol")]]))) =
  [(404%Z,
    envelope "not_found"
      (Some [("message", VStr "Cannot read properties of null or undefined");
             ("action", VStr "findOne")]) 404)].
Proof. reflexivity. Qed.

(* ------------------------------------------------------------------ *)
(** ** Which object an action is looked up on *)

Lemma same_routing_refl (st : state) : same_routing st st.
Proof. unfold same_routing; auto. Qed.

Lemma reply_error_routing (P : platform) reason context status st :
  same_routing st (reply_error P reason context status st).
Proof.
  unfold reply_error.
  destruct (error P reason context status (res st)) as [r [o|m]];
    unfold same_routing; auto.
Qed.

Lemma reply_result_routing (P : platform) action v st :
  same_routing st (reply_result P action v st).
Proof.
  unfold reply_result. destruct (res_json P (fclone P v) (res st)).
  - unfold same_routing; auto.
  - apply reply_error_routing.
Qed.

Lemma timeout_guard_routing (P : platform) st :
  same_routing st (timeout_guard P st).
Proof.
  unfold timeout_guard. destruct (headersSent (res st)).
  - apply same_routing_refl.
  - apply reply_error_routing.
Qed.

(** Inversion of the patterns. *)

Lemma nonempty_false (s : string) : nonempty s = false -> s = "".
Proof.
  unfold nonempty. intro H. apply negb_false_iff in H.
  apply String.eqb_eq; exact H.
Qed.

Lemma nonempty_true (s : string) : nonempty s = true -> s <> "".
Proof.
  unfold nonempty. intro H. apply negb_true_iff in H.
  apply String.eqb_neq; exact H.
Qed.

Lemma action_of_Some (s a : string) :
  action_of s = Some a -> s = String "_" a /\ a <> "".
Proof.
  destruct s as [|c s]; simpl; [discriminate|].
  destruct (Ascii.eqb_spec c "_"); simpl; [|discriminate].
  destruct (nonempty s) eqn:E; [|discriminate].
  intro H; inversion H; subst. split; [reflexivity|].
  apply nonempty_true; exact E.
Qed.

(** case analysis on a pattern that matched, and what its tests say *)
Ltac pattern_facts :=
  unfold pattern, trailing;
  repeat break_match; try discriminate;
  repeat match goal with
    | H : _ && _ = true |- _ => apply andb_true_iff in H; destruct H
    | H : negb _ = true |- _ => apply negb_true_iff in H
    | H : nonempty _ = false |- _ => apply nonempty_false in H
    | H : nonempty _ = true |- _ => apply nonempty_true in H
    | H : action_of _ = Some _ |- _ =>
        apply action_of_Some in H; destruct H as [? ?]
    end;
  subst;
  let H := fresh in
  intro H; inversion H; subst;
  cbn [p_action p_db_name p_collection_name].

Lemma pattern_ClientAction (p : string) (ps : params) :
  pattern ClientAction p = Some ps ->
  exists tail, trailing tail
    /\ segments p = "" :: String "_" (p_action ps) :: tail
    /\ p_action ps <> "".
Proof. pattern_facts; eauto. Qed.

Lemma pattern_OpenDatabase (p : string) (ps : params) :
  pattern OpenDatabase p = Some ps ->
  exists x rest,
    segments p = "" :: p_db_name ps :: x :: rest /\ p_db_name ps <> "".
Proof. pattern_facts; eauto. Qed.

Lemma pattern_DatabaseAction (p : string) (ps : params) :
  pattern DatabaseAction p = Some ps ->
  exists tail, trailing tail
    /\ segments p = "" :: p_db_name ps :: String "_" (p_action ps) :: tail
    /\ p_db_name ps <> "" /\ p_action ps <> "".
Proof. pattern_facts; eauto 6. Qed.

Lemma pattern_OpenCollection (p : string) (ps : params) :
  pattern OpenCollection p = Some ps ->
  exists x rest,
    segments p = "" :: p_db_name ps :: p_collection_name ps :: x :: rest
    /\ p_db_name ps <> "" /\ p_collection_name ps <> "".
Proof. pattern_facts; eauto 6. Qed.

Lemma pattern_CollectionAction (p : string) (ps : params) :
  pattern CollectionAction p = Some ps ->
  exists tail, trailing tail
    /\ segments p = "" :: p_db_name ps :: p_collection_name ps
                       :: String "_" (p_action ps) :: tail
    /\ p_db_name ps <> "" /\ p_collection_name ps <> ""
    /\ p_action ps <> "".
Proof. pattern_facts; eauto 8. Qed.

Lemma nonempty_of (s : string) : s <> "" -> nonempty s = true.
Proof.
  intro H. unfold nonempty. apply negb_true_iff. apply String.eqb_neq; exact H.
Qed.

Lemma decode_param_of (P : platform) (s : string) :
  s <> "" -> decode_param P s = decodeURIComponent P s.
Proof.
  intro H. unfold decode_param. rewrite (nonempty_of s H). reflexivity.
Qed.

Lemma applies_post_only (P : platform) (r : route) (req : request)
  (ps : params) :
  applies P r req = Some ps -> post_only r = true ->
  req_method req = POST
  /\ exists raw, pattern r (path req) = Some raw /\ ps = decode_params P raw.
Proof.
  unfold applies. intros H Hp. rewrite Hp in H.
  destruct (req_method req); simpl in H; try discriminate.
  split; [reflexivity|].
  destruct (pattern r (path req)) as [raw|]; [|discriminate].
  inversion H. eauto.
Qed.

Ltac routed_split := unfold routed; split; [|split].

(** a name and the piece of the path it is the decoding of *)
Ltac decoded :=
  eexists; split; [|split; [reflexivity|]]; [assumption|].

(** the action and the segment that names it *)
Ltac at_site :=
  split; [assumption|]; do 2 eexists;
  split; [|split; [reflexivity|]]; [assumption|];
  split; [eassumption|].

Lemma routed_same (P : platform) (req : request) (st st' : state) :
  same_routing st st' -> routed P req st -> routed P req st'.
Proof.
  intros (Hd & _ & _ & Hb & Hc) (J1 & J2 & J3).
  unfold routed. rewrite Hd, Hb, Hc. auto.
Qed.

Lemma log_uncaught_routing (P : platform) (m : string) (st : state) :
  same_routing st (log_uncaught P m st).
Proof. unfold same_routing; auto. Qed.

Lemma routed_dispatch (P : platform) (req : request) (t : target)
  (a : string) (st : state) :
  site P req t a -> routed P req st -> routed P req (log_dispatch t a st).
Proof.
  intros Hs (J1 & J2 & J3). routed_split; cbn; auto.
  intros t' a' Hin. apply in_app_or in Hin. destruct Hin as [Hin|[Hin|[]]].
  - auto.
  - inversion Hin; subst; exact Hs.
Qed.

Lemma invoke_routed (P : platform) (req : request) (tgt : option target)
  (a : string) (args : jsval) (st : state) :
  (forall t, tgt = Some t -> site P req t a) ->
  routed P req st ->
  routed P req (snd (invoke P tgt a args st)).
Proof.
  intros Hs J. unfold invoke, reply_not_found.
  destruct tgt as [t|]; cbn [snd].
  - pose proof (routed_dispatch P req t a st (Hs t eq_refl) J) as J'.
    repeat break_match; cbn [snd]; try exact J';
      (eapply routed_same; [apply reply_error_routing|exact J']).
  - eapply routed_same; [apply reply_error_routing|exact J].
Qed.

Lemma handler_routed (P : platform) (req : request) (r : route)
  (ps : params) (st : state) :
  applies P r req = Some ps ->
  routed P req st ->
  match handler P req r ps st with
  | Next st' | Stop _ st' => routed P req st'
  end.
Proof.
  intros Ha J.
  destruct r; cbn [handler];
    try (apply applies_post_only in Ha; [|reflexivity];
         destruct Ha as (Hm & raw & Hp & Hps); subst ps;
         cbn [decode_params p_action p_db_name p_collection_name]).
  - exact J.
  - break_match.
    + eapply routed_same; [apply reply_error_routing|exact J].
    + destruct J as (J1 & J2 & J3). routed_split; cbn; auto.
  - apply pattern_ClientAction in Hp. destruct Hp as (tail & Ht & Hs & Hn).
    rewrite (decode_param_of P _ Hn).
    match goal with
    | |- context [invoke ?Q ?t ?a ?b ?s] =>
        pose proof (invoke_routed Q req t a b s) as Hi;
        destruct (invoke Q t a b s); apply Hi; [|exact J]
    end.
    intros t E. destruct (locals_client st); inversion E; subst.
    at_site. assumption.
  - apply pattern_OpenDatabase in Hp. destruct Hp as (x & rest & Hs & Hn).
    rewrite (decode_param_of P _ Hn).
    repeat break_match;
      try (eapply routed_same; [apply log_uncaught_routing|exact J]).
    destruct J as (J1 & J2 & J3). routed_split; cbn; auto.
    intros d E; inversion E; subst. eauto 6.
  - apply pattern_DatabaseAction in Hp.
    destruct Hp as (tail & Ht & Hs & Hn & Hn').
    rewrite (decode_param_of P _ Hn').
    match goal with
    | |- context [invoke ?Q ?t ?a ?b ?s] =>
        pose proof (invoke_routed Q req t a b s) as Hi;
        destruct (invoke Q t a b s); apply Hi; [|exact J]
    end.
    intros t E. destruct (locals_database st) as [d|] eqn:Ed;
      inversion E; subst.
    destruct J as (_ & J2 & _).
    destruct (J2 d Ed) as (s1 & x & rest & Hs' & Hn1 & Hd).
    rewrite Hs in Hs'. inversion Hs'; subst.
    at_site. decoded. assumption.
  - apply pattern_OpenCollection in Hp.
    destruct Hp as (x & rest & Hs & Hn & Hn').
    rewrite (decode_param_of P _ Hn').
    destruct (locals_database st) as [d|] eqn:Ed.
    + pose proof J as (J1 & J2 & J3).
      destruct (J2 d Ed) as (s1 & x' & rest' & Hs' & Hn1 & Hd).
      rewrite Hs in Hs'. inversion Hs'; subst.
      break_match;
        [eapply routed_same; [apply log_uncaught_routing|exact J]|].
      routed_split; cbn; auto.
      intros d0 c E; inversion E; subst.
      exists (p_db_name raw), (p_collection_name raw), x, rest. auto 6.
    + eapply routed_same; [apply log_uncaught_routing|exact J].
  - apply pattern_CollectionAction in Hp.
    destruct Hp as (tail & Ht & Hs & Hn & Hn' & Hn'').
    rewrite (decode_param_of P _ Hn'').
    match goal with
    | |- context [invoke ?Q ?t ?a ?b ?s] =>
        pose proof (invoke_routed Q req t a b s) as Hi;
        destruct (invoke Q t a b s); apply Hi; [|exact J]
    end.
    intros t E. destruct (locals_collection st) as [[d c]|] eqn:Ed;
      inversion E; subst.
    destruct J as (_ & _ & J3).
    destruct (J3 d c Ed) as (s1 & s2 & x & rest & Hs' & Hn1 & Hn2 & Hd & Hc).
    rewrite Hs in Hs'. inversion Hs'; subst.
    at_site. cbn [fst snd].
    exists (p_db_name raw), (p_collection_name raw). auto 6.
  - break_match; [exact J|].
    eapply routed_same; [apply reply_error_routing|exact J].
  - break_match; [exact J|].
    eapply routed_same; [apply reply_error_routing|exact J].
Qed.

Lemma run_routes_routed (P : platform) (req : request) (rs : list route)
  (st : state) :
  routed P req st -> routed P req (snd (run_routes P req rs st)).
Proof.
  revert st. induction rs as [|r rs IH]; intros st J; cbn [run_routes].
  - exact J.
  - destruct (applies P r req) as [ps|] eqn:Ea; auto.
    pose proof (handler_routed P req r ps st Ea J) as Hh.
    destruct (handler P req r ps st) as [st'|k st']; auto.
Qed.

Lemma step_routed (P : platform) (req : request) (c : pc * state) :
  routed P req (snd c) -> routed P req (snd (step P req c)).
Proof.
  destruct c as [k st]; cbn [snd]; intro J. unfold step.
  destruct k as [|auth|action [v|m|]|action cursor|]; cbn [snd]; auto.
  - apply run_routes_routed; exact J.
  - unfold connection_settled.
    destruct (connect P auth) as [m|].
    + destruct (connection_message P m); cbn [snd].
      * eapply routed_same; [apply reply_error_routing|exact J].
      * eapply routed_same; [apply log_uncaught_routing|exact J].
    + apply run_routes_routed.
      destruct J as (J1 & J2 & J3). routed_split; cbn; auto.
  - unfold result_settled, reply_not_found.
    repeat break_match; cbn [snd]; try exact J;
      try (eapply routed_same; [apply reply_error_routing|exact J]).
    eapply routed_same; [apply reply_result_routing|exact J].
  - eapply routed_same; [apply reply_error_routing|exact J].
  - break_match; cbn [snd].
    + eapply routed_same; [apply reply_result_routing|exact J].
    + eapply routed_same; [apply reply_error_routing|exact J].
Qed.

Lemma turns_routed (P : platform) (req : request) (n : nat) (c : pc * state) :
  routed P req (snd c) -> routed P req (snd (turns P req n c)).
Proof.
  revert c. induction n as [|n IH]; intros c J; cbn [turns]; auto.
  apply IH, step_routed, J.
Qed.

Lemma fire_routing (P : platform) (c : pc * state) :
  same_routing (snd c) (snd (fire P c)).
Proof.
  unfold fire. destruct (exited (snd c)); cbn [snd].
  - apply same_routing_refl.
  - apply timeout_guard_routing.
Qed.

Lemma serve_routed (P : platform) (early : nat) (req : request) :
  routed P req (snd (serve P early req)).
Proof.
  unfold serve. apply turns_routed.
  eapply routed_same; [apply fire_routing|].
  apply turns_routed. cbn [snd].
  routed_split; cbn; try discriminate; intros; contradiction.
Qed.

(** C1 as it is stated fails at [POST /_foo/_bar/]: no unmarked segment
    comes before [_bar], so the rule gives the client, and the gateway
    looks [bar] up on the database [_foo]. *)
Lemma marked_segment_names_a_database :
  ~ (forall (P : platform) (early : nat) (req : request) t a,
        req_method req = POST ->
        ends_in_action (path req) = true ->
        In (t, a) (dispatched (snd (serve P early req))) ->
        claimed_target P (path req) = Some t).
Proof.
  intro H.
  specialize (H Sample.it 3 (Sample.post "/_foo/_bar/" (VArr []))
                (Database "_foo") "bar" eq_refl eq_refl).
  assert (E : claimed_target Sample.it "/_foo/_bar/" = Some Client)
    by reflexivity.
  cbv in H. cbv in E.
  specialize (H (or_introl eq_refl)). congruence.
Qed.

(** C1, amended: whenever an action [a] is looked up on a target, the
    request is a POST whose path ends in an action segment, the marker
    followed by a piece that decodes to [a], and the target is fixed by
    the number of path segments before that segment, whatever their
    first character: none for the client, one for the database whose
    name it decodes to, two for the collection the second decodes to in
    the database the first decodes to. *)
Theorem dispatch_target_by_depth (P : platform) (early : nat)
  (req : request) (t : target) (a : string) :
  In (t, a) (dispatched (snd (serve P early req))) ->
  req_method req = POST /\
  exists seg tail,
    seg <> "" /\ a = decodeURIComponent P seg /\
    (tail = [] \/ tail = [""]) /\
    match t with
    | Client =>
        segments (path req) = "" :: String "_" seg :: tail
    | Database d =>
        exists s1,
          s1 <> "" /\ d = decodeURIComponent P s1 /\
          segments (path req) = "" :: s1 :: String "_" seg :: tail
    | Collection d c =>
        exists s1 s2,
          s1 <> "" /\ s2 <> "" /\
          d = decodeURIComponent P s1 /\ c = decodeURIComponent P s2 /\
          segments (path req) = "" :: s1 :: s2 :: String "_" seg :: tail
    end.
Proof.
  intro Hin. destruct (serve_routed P early req) as (J & _).
  exact (J t a Hin).
Qed.

Lemma dispatch_target_by_depth_witness :
  req_method (Sample.post "/my%2Ddb/_foo/_bar/" (VArr [])) = POST /\
  exists seg tail,
    seg <> "" /\ "bar" = decodeURIComponent Sample.it seg /\
    (tail = [] \/ tail = [""]) /\
    exists s1 s2,
      s1 <> "" /\ s2 <> "" /\
      "my-db" = decodeURIComponent Sample.it s1 /\
      "_foo" = decodeURIComponent Sample.it s2 /\
      segments (path (Sample.post "/my%2Ddb/_foo/_bar/" (VArr []))) =
      "" :: s1 :: s2 :: String "_" seg :: tail.
Proof.
  apply (dispatch_target_by_depth Sample.it 3
           (Sample.post "/my%2Ddb/_foo/_bar/" (VArr []))
           (Collection "my-db" "_foo") "bar").
  left; reflexivity.
Defined.


(** The three shapes of the interface, on the sample driver. *)
Example dispatch_on_client :
  dispatched (snd (serve Sample.it 3
                     (Sample.post "/_listDatabases/" (VArr [])))) =
  [(Client, "listDatabases")].
Proof. reflexivity. Qed.

Example dispatch_on_database :
  dispatched (snd (serve Sample.it 3 (Sample.post "/mydb/_stats" (VArr [])))) =
  [(Database "mydb", "stats")].
Proof. reflexivity. Qed.

Example dispatch_on_collection :
  dispatched (snd (serve Sample.it 3
                     (Sample.post "/mydb/users/_find/" (VArr [])))) =
  [(Collection "mydb" "users", "find")].
Proof. reflexivity. Qed.

(** A fourth level is not served. *)
Example no_dispatch_below_collections :
  dispatched (snd (serve Sample.it 3
                     (Sample.post "/mydb/users/x/_find/" (VArr [])))) = []
  /\ replies (serve Sample.it 3
                (Sample.post "/mydb/users/x/_find/" (VArr []))) =
     [(404%Z, envelope "not_found" None 404)].
Proof. split; reflexivity. Qed.

(* ------------------------------------------------------------------ *)
(** ** The second turn *)

Lemma applies_post (P : platform) (r : route) (req : request) :
  req_method req = POST ->
  applies P r req = option_map (decode_params P) (pattern r (path req)).
Proof.
  intro H. unfold applies. rewrite H. destruct (post_only r); reflexivity.
Qed.

Lemma reply_error_unsent (P : platform) reason context status (st : state) :
  headersSent (res st) = false ->
  written (res (reply_error P reason context status st)) =
  [(status, envelope reason context status)].
Proof.
  intro H. unfold reply_error, error, res_json.
  replace (headersSent (res_status status (res st))) with false
    by exact (eq_sym H).
  apply headersSent_written in H.
  cbn [res written with_res res_status statusCode]. rewrite H. reflexivity.
Qed.

(** A POST request whose body passes the check is connecting after its
    first turn, and its second turn is the settling of the connection. *)
Lemma second_turn (P : platform) (req : request) :
  req_method req = POST ->
  Js.truthy (body req) && negb (Js.isArray (body req)) = false ->
  turns P req 2 (Arrived, initial) =
  connection_settled P req (extract_auth P (authorization req))
    (log_connect (extract_auth P (authorization req)) initial).
Proof.
  intros Hm Hb.
  change (turns P req 2 (Arrived, initial))
    with (step P req (step P req (Arrived, initial))).
  rewrite (arrival_post P req Hm), Hb. reflexivity.
Qed.

(** A request whose handlers are through before the timer fires. *)
Lemma finished_early (P : platform) (early : nat) (req : request)
  (n : nat) (st : state) :
  n <= S early ->
  turns P req n (Arrived, initial) = (Finished, st) ->
  serve P early req = fire P (Finished, st).
Proof.
  intros Hn Ht. unfold serve, at_deadline.
  rewrite (turns_after P req n (S early) _ Hn), Ht, turns_Finished.
  unfold fire; cbn [fst snd]. destruct (exited st); apply turns_Finished.
Qed.

Lemma finished_early_replied (P : platform) (early : nat) (req : request)
  (n : nat) (st : state) :
  n <= S early ->
  turns P req n (Arrived, initial) = (Finished, st) ->
  headersSent (res st) = true ->
  replies (serve P early req) = written (res st).
Proof.
  intros Hn Ht Hs. unfold replies.
  rewrite (finished_early P early req n st Hn Ht).
  rewrite fire_sealed by exact Hs. reflexivity.
Qed.

Lemma step_settling (P : platform) (req : request) (c : pc * state) :
  settling (fst c) = true ->
  settling (fst (step P req c)) = true
  /\ same_routing (snd c) (snd (step P req c)).
Proof.
  destruct c as [k st]; cbn [fst snd]. unfold step.
  destruct k as [|auth|action [v|m|]|action cursor|]; cbn [settling];
    try discriminate; intros _.
  - unfold result_settled, reply_not_found.
    repeat break_match; cbn [fst snd settling]; split; auto;
      try apply same_routing_refl;
      try apply reply_error_routing; apply reply_result_routing.
  - split; [reflexivity|]. apply reply_error_routing.
  - split; [reflexivity|]. apply same_routing_refl.
  - unfold reply_not_found. break_match; cbn [fst snd settling]; split; auto.
    + apply reply_result_routing.
    + apply reply_error_routing.
  - split; [reflexivity|]. apply same_routing_refl.
Qed.

Lemma same_routing_trans (a b c : state) :
  same_routing a b -> same_routing b c -> same_routing a c.
Proof.
  unfold same_routing. intros (A1 & A2 & A3 & A4 & A5) (B1 & B2 & B3 & B4 & B5).
  repeat split; congruence.
Qed.

Lemma turns_settling (P : platform) (req : request) (n : nat) (c : pc * state) :
  settling (fst c) = true ->
  settling (fst (turns P req n c)) = true
  /\ same_routing (snd c) (snd (turns P req n c)).
Proof.
  revert c. induction n as [|n IH]; intros c H; cbn [turns].
  - split; [exact H|apply same_routing_refl].
  - destruct (step_settling P req c H) as [H1 H2].
    destruct (IH _ H1) as [H3 H4]. split; [exact H3|].
    eapply same_routing_trans; eassumption.
Qed.

Lemma serve_settling (P : platform) (early : nat) (req : request) (n : nat) :
  n <= S early ->
  settling (fst (turns P req n (Arrived, initial))) = true ->
  same_routing (snd (turns P req n (Arrived, initial)))
               (snd (serve P early req)).
Proof.
  intros Hn Hs. unfold serve, at_deadline.
  rewrite (turns_after P req n (S early) _ Hn).
  destruct (turns_settling P req (S early - n) _ Hs) as [H1 H2].
  eapply same_routing_trans; [exact H2|].
  destruct (turns_settling P req 4
              (fire P (turns P req (S early - n)
                         (turns P req n (Arrived, initial)))))
    as [_ H4]; [rewrite fire_fst; exact H1|].
  eapply same_routing_trans; [|exact H4].
  apply fire_routing.
Qed.

(** The routes after the connection end in a reply or in a pending call. *)
Lemma invoke_settling (P : platform) tgt a args st :
  settling (fst (invoke P tgt a args st)) = true.
Proof. unfold invoke. repeat break_match; reflexivity. Qed.

Lemma run_routes_settling (P : platform) (req : request) (st : state) :
  settling (fst (run_routes P req after_connection st)) = true.
Proof.
  unfold after_connection. cbn [run_routes handler].
  repeat match goal with
    | |- context [invoke ?Q ?t ?a ?b ?s] =>
        let H := fresh in
        pose proof (invoke_settling Q t a b s) as H;
        destruct (invoke Q t a b s)
    | _ => break_match
    end; cbn [fst settling] in *; auto.
Qed.

Lemma invoke_dispatched (P : platform) t a args st :
  dispatched (snd (invoke P (Some t) a args st)) =
  (dispatched st ++ [(t, a)])%list.
Proof.
  unfold invoke, reply_not_found.
  repeat break_match; cbn [snd]; try reflexivity;
    match goal with
    | |- dispatched (reply_error ?Q ?r ?c ?s ?x) = _ =>
        destruct (reply_error_routing Q r c s x) as (E & _); rewrite E
    end; reflexivity.
Qed.

Lemma invoke_None_dispatched (P : platform) a args st :
  dispatched (snd (invoke P None a args st)) = dispatched st.
Proof.
  unfold invoke, reply_not_found. cbn [snd].
  destruct (reply_error_routing P "not_found"
              (Some [("message", VStr (msg_no_property P));
                     ("action", VStr a)]) 404 st) as (E & _).
  exact E.
Qed.

(** If walking the routes made the lookup of [a] on [t], it ended in the
    action handler for it, entered with the response as it was. *)
Lemma run_routes_invoked (P : platform) (req : request) (rs : list route)
  (st : state) (t : target) (a : string) :
  dispatched st = [] ->
  In (t, a) (dispatched (snd (run_routes P req rs st))) ->
  exists st0,
    run_routes P req rs st = invoke P (Some t) a (body req) st0
    /\ res st0 = res st /\ dispatched st0 = [].
Proof.
  revert st. induction rs as [|r rs IH]; intros st Hd Hin; cbn [run_routes] in *.
  - cbn [snd] in Hin. rewrite Hd in Hin. contradiction.
  - destruct (applies P r req) as [ps|]; [|auto].
    destruct r; cbn [handler] in *.
    + auto.
    + exfalso. revert Hin. break_match; cbn [snd]; intro Hin.
      * destruct (reply_error_routing P "invalid_body"
                    (Some [("message", VStr "body must be json array")])
                    400 st) as (E & _).
        rewrite E, Hd in Hin. contradiction.
      * cbn in Hin. rewrite Hd in Hin. contradiction.
    + destruct (locals_client st).
      * destruct (invoke P (Some Client) (p_action ps) (body req) st)
          as [k st'] eqn:E.
        cbn [snd] in Hin.
        replace st' with (snd (invoke P (Some Client) (p_action ps)
                                 (body req) st)) in Hin by (rewrite E; auto).
        rewrite invoke_dispatched, Hd in Hin.
        destruct Hin as [Hin|[]]. inversion Hin; subst.
        exists st. rewrite E. auto.
      * exfalso.
        destruct (invoke P None (p_action ps) (body req) st)
          as [k st'] eqn:E.
        cbn [snd] in Hin.
        replace st' with (snd (invoke P None (p_action ps)
                                 (body req) st)) in Hin by (rewrite E; auto).
        rewrite invoke_None_dispatched, Hd in Hin. contradiction.
    + destruct (locals_client st).
      * destruct (client_db P (p_db_name ps)).
        -- exfalso. cbn in Hin. rewrite Hd in Hin. contradiction.
        -- destruct (IH (with_database (p_db_name ps) st) Hd Hin)
             as (st0 & E0 & E1 & E2).
           exists st0. auto.
      * exfalso. cbn in Hin. rewrite Hd in Hin. contradiction.
    + destruct (locals_database st) as [d|]; cbn [option_map] in *.
      * destruct (invoke P (Some (Database d)) (p_action ps) (body req) st)
          as [k st'] eqn:E.
        cbn [snd] in Hin.
        replace st' with (snd (invoke P (Some (Database d)) (p_action ps)
                                 (body req) st)) in Hin by (rewrite E; auto).
        rewrite invoke_dispatched, Hd in Hin.
        destruct Hin as [Hin|[]]. inversion Hin; subst.
        exists st. rewrite E. auto.
      * exfalso.
        destruct (invoke P None (p_action ps) (body req) st)
          as [k st'] eqn:E.
        cbn [snd] in Hin.
        replace st' with (snd (invoke P None (p_action ps)
                                 (body req) st)) in Hin by (rewrite E; auto).
        rewrite invoke_None_dispatched, Hd in Hin. contradiction.
    + destruct (locals_database st) as [d|].
      * destruct (db_collection P d (p_collection_name ps)).
        -- exfalso. cbn in Hin. rewrite Hd in Hin. contradiction.
        -- destruct (IH (with_collection d (p_collection_name ps) st) Hd Hin)
             as (st0 & E0 & E1 & E2).
           exists st0. auto.
      * exfalso. cbn in Hin. rewrite Hd in Hin. contradiction.
    + destruct (locals_collection st) as [[d c]|]; cbn [option_map fst snd] in *.
      * destruct (invoke P (Some (Collection d c)) (p_action ps) (body req) st)
          as [k st'] eqn:E.
        cbn [snd] in Hin.
        replace st' with (snd (invoke P (Some (Collection d c)) (p_action ps)
                                 (body req) st)) in Hin by (rewrite E; auto).
        rewrite invoke_dispatched, Hd in Hin.
        destruct Hin as [Hin|[]]. inversion Hin; subst.
        exists st. rewrite E. auto.
      * exfalso.
        destruct (invoke P None (p_action ps) (body req) st)
          as [k st'] eqn:E.
        cbn [snd] in Hin.
        replace st' with (snd (invoke P None (p_action ps)
                                 (body req) st)) in Hin by (rewrite E; auto).
        rewrite invoke_None_dispatched, Hd in Hin. contradiction.
    + exfalso. revert Hin. break_match; cbn [snd]; intro Hin.
      * rewrite Hd in Hin. contradiction.
      * destruct (reply_error_routing P "not_found" None 404 st) as (E & _).
        rewrite E, Hd in Hin. contradiction.
    + exfalso. revert Hin. break_match; cbn [snd]; intro Hin.
      * rewrite Hd in Hin. contradiction.
      * destruct (reply_error_routing P "method_not_allowed"
                    (Some [("method", VStr (method_lower (req_method req)))])
                    405 st) as (E & _).
        rewrite E, Hd in Hin. contradiction.
Qed.

(* ------------------------------------------------------------------ *)
(** ** Failed actions *)

(** C3 as it is stated fails when the timer fires first: on the sample
    driver [drop] rejects, and with the deadline passing while the call
    is awaited the only reply is the 500 of the timeout guard. *)
Lemma late_failure_is_not_reported :
  ~ (forall (P : platform) (early : nat) (req : request) t a w m,
        In (t, a) (dispatched (snd (serve P early req))) ->
        failure P t a (body req) = Some (w, m) ->
        replies (serve P early req) =
        [(404%Z,
          envelope "not_found"
            (Some [("message", VStr m); ("action", VStr a)]) 404)]).
Proof.
  intro H.
  specialize (H Sample.it 1 (Sample.post "/mydb/users/_drop/" (VArr []))
                (Collection "mydb" "users") "drop" OnSettling "ns not found"
                (or_introl eq_refl) eq_refl).
  cbv in H. discriminate H.
Qed.

(** C3, amended: for an action looked up on any of the three targets,
    if the invocation fails (the action is not a function of the target,
    the call throws or its promise rejects, or the body cannot be
    spread) and the failure is caught before the timer of the request
    fires, the only reply is 404 [not_found], and its envelope carries
    the action name and the message of the error. *)
Theorem failed_action_not_found (P : platform) (early : nat)
  (req : request) (t : target) (a : string) (w : moment) (m : string) :
  In (t, a) (dispatched (snd (serve P early req))) ->
  failure P t a (body req) = Some (w, m) ->
  turns_to_catch w <= early ->
  replies (serve P early req) =
  [(404%Z,
    envelope "not_found"
      (Some [("message", VStr m); ("action", VStr a)]) 404)].
Proof.
  intros Hin Hf Hw.
  assert (He : 1 <= early) by (destruct w; simpl in Hw; lia).
  destruct (serve_routed P early req) as (J & _).
  destruct (J t a Hin) as (Hm & _). clear J.
  destruct (Js.truthy (body req) && negb (Js.isArray (body req))) eqn:Hb.
  { exfalso. pose proof (arrival_post P req Hm) as Hs. rewrite Hb in Hs.
    destruct (replied_on_arrival P early req _ Hs) as (_ & _ & Hd).
    - unfold headersSent. rewrite reply_error_unsent; reflexivity.
    - rewrite Hd in Hin.
      destruct (reply_error_routing P "invalid_body"
                  (Some [("message", VStr "body must be json array")])
                  400 initial) as (E & _).
      rewrite E in Hin. contradiction. }
  pose proof (second_turn P req Hm Hb) as H2.
  set (auth := extract_auth P (authorization req)) in *.
  unfold connection_settled in H2.
  destruct (connect P auth) as [cm|].
  { exfalso.
    assert (Hd : exists st, turns P req 2 (Arrived, initial) = (Finished, st)
                            /\ dispatched st = []).
    { rewrite H2. destruct (connection_message P cm).
      - eexists; split; [reflexivity|].
        destruct (reply_error_routing P "connection_failed"
                    (Some [("message", VStr a0)]) 400
                    (log_connect auth initial)) as (E & _).
        rewrite E. reflexivity.
      - eexists; split; reflexivity. }
    destruct Hd as (st & Ht & Hd).
    rewrite (finished_early P early req 2 st) in Hin by (auto; lia).
    destruct (fire_routing P (Finished, st)) as (E & _). cbn [snd] in E.
    rewrite E, Hd in Hin. contradiction. }
  (* the routes after the connection *)
  pose proof (run_routes_settling P req (with_client (log_connect auth initial)))
    as Hs.
  rewrite <- H2 in Hs.
  destruct (serve_settling P early req 2 ltac:(lia) Hs) as (Hd & _).
  rewrite Hd, H2 in Hin.
  destruct (run_routes_invoked P req after_connection
              (with_client (log_connect auth initial)) t a
              (eq_refl : dispatched (with_client (log_connect auth initial))
                         = []) Hin)
    as (st0 & E0 & E1 & E2).
  rewrite E0 in H2. clear Hin Hd Hs E0.
  assert (Hu : headersSent (res (log_dispatch t a st0)) = false).
  { cbn [res log_dispatch]. rewrite E1. reflexivity. }
  unfold invoke in H2. unfold failure in Hf.
  destruct (spread P (body req)) as [l|sm].
  - destruct (lookup P t a) as [f|].
    + destruct (f l) as [tm|[v|rm|]]; inversion Hf; subst; clear Hf.
      * rewrite (finished_early_replied P early req 2 _ ltac:(lia) H2).
        -- apply reply_error_unsent; exact Hu.
        -- unfold headersSent, reply_not_found.
           rewrite reply_error_unsent by exact Hu. reflexivity.
      * simpl in Hw.
        assert (H3 : turns P req 3 (Arrived, initial) =
                     (Finished,
                      reply_not_found P a m (log_dispatch t a st0))).
        { change (turns P req 3 (Arrived, initial))
            with (step P req (turns P req 2 (Arrived, initial))).
          rewrite H2. reflexivity. }
        rewrite (finished_early_replied P early req 3 _ ltac:(lia) H3).
        -- apply reply_error_unsent; exact Hu.
        -- unfold headersSent, reply_not_found.
           rewrite reply_error_unsent by exact Hu. reflexivity.
    + inversion Hf; subst; clear Hf.
      rewrite (finished_early_replied P early req 2 _ ltac:(lia) H2).
      * apply reply_error_unsent; exact Hu.
      * unfold headersSent, reply_not_found.
        rewrite reply_error_unsent by exact Hu. reflexivity.
  - inversion Hf; subst; clear Hf.
    rewrite (finished_early_replied P early req 2 _ ltac:(lia) H2).
    + apply reply_error_unsent; exact Hu.
    + unfold headersSent, reply_not_found.
      rewrite reply_error_unsent by exact Hu. reflexivity.
Qed.

Lemma failed_action_not_found_witness :
  replies (serve Sample.it 2 (Sample.post "/mydb/users/_drop/" (VArr []))) =
  [(404%Z,
    envelope "not_found"
      (Some [("message", VStr "ns not found"); ("action", VStr "drop")])
      404)].
Proof.
  apply (failed_action_not_found Sample.it 2
           (Sample.post "/mydb/users/_drop/" (VArr []))
           (Collection "mydb" "users") "drop" OnSettling "ns not found").
  - left; reflexivity.
  - reflexivity.
  - simpl; lia.
Defined.

(** An unknown action, on each of the three targets. *)
Example unknown_action_not_found :
  map (fun p => replies (serve Sample.it 3 (Sample.post p (VArr []))))
      ["/_nope/"; "/mydb/_nope/"; "/mydb/users/_nope/"] =
  let reply :=
    [(404%Z,
      envelope "not_found"
        (Some [("message", VStr "target[action] is not a function");
               ("action", VStr "nope")]) 404)] in
  [reply; reply; reply].
Proof. reflexivity. Qed.

(* ------------------------------------------------------------------ *)
(** ** Paths without an action segment *)

Lemma marked_action (a : string) : marked (String "_" a) = true.
Proof. unfold marked. simpl. apply prefix_nil. Qed.

Lemma unmarked_no_action (p : string) :
  (forall seg, In seg (segments p) -> marked seg = false) ->
  pattern ClientAction p = None
  /\ pattern DatabaseAction p = None
  /\ pattern CollectionAction p = None.
Proof.
  intro H.
  assert (Hno : forall a, ~ In (String "_" a) (segments p)).
  { intros a Hin. apply H in Hin. rewrite marked_action in Hin.
    discriminate. }
  repeat split.
  - destruct (pattern ClientAction p) as [ps|] eqn:E; [|reflexivity].
    apply pattern_ClientAction in E. destruct E as (tail & _ & E & _).
    exfalso. apply (Hno (p_action ps)). rewrite E. simpl; auto.
  - destruct (pattern DatabaseAction p) as [ps|] eqn:E; [|reflexivity].
    apply pattern_DatabaseAction in E. destruct E as (tail & _ & E & _).
    exfalso. apply (Hno (p_action ps)). rewrite E. simpl; auto.
  - destruct (pattern CollectionAction p) as [ps|] eqn:E; [|reflexivity].
    apply pattern_CollectionAction in E. destruct E as (tail & _ & E & _).
    exfalso. apply (Hno (p_action ps)). rewrite E. simpl; auto.
Qed.

(** [/:db_name/:collection_name/*] matches only where [/:db_name/*] does. *)
Lemma OpenCollection_OpenDatabase (p : string) (ps : params) :
  pattern OpenCollection p = Some ps -> pattern OpenDatabase p <> None.
Proof.
  unfold pattern.
  destruct (segments p) as [|e [|d [|c [|x l]]]]; try discriminate.
  destruct (nonempty e), (nonempty d), (nonempty c); simpl;
    discriminate.
Qed.

(** When none of the three action routes matches and the descent routes
    obtain their objects, the walk ends in [app.post("*")]. *)
Lemma fallback_without_action (P : platform) (req : request) (st : state) :
  req_method req = POST ->
  pattern ClientAction (path req) = None ->
  pattern DatabaseAction (path req) = None ->
  pattern CollectionAction (path req) = None ->
  objects_open P req ->
  locals_client st = true ->
  headersSent (res st) = false ->
  exists st',
    run_routes P req after_connection st = (Finished, st')
    /\ written (res st') = [(404%Z, envelope "not_found" None 404)]
    /\ dispatched st' = dispatched st.
Proof.
  intros Hm E1 E2 E3 [Hdb Hcoll] Hc Hs.
  unfold after_connection. cbn [run_routes].
  rewrite !(applies_post P _ req Hm), E1, E2, E3.
  change (pattern PostFallback (path req)) with (Some no_params).
  cbn [option_map].
  destruct (pattern OpenDatabase (path req)) as [pd|] eqn:Ed;
    cbn [option_map].
  - destruct (pattern_OpenDatabase _ _ Ed) as (x & rest & Hseg & Hn).
    cbn [handler decode_params p_db_name]. rewrite Hc.
    rewrite (decode_param_of P _ Hn), (Hdb _ _ _ Hseg Hn).
    destruct (pattern OpenCollection (path req)) as [pc|] eqn:Ec;
      cbn [option_map].
    + destruct (pattern_OpenCollection _ _ Ec)
        as (x' & rest' & Hseg' & Hn1 & Hn2).
      cbn [handler locals_database with_database decode_params
           p_collection_name].
      rewrite (decode_param_of P _ Hn2).
      assert (Hsame : p_db_name pd = p_db_name pc)
        by (rewrite Hseg in Hseg'; inversion Hseg'; reflexivity).
      rewrite Hsame, (Hcoll _ _ _ _ Hseg' Hn1 Hn2).
      cbn [res with_collection with_database]. rewrite Hs.
      eexists; split; [reflexivity|]. split.
      * apply reply_error_unsent. exact Hs.
      * match goal with
        | |- dispatched (reply_error ?Q ?r ?c ?s ?x) = _ =>
            destruct (reply_error_routing Q r c s x) as (E & _); rewrite E
        end. reflexivity.
    + cbn [handler res with_database]. rewrite Hs.
      eexists; split; [reflexivity|]. split.
      * apply reply_error_unsent. exact Hs.
      * match goal with
        | |- dispatched (reply_error ?Q ?r ?c ?s ?x) = _ =>
            destruct (reply_error_routing Q r c s x) as (E & _); rewrite E
        end. reflexivity.
  - destruct (pattern OpenCollection (path req)) as [pc|] eqn:Ec.
    + exfalso. exact (OpenCollection_OpenDatabase _ _ Ec Ed).
    + cbn [option_map handler]. rewrite Hs.
      eexists; split; [reflexivity|]. split.
      * apply reply_error_unsent. exact Hs.
      * destruct (reply_error_routing P "not_found" None 404 st) as (E & _).
        exact E.
Qed.

(** C9 as it is stated fails at [POST /mydb/users/find/] with an object
    for a body: the body is checked before the path is walked, and the
    reply is 400 [invalid_body]. *)
Lemma body_is_checked_before_the_path :
  ~ (forall (P : platform) (early : nat) (req : request),
        req_method req = POST ->
        (forall seg, In seg (segments (path req)) -> marked seg = false) ->
        replies (serve P early req) =
        [(404%Z, envelope "not_found" None 404)]).
Proof.
  intro H.
  specialize (H Sample.it 3
                (Sample.post "/mydb/users/find/"
                   (VObj "Object" [("age", VNum 21)])) eq_refl).
  assert (Hu : forall seg,
             In seg (segments "/mydb/users/find/") -> marked seg = false).
  { intros seg Hin. cbv in Hin.
    repeat (destruct Hin as [Hin|Hin]; [subst seg; reflexivity|]).
    contradiction. }
  specialize (H Hu). cbv in H. discriminate H.
Qed.

(** C9, amended: a POST request whose path has no segment prefixed with
    ['_'] is answered 404 [not_found], provided its body passes the body
    check, its connection is established before the timer fires, and
    the database and collection objects its own path names are obtained
    without an error: [client.db] accepts the decoded first piece when
    another piece follows it, and [database.collection] the decoded
    second piece when yet another follows. *)
Theorem no_action_segment_not_found (P : platform) (early : nat)
  (req : request) :
  req_method req = POST ->
  (forall seg, In seg (segments (path req)) -> marked seg = false) ->
  Js.truthy (body req) && negb (Js.isArray (body req)) = false ->
  connect P (extract_auth P (authorization req)) = None ->
  1 <= early ->
  (forall s1 x rest,
     segments (path req) = "" :: s1 :: x :: rest -> s1 <> "" ->
     client_db P (decodeURIComponent P s1) = None) ->
  (forall s1 s2 x rest,
     segments (path req) = "" :: s1 :: s2 :: x :: rest ->
     s1 <> "" -> s2 <> "" ->
     db_collection P (decodeURIComponent P s1) (decodeURIComponent P s2)
     = None) ->
  replies (serve P early req) = [(404%Z, envelope "not_found" None 404)].
Proof.
  intros Hm Hu Hb Hc He Hdb Hcoll.
  pose proof (second_turn P req Hm Hb) as H2.
  unfold connection_settled in H2. rewrite Hc in H2.
  destruct (unmarked_no_action _ Hu) as (E1 & E2 & E3).
  destruct (fallback_without_action P req
              (with_client
                 (log_connect (extract_auth P (authorization req)) initial))
              Hm E1 E2 E3 (conj Hdb Hcoll) eq_refl eq_refl)
    as (st' & Hr & Hw & _).
  rewrite Hr in H2.
  rewrite (finished_early_replied P early req 2 st' ltac:(lia) H2).
  - exact Hw.
  - unfold headersSent. rewrite Hw. reflexivity.
Qed.

Lemma no_action_segment_not_found_witness :
  replies (serve Faulty.checking_names 1
             (Sample.post "/mydb/users/find/" (VArr []))) =
  [(404%Z, envelope "not_found" None 404)].
Proof.
  apply (no_action_segment_not_found Faulty.checking_names 1
           (Sample.post "/mydb/users/find/" (VArr []))).
  - reflexivity.
  - intros seg Hin. cbv in Hin.
    repeat (destruct Hin as [Hin|Hin]; [subst seg; reflexivity|]).
    contradiction.
  - reflexivity.
  - reflexivity.
  - lia.
  - intros s1 x rest H _. cbv in H. inversion H; subst. reflexivity.
  - intros s1 s2 x rest H _ _. cbv in H. inversion H; subst. reflexivity.
Defined.

(* ------------------------------------------------------------------ *)
(** ** The lookup is made *)

Lemma action_of_marked (a : string) :
  a <> "" -> action_of (String "_" a) = Some a.
Proof. intro H. simpl. rewrite (nonempty_of a H). reflexivity. Qed.


(* ------------------------------------------------------------------ *)
(** ** Four turns are enough *)

Lemma invoke_turns_left (P : platform) tgt a args st :
  turns_left (fst (invoke P tgt a args st)) <= 2.
Proof.
  unfold invoke. repeat break_match; cbn [fst turns_left];
    repeat break_match; lia.
Qed.

Lemma handler_turns_left (P : platform) (req : request) (r : route)
  (ps : params) (st : state) :
  match handler P req r ps st with
  | Next _ => True
  | Stop k _ =>
      turns_left k <= 3 /\ (r <> OpenConnection -> turns_left k <= 2)
  end.
Proof.
  destruct r; cbn [handler];
    try match goal with
        | |- context [invoke ?Q ?t ?x ?b ?s] =>
            pose proof (invoke_turns_left Q t x b s);
            destruct (invoke Q t x b s); cbn [fst] in *;
            split; intros; lia
        end;
    repeat break_match; cbn [turns_left]; auto;
    split; intros; try lia; congruence.
Qed.

Lemma run_routes_turns_left (P : platform) (req : request) (rs : list route)
  (st : state) :
  turns_left (fst (run_routes P req rs st)) <= 3
  /\ (~ In OpenConnection rs ->
      turns_left (fst (run_routes P req rs st)) <= 2).
Proof.
  revert st. induction rs as [|r rs IH]; intro st; cbn [run_routes].
  - cbn; split; intros; lia.
  - assert (Hrest : forall st',
               turns_left (fst (run_routes P req rs st')) <= 3
               /\ (~ In OpenConnection (r :: rs) ->
                   turns_left (fst (run_routes P req rs st')) <= 2)).
    { intro st'. destruct (IH st') as [I1 I2]. split; [exact I1|].
      intro Hn. apply I2. intro. apply Hn. right; assumption. }
    destruct (applies P r req) as [ps|]; [|apply Hrest].
    pose proof (handler_turns_left P req r ps st) as Hh.
    destruct (handler P req r ps st) as [st'|k st']; [apply Hrest|].
    cbn [fst]. destruct Hh as [H1 H2]. split; [exact H1|].
    intro Hn. apply H2. intro; subst r. apply Hn. left; reflexivity.
Qed.

Lemma step_turns_left (P : platform) (req : request) (c : pc * state) :
  turns_left (fst (step P req c)) <= pred (turns_left (fst c)).
Proof.
  destruct c as [k st]; cbn [fst]. unfold step.
  destruct k as [|auth|action [v|m|]|action cursor|]; cbn [fst turns_left pred].
  - apply run_routes_turns_left.
  - unfold connection_settled.
    destruct (connect P auth) as [m|].
    + destruct (connection_message P m); cbn; lia.
    + apply run_routes_turns_left. unfold after_connection.
      cbn. intuition discriminate.
  - unfold result_settled. repeat break_match; cbn; lia.
  - lia.
  - lia.
  - break_match; cbn; lia.
  - lia.
Qed.

Lemma turns_turns_left (P : platform) (req : request) (n : nat)
  (c : pc * state) :
  turns_left (fst (turns P req n c)) <= turns_left (fst c) - n.
Proof.
  revert c. induction n as [|n IH]; intro c; cbn [turns].
  - lia.
  - pose proof (IH (step P req c)). pose proof (step_turns_left P req c). lia.
Qed.

(** X24: every request is served to the end: when [serve] returns, either the
    handlers are through, or they wait for a driver call that never
    settles. *)
Lemma serve_completes (P : platform) (early : nat) (req : request) :
  fst (serve P early req) = Finished
  \/ exists action, fst (serve P early req) = Calling action Pending.
Proof.
  assert (H : turns_left (fst (serve P early req)) = 0).
  { unfold serve.
    pose proof (turns_turns_left P req 4 (fire P (at_deadline P early req)))
      as H4.
    rewrite fire_fst in H4.
    pose proof (turns_turns_left P req (S early) (Arrived, initial)) as H0.
    unfold at_deadline in *. cbn [fst turns_left] in H0. lia. }
  destruct (fst (serve P early req)) as [|auth|action [v|m|]|action cursor|];
    cbn in H; try discriminate; eauto.
Qed.

(* ================================================================== *)
(** * Further properties of the gateway *)

(** ** Shared steps *)

Lemma body_passes_guard (req : request) :
  body_passes req = true ->
  Js.truthy (body req) && negb (Js.isArray (body req)) = false.
Proof. unfold body_passes. apply negb_true_iff. Qed.

(** With the timer firing while the connection is awaited, the rest of
    the request is the settling of the connection on a response that
    has its reply already. *)
Lemma serve_timer_first (P : platform) (req : request) :
  req_method req = POST ->
  body_passes req = true ->
  serve P 0 req =
  turns P req 3
    (connection_settled P req (extract_auth P (authorization req))
       (timeout_guard P
          (log_connect (extract_auth P (authorization req)) initial))).
Proof.
  intros Hm Hb. apply body_passes_guard in Hb.
  unfold serve, at_deadline.
  change (turns P req 1 (Arrived, initial))
    with (step P req (Arrived, initial)).
  rewrite (arrival_post P req Hm), Hb. reflexivity.
Qed.

Lemma connection_settled_settling (P : platform) (req : request) auth st :
  settling (fst (connection_settled P req auth st)) = true.
Proof.
  unfold connection_settled. destruct (connect P auth) as [m|].
  - destruct (connection_message P m); reflexivity.
  - apply run_routes_settling.
Qed.

(** The state in which the connection of a request settles, and how the
    end of the request relates to that turn. *)
Lemma serve_through_connection (P : platform) (early : nat) (req : request) :
  req_method req = POST ->
  body_passes req = true ->
  exists st,
    same_routing (log_connect (extract_auth P (authorization req)) initial) st
    /\ (1 <= early ->
        st = log_connect (extract_auth P (authorization req)) initial)
    /\ same_routing
         (snd (connection_settled P req
                 (extract_auth P (authorization req)) st))
         (snd (serve P early req)).
Proof.
  intros Hm Hb. set (auth := extract_auth P (authorization req)).
  destruct early as [|e].
  - exists (timeout_guard P (log_connect auth initial)).
    split; [apply timeout_guard_routing|]. split; [lia|].
    rewrite (serve_timer_first P req Hm Hb). fold auth.
    apply turns_settling. apply connection_settled_settling.
  - exists (log_connect auth initial).
    split; [apply same_routing_refl|]. split; [reflexivity|].
    pose proof (second_turn P req Hm (body_passes_guard req Hb)) as H2.
    fold auth in H2. rewrite <- H2.
    apply serve_settling; [lia|]. rewrite H2.
    apply connection_settled_settling.
Qed.

Lemma invoke_connects (P : platform) tgt a args st :
  connects (snd (invoke P tgt a args st)) = connects st.
Proof.
  unfold invoke, reply_not_found.
  repeat break_match; cbn [snd]; try reflexivity;
    match goal with
    | |- connects (reply_error ?Q ?r ?c ?s ?x) = _ =>
        destruct (reply_error_routing Q r c s x) as (_ & E & _); rewrite E
    end; reflexivity.
Qed.

Lemma run_routes_connects (P : platform) (req : request) (rs : list route)
  (st : state) :
  ~ In OpenConnection rs ->
  connects (snd (run_routes P req rs st)) = connects st.
Proof.
  revert st. induction rs as [|r rs IH]; intros st Hn; cbn [run_routes].
  - reflexivity.
  - assert (Hrs : ~ In OpenConnection rs) by (intro; apply Hn; right; auto).
    destruct (applies P r req) as [ps|]; [|auto].
    destruct r; cbn [handler];
      try (exfalso; apply Hn; left; reflexivity);
      try match goal with
          | |- context [invoke ?Q ?t ?x ?b ?s] =>
              pose proof (invoke_connects Q t x b s) as Hi;
              destruct (invoke Q t x b s); cbn [snd] in *; exact Hi
          end;
      repeat break_match; cbn [snd]; auto;
      try (rewrite IH by exact Hrs; reflexivity);
      match goal with
      | |- connects (reply_error ?Q ?r ?c ?s ?x) = _ =>
          destruct (reply_error_routing Q r c s x) as (_ & E & _); exact E
      end.
Qed.

Lemma connection_settled_connects (P : platform) (req : request) auth st :
  connects (snd (connection_settled P req auth st)) = connects st.
Proof.
  unfold connection_settled. destruct (connect P auth) as [m|].
  - destruct (connection_message P m); cbn [snd]; [|reflexivity].
    destruct (reply_error_routing P "connection_failed"
                (Some [("message", VStr a)]) 400 st) as (_ & E & _).
    exact E.
  - rewrite run_routes_connects; [reflexivity|].
    unfold after_connection. cbn. intuition discriminate.
Qed.

Lemma connection_settled_dispatched (P : platform) (req : request) auth st :
  dispatched st = [] ->
  length (dispatched (snd (connection_settled P req auth st))) <= 1.
Proof.
  intro Hd. unfold connection_settled. destruct (connect P auth) as [m|].
  - destruct (connection_message P m); cbn [snd].
    + destruct (reply_error_routing P "connection_failed"
                  (Some [("message", VStr a)]) 400 st) as (E & _).
      rewrite E, Hd. simpl; lia.
    + cbn. rewrite Hd. simpl; lia.
  - destruct (dispatched (snd (run_routes P req after_connection
                                 (with_client st)))) as [|[t a] l] eqn:E.
    + simpl; lia.
    + destruct (run_routes_invoked P req after_connection (with_client st)
                  t a Hd) as (st0 & E0 & _ & E2).
      { rewrite E. left; reflexivity. }
      rewrite E0, invoke_dispatched, E2 in E. inversion E. simpl; lia.
Qed.

(** What a request that is not let past the first turn leaves behind. *)
Lemma stopped_on_arrival (P : platform) (early : nat) (req : request) :
  is_post (req_method req) && body_passes req = false ->
  connects (snd (serve P early req)) = []
  /\ dispatched (snd (serve P early req)) = [].
Proof.
  intro H.
  destruct (is_post (req_method req)) eqn:Hp.
  - assert (Hm : req_method req = POST)
      by (destruct (req_method req); try discriminate; reflexivity).
    simpl in H. unfold body_passes in H. apply negb_false_iff in H.
    pose proof (arrival_post P req Hm) as Hs. rewrite H in Hs.
    destruct (replied_on_arrival P early req _ Hs) as (_ & Hc & Hd).
    + unfold headersSent. rewrite reply_error_unsent; reflexivity.
    + rewrite Hc, Hd.
      destruct (reply_error_routing P "invalid_body"
                  (Some [("message", VStr "body must be json array")])
                  400 initial) as (E1 & E2 & _).
      rewrite E1, E2. split; reflexivity.
  - assert (Hm : req_method req <> POST)
      by (intro E; rewrite E in Hp; discriminate).
    destruct (replied_on_arrival P early req _ (arrival_not_post P req Hm))
      as (_ & Hc & Hd).
    + unfold headersSent. rewrite reply_error_unsent; reflexivity.
    + rewrite Hc, Hd.
      destruct (reply_error_routing P "method_not_allowed"
                  (Some [("method", VStr (method_lower (req_method req)))])
                  405 initial) as (E1 & E2 & _).
      rewrite E1, E2. split; reflexivity.
Qed.

Lemma is_post_POST (req : request) :
  is_post (req_method req) = true -> req_method req = POST.
Proof. destruct (req_method req); try discriminate; reflexivity. Qed.

(** ** Invariants of the state *)

Section StateInvariant.

Variable P : platform.
Variable Inv : state -> Prop.

Hypothesis Inv_res : forall r st, Inv st -> Inv (with_res r st).
Hypothesis Inv_client : forall st, Inv st -> Inv (with_client st).
Hypothesis Inv_database : forall d st, Inv st -> Inv (with_database d st).
Hypothesis Inv_collection :
  forall d c st, Inv st -> Inv (with_collection d c st).
Hypothesis Inv_connect : forall auth st, Inv st -> Inv (log_connect auth st).
Hypothesis Inv_dispatch : forall t a st, Inv st -> Inv (log_dispatch t a st).
Hypothesis Inv_uncaught : forall m st, Inv st -> Inv (log_uncaught P m st).

Lemma reply_error_kept reason context status st :
  Inv st -> Inv (reply_error P reason context status st).
Proof.
  intro H. unfold reply_error.
  destruct (error P reason context status (res st)) as [r [o|m]]; auto.
Qed.

Lemma reply_result_kept action v st :
  Inv st -> Inv (reply_result P action v st).
Proof.
  intro H. unfold reply_result, reply_not_found.
  destruct (res_json P (fclone P v) (res st)); auto.
  apply reply_error_kept; exact H.
Qed.

Lemma invoke_kept tgt action args st :
  Inv st -> Inv (snd (invoke P tgt action args st)).
Proof.
  intro H. unfold invoke, reply_not_found.
  repeat break_match; cbn [snd]; auto using reply_error_kept.
Qed.

Lemma handler_kept req r ps st :
  Inv st ->
  match handler P req r ps st with
  | Next st' | Stop _ st' => Inv st'
  end.
Proof.
  intro H. destruct r; cbn [handler];
    try match goal with
        | |- context [invoke ?Q ?t ?a ?b ?s] =>
            pose proof (invoke_kept t a b s H) as Hi;
            destruct (invoke Q t a b s); exact Hi
        end;
    repeat break_match; auto using reply_error_kept.
Qed.

Lemma run_routes_kept req rs st :
  Inv st -> Inv (snd (run_routes P req rs st)).
Proof.
  revert st. induction rs as [|r rs IH]; intros st H; cbn [run_routes].
  - exact H.
  - destruct (applies P r req) as [ps|]; auto.
    pose proof (handler_kept req r ps st H) as Hh.
    destruct (handler P req r ps st) as [st'|k st']; auto.
Qed.

Lemma step_kept req c : Inv (snd c) -> Inv (snd (step P req c)).
Proof.
  destruct c as [k st]; cbn [snd]; intro H. unfold step.
  destruct k as [|auth|action [v|m|]|action cursor|]; cbn [snd]; auto.
  - apply run_routes_kept; exact H.
  - unfold connection_settled.
    destruct (connect P auth) as [m|].
    + destruct (connection_message P m); cbn [snd];
        auto using reply_error_kept.
    + apply run_routes_kept; auto.
  - unfold result_settled, reply_not_found.
    repeat break_match; cbn [snd];
      auto using reply_error_kept, reply_result_kept.
  - apply reply_error_kept; exact H.
  - unfold reply_not_found.
    break_match; cbn [snd]; auto using reply_error_kept, reply_result_kept.
Qed.

Lemma turns_kept req n c : Inv (snd c) -> Inv (snd (turns P req n c)).
Proof.
  revert c. induction n as [|n IH]; intros c H; cbn [turns]; auto.
  apply IH, step_kept, H.
Qed.

Lemma fire_kept c : Inv (snd c) -> Inv (snd (fire P c)).
Proof.
  intro H. unfold fire. destruct (exited (snd c)); [exact H|].
  cbn [snd]. unfold timeout_guard.
  destruct (headersSent (res (snd c))); auto using reply_error_kept.
Qed.

Lemma serve_kept early req : Inv initial -> Inv (snd (serve P early req)).
Proof.
  intro H. unfold serve, at_deadline.
  apply turns_kept, fire_kept, turns_kept. exact H.
Qed.

End StateInvariant.

(** ** The end of the process *)

(** What has ended stays ended. *)
Lemma exited_stays (P : platform) (req : request) (n : nat) (c : pc * state) :
  exited (snd c) = true -> exited (snd (turns P req n c)) = true.
Proof.
  apply (turns_kept P (fun st => exited st = true)); auto.
  intros m st H. cbn. rewrite H. reflexivity.
Qed.

Lemma exited_at_deadline (P : platform) (early : nat) (req : request) :
  exited (snd (at_deadline P early req)) = true ->
  exited (snd (serve P early req)) = true.
Proof.
  intro H. unfold serve, fire. rewrite H. apply exited_stays; exact H.
Qed.

(** The process ends only in the mode that throws, and only by a
    rejection that nothing handles. *)
Lemma exit_cause (P : platform) (early : nat) (req : request) :
  exited (snd (serve P early req)) = true ->
  unhandled_rejections P = ModeThrow
  /\ uncaught (snd (serve P early req)) <> [].
Proof.
  apply (serve_kept P
           (fun st => exited st = true ->
                      unhandled_rejections P = ModeThrow
                      /\ uncaught st <> [])); auto.
  - intros m st IH H. cbn in *. split.
    + destruct (unhandled_rejections P); [reflexivity|].
      rewrite orb_false_r in H. apply IH; exact H.
    + destruct (uncaught st); discriminate.
  - discriminate.
Qed.

Lemma still_running (P : platform) (early : nat) (req : request) :
  unhandled_rejections P = ModeWarn
  \/ uncaught (snd (serve P early req)) = [] ->
  exited (snd (serve P early req)) = false.
Proof.
  intro H. destruct (exited (snd (serve P early req))) eqn:E; [|reflexivity].
  destruct (exit_cause P early req E) as [Hm Hu].
  destruct H as [H|H]; congruence.
Qed.

(** A turn either ends the handling of the request or leaves the
    process as it was. *)
Lemma reply_error_exit (P : platform) reason context status st :
  headersSent (res st) = false ->
  exited (reply_error P reason context status st) = exited st.
Proof.
  intro H. unfold reply_error, error, res_json.
  replace (headersSent (res_status status (res st))) with false
    by exact (eq_sym H).
  reflexivity.
Qed.

Lemma invoke_exit (P : platform) tgt a args st :
  fst (invoke P tgt a args st) = Finished
  \/ exited (snd (invoke P tgt a args st)) = exited st.
Proof. unfold invoke. repeat break_match; cbn [fst snd]; auto. Qed.

Lemma run_routes_exit (P : platform) (req : request) (rs : list route)
  (st : state) :
  fst (run_routes P req rs st) = Finished
  \/ exited (snd (run_routes P req rs st)) = exited st.
Proof.
  revert st. induction rs as [|r rs IH]; intro st; cbn [run_routes].
  - left; reflexivity.
  - destruct (applies P r req) as [ps|]; [|apply IH].
    destruct r; cbn [handler];
      try match goal with
          | |- context [invoke ?Q ?t ?x ?b ?s] =>
              pose proof (invoke_exit Q t x b s);
              destruct (invoke Q t x b s); assumption
          end;
      repeat break_match; cbn [fst snd]; auto;
      match goal with
      | |- context [run_routes P req rs ?s] =>
          destruct (IH s) as [E|E]; [left; exact E|right; exact E]
      end.
Qed.

Lemma step_exit (P : platform) (req : request) (c : pc * state) :
  fst (step P req c) = Finished
  \/ exited (snd (step P req c)) = exited (snd c).
Proof.
  destruct c as [k st]; cbn [snd]. unfold step.
  destruct k as [|auth|action [v|m|]|action cursor|]; cbn [fst snd]; auto.
  - apply run_routes_exit.
  - unfold connection_settled. destruct (connect P auth) as [m|].
    + destruct (connection_message P m); left; reflexivity.
    + destruct (run_routes_exit P req after_connection (with_client st));
        auto.
  - unfold result_settled. repeat break_match; cbn [fst snd]; auto.
  - break_match; left; reflexivity.
Qed.

(** Once the process has ended the handling of the request is over:
    nothing is left to run. *)
Lemma exited_Finished (P : platform) (req : request) (n : nat) :
  exited (snd (turns P req n (Arrived, initial))) = true ->
  fst (turns P req n (Arrived, initial)) = Finished.
Proof.
  assert (H : forall m c,
             (exited (snd c) = true -> fst c = Finished) ->
             exited (snd (turns P req m c)) = true ->
             fst (turns P req m c) = Finished).
  { induction m as [|m IH]; intros c Hc; cbn [turns]; [exact Hc|].
    apply IH. intro Hx.
    destruct (step_exit P req c) as [E|E]; [exact E|].
    rewrite E in Hx. destruct c as [k st]. cbn [fst snd] in *.
    rewrite (Hc Hx). reflexivity. }
  apply H. discriminate.
Qed.

(** ** Connections and lookups per request *)

(** X1: a request asks for a connection exactly when it is a POST whose
    body passes the check, and then exactly once, with the credential
    taken from its header ([null] without a header); whatever the timer,
    the driver and the path do afterwards, no second connection is asked
    for. *)
Theorem one_connection_per_request (P : platform) (early : nat)
  (req : request) :
  connects (snd (serve P early req)) =
  if is_post (req_method req) && body_passes req
  then [extract_auth P (authorization req)]
  else [].
Proof.
  destruct (is_post (req_method req) && body_passes req) eqn:H.
  - apply andb_true_iff in H. destruct H as [Hp Hb].
    apply is_post_POST in Hp.
    destruct (serve_through_connection P early req Hp Hb)
      as (st & (_ & Hc & _) & _ & (_ & Hf & _)).
    rewrite Hf, connection_settled_connects, Hc. reflexivity.
  - apply (stopped_on_arrival P early req H).
Qed.

(** X2: an action is looked up at most once per request. *)
Theorem at_most_one_lookup (P : platform) (early : nat) (req : request) :
  length (dispatched (snd (serve P early req))) <= 1.
Proof.
  destruct (is_post (req_method req) && body_passes req) eqn:H.
  - apply andb_true_iff in H. destruct H as [Hp Hb].
    apply is_post_POST in Hp.
    destruct (serve_through_connection P early req Hp Hb)
      as (st & (Hd & _) & _ & (Hf & _)).
    rewrite Hf. apply connection_settled_dispatched. rewrite Hd. reflexivity.
  - destruct (stopped_on_arrival P early req H) as [_ Hd].
    rewrite Hd. simpl; lia.
Qed.

(** ** Replies *)

(** X3: every request is answered exactly once, unless an unhandled
    rejection has ended the process: where Node only warns of unhandled
    rejections, and wherever no promise of a handler is rejected
    unhandled, exactly one reply is written, whatever the method, path,
    body and header, whatever the driver does and whenever the timer
    fires. *)
Theorem every_request_answered_once (P : platform) (early : nat)
  (req : request) :
  unhandled_rejections P = ModeWarn
  \/ uncaught (snd (serve P early req)) = [] ->
  length (replies (serve P early req)) = 1.
Proof.
  intro Hr. pose proof (still_running P early req Hr) as Hx.
  destruct (headersSent (res (snd (at_deadline P early req)))) eqn:H.
  - pose proof (at_most_one_reply P early req) as Hle.
    rewrite (replied_early P early req H) in *.
    unfold headersSent in H.
    destruct (written (res (snd (at_deadline P early req))));
      [discriminate|]. simpl in *; lia.
  - rewrite (unanswered_gets_timeout P early req); [reflexivity| |exact H].
    destruct (exited (snd (at_deadline P early req))) eqn:E; [|reflexivity].
    rewrite (exited_at_deadline P early req E) in Hx. discriminate.
Qed.

Lemma every_request_answered_once_witness :
  (unhandled_rejections (Faulty.warning Faulty.checking_names) = ModeWarn
   \/ uncaught (snd (serve (Faulty.warning Faulty.checking_names) 2
                       (Sample.post "/my.db/_stats/" (VArr [])))) = [])
  /\ length (replies (serve (Faulty.warning Faulty.checking_names) 2
                        (Sample.post "/my.db/_stats/" (VArr [])))) = 1.
Proof.
  split; [left; reflexivity|].
  apply (every_request_answered_once (Faulty.warning Faulty.checking_names) 2
           (Sample.post "/my.db/_stats/" (VArr []))).
  left; reflexivity.
Defined.

(** X4: the status of a reply is 200, 400, 404, 405 or 500, and no
    other. *)
Theorem reply_statuses (P : platform) (early : nat) (req : request)
  (status : Z) (b : jsval) :
  In (status, b) (replies (serve P early req)) ->
  In status [200%Z; 400%Z; 404%Z; 405%Z; 500%Z].
Proof.
  intro Hin.
  assert (W : well_formed (res (snd (serve P early req)))).
  { apply (serve_inv P well_formed).
    - intros; apply well_formed_error; assumption.
    - intros v r r'; apply well_formed_json.
    - split; [reflexivity|]. intros s b0 []. }
  destruct W as [_ W]. destruct (W status b Hin) as [E|E].
  - subst; simpl; auto.
  - destruct E as (reason & context & Hk & _).
    unfold kinds in Hk. simpl in Hk.
    repeat (destruct Hk as [Hk|Hk]; [inversion Hk; subst; simpl; tauto|]).
    contradiction.
Qed.

Lemma reply_statuses_witness :
  In (405%Z,
      envelope "method_not_allowed" (Some [("method", VStr "delete")]) 405)
     (replies (serve Sample.it 0
                 (Sample.request_for DELETE "/mydb/" (VObj "Object" []) None)))
  /\ In 405%Z [200%Z; 400%Z; 404%Z; 405%Z; 500%Z].
Proof.
  split; [left; reflexivity|].
  apply (reply_statuses Sample.it 0
           (Sample.request_for DELETE "/mydb/" (VObj "Object" []) None) 405%Z
           (envelope "method_not_allowed"
              (Some [("method", VStr "delete")]) 405)).
  left; reflexivity.
Defined.

(** ** A refused connection *)

(** X5: when the driver refuses the connection before the timer fires
    and its message can be reported, the reply is 400
    [connection_failed] with that message, and no action is looked
    up. *)
Theorem refused_connection (P : platform) (early : nat) (req : request)
  (m message : string) :
  req_method req = POST ->
  body_passes req = true ->
  connect P (extract_auth P (authorization req)) = Some m ->
  connection_message P m = Ok message ->
  1 <= early ->
  replies (serve P early req) =
  [(400%Z,
    envelope "connection_failed" (Some [("message", VStr message)]) 400)]
  /\ dispatched (snd (serve P early req)) = [].
Proof.
  intros Hm Hb Hc Hn He.
  pose proof (second_turn P req Hm (body_passes_guard req Hb)) as H2.
  unfold connection_settled in H2. rewrite Hc, Hn in H2.
  split.
  - rewrite (finished_early_replied P early req 2 _ ltac:(lia) H2).
    + apply reply_error_unsent. reflexivity.
    + unfold headersSent. rewrite reply_error_unsent; reflexivity.
  - rewrite (finished_early P early req 2 _ ltac:(lia) H2).
    match goal with
    | |- dispatched (snd (fire P ?c)) = _ =>
        destruct (fire_routing P c) as (E & _); rewrite E
    end.
    cbn [snd].
    destruct (reply_error_routing P "connection_failed"
                (Some [("message", VStr message)]) 400
                (log_connect (extract_auth P (authorization req)) initial))
      as (E' & _).
    rewrite E'. reflexivity.
Qed.

Lemma refused_connection_witness :
  replies (serve Sample.it 1
             (Sample.request_for POST "/mydb/_stats/" (VArr [])
                (Some "Basic Z3Vlc3Q6c2VjcmV0"))) =
  [(400%Z,
    envelope "connection_failed"
      (Some [("message", VStr "authentication failed]")]) 400)]
  /\ dispatched (snd (serve Sample.it 1
                        (Sample.request_for POST "/mydb/_stats/" (VArr [])
                           (Some "Basic Z3Vlc3Q6c2VjcmV0")))) = [].
Proof.
  apply (refused_connection Sample.it 1
           (Sample.request_for POST "/mydb/_stats/" (VArr [])
              (Some "Basic Z3Vlc3Q6c2VjcmV0"))
           ("failed to connect to server [localhost:27017] " ++
            "on first connect [MongoError: Authentication failed.]")
           "authentication failed]").
  - reflexivity.
  - reflexivity.
  - reflexivity.
  - reflexivity.
  - lia.
Defined.

Lemma includes_false_split (sep s : string) :
  JsString.includes sep s = false -> JsString.split sep s = [s].
Proof.
  unfold JsString.split. induction s as [|c rest IH]; intro H.
  - reflexivity.
  - cbn [JsString.includes] in H. apply orb_false_iff in H.
    destruct H as [Hp Hi]. cbn [JsString.split_from]. rewrite Hp.
    rewrite (IH Hi). reflexivity.
Qed.

(** ** Promises that are rejected unhandled *)

Lemma timeout_guard_initial (P : platform) (st : state) :
  headersSent (res st) = false ->
  uncaught (timeout_guard P st) = uncaught st
  /\ exited (timeout_guard P st) = exited st.
Proof.
  intro H. unfold timeout_guard, reply_error, error, res_json. rewrite H.
  replace (headersSent (res_status 500 (res st))) with false
    by exact (eq_sym H).
  split; reflexivity.
Qed.

(** A request whose handler throws, uncaught, in the turn in which its
    connection settles.  The promise of the handler is rejected and
    nothing handles it.  If the timer has fired already, the 500 of the
    guard is the reply.  If not, the process ends with no reply in the
    mode that throws, and the request waits for the guard in the mode
    that warns. *)
Lemma stalled_after_connection (P : platform) (early : nat) (req : request)
  (m : string) (f : state -> state) :
  req_method req = POST ->
  body_passes req = true ->
  (forall st, connection_settled P req
                (extract_auth P (authorization req)) st =
              (Finished, log_uncaught P m (f st))) ->
  (forall st, res (f st) = res st /\ uncaught (f st) = uncaught st
              /\ dispatched (f st) = dispatched st
              /\ exited (f st) = exited st) ->
  replies (serve P early req) =
    match unhandled_rejections P, early with
    | ModeThrow, S _ => []
    | _, _ => [(500%Z, envelope "timeout" None 500)]
    end
  /\ dispatched (snd (serve P early req)) = []
  /\ uncaught (snd (serve P early req)) = [m]
  /\ exited (snd (serve P early req)) =
     ends_process (unhandled_rejections P).
Proof.
  intros Hm Hb Hs Hf.
  set (auth := extract_auth P (authorization req)) in *.
  destruct early as [|e].
  - rewrite (serve_timer_first P req Hm Hb). fold auth.
    rewrite Hs, turns_Finished. unfold replies. cbn [snd].
    destruct (Hf (timeout_guard P (log_connect auth initial)))
      as (E1 & E2 & E3 & E4).
    cbn [res uncaught dispatched exited log_uncaught].
    rewrite E1, E2, E3, E4.
    rewrite timeout_guard_unsent by reflexivity.
    destruct (timeout_guard_initial P (log_connect auth initial))
      as (G1 & G2); [reflexivity|].
    rewrite G1, G2.
    destruct (timeout_guard_routing P (log_connect auth initial)) as (E & _).
    rewrite E.
    split; [destruct (unhandled_rejections P); reflexivity|].
    repeat split; reflexivity.
  - pose proof (second_turn P req Hm (body_passes_guard req Hb)) as H2.
    fold auth in H2. rewrite Hs in H2.
    destruct (Hf (log_connect auth initial)) as (E1 & E2 & E3 & E4).
    rewrite (finished_early P (S e) req 2 _ ltac:(lia) H2).
    set (st2 := log_uncaught P m (f (log_connect auth initial))).
    assert (Hx : exited st2 = ends_process (unhandled_rejections P)).
    { unfold st2. cbn [exited log_uncaught]. rewrite E4. reflexivity. }
    assert (Hu : headersSent (res st2) = false).
    { unfold st2. cbn [res log_uncaught]. rewrite E1. reflexivity. }
    assert (Hw : written (res st2) = []).
    { apply headersSent_written; exact Hu. }
    assert (Hd : dispatched st2 = []).
    { unfold st2. cbn [dispatched log_uncaught]. rewrite E3. reflexivity. }
    assert (Hun : uncaught st2 = [m]).
    { unfold st2. cbn [uncaught log_uncaught]. rewrite E2. reflexivity. }
    unfold replies, fire. cbn [fst snd]. rewrite Hx.
    destruct (unhandled_rejections P); cbn [ends_process snd].
    + rewrite Hw, Hd, Hun, Hx. repeat split; reflexivity.
    + rewrite timeout_guard_unsent by exact Hu.
      destruct (timeout_guard_initial P _ Hu) as (G1 & G2).
      rewrite G1, G2, Hun, Hx.
      destruct (timeout_guard_routing P st2) as (E & _).
      rewrite E, Hd. repeat split; reflexivity.
Qed.

(** X6: a refusal whose message mentions [MongoError] without the text
    ["[MongoError: "] makes the [catch] block itself throw.  No action
    is looked up, and the promise of the handler is rejected with
    nothing to handle it.  Where Node ends the process at an unhandled
    rejection, a refusal that comes before the timer fires leaves the
    request without any reply; in every other case (Node only warns, or
    the timer has fired already) the only reply is the 500 of the
    timeout guard. *)
Theorem unreadable_refusal_is_unhandled (P : platform) (early : nat)
  (req : request) (m : string) :
  req_method req = POST ->
  body_passes req = true ->
  connect P (extract_auth P (authorization req)) = Some m ->
  JsString.includes "MongoError" m = true ->
  JsString.includes "[MongoError: " m = false ->
  replies (serve P early req) =
    match unhandled_rejections P, early with
    | ModeThrow, S _ => []
    | _, _ => [(500%Z, envelope "timeout" None 500)]
    end
  /\ dispatched (snd (serve P early req)) = []
  /\ uncaught (snd (serve P early req)) = [msg_no_property P]
  /\ exited (snd (serve P early req)) =
     ends_process (unhandled_rejections P).
Proof.
  intros Hm Hb Hc Hi Hn.
  assert (Hcm : connection_message P m = Throw (msg_no_property P)).
  { unfold connection_message. rewrite Hi.
    rewrite (includes_false_split _ _ Hn). reflexivity. }
  apply (stalled_after_connection P early req (msg_no_property P)
           (fun st => st) Hm Hb).
  - intro st. unfold connection_settled. rewrite Hc, Hcm. reflexivity.
  - intro st. repeat split; reflexivity.
Qed.

Lemma unreadable_refusal_is_unhandled_witness :
  replies (serve (Faulty.refusing "MongoError: bad auth") 2
             (Sample.post "/mydb/_stats/" (VArr []))) = []
  /\ dispatched (snd (serve (Faulty.refusing "MongoError: bad auth") 2
                        (Sample.post "/mydb/_stats/" (VArr [])))) = []
  /\ uncaught (snd (serve (Faulty.refusing "MongoError: bad auth") 2
                      (Sample.post "/mydb/_stats/" (VArr [])))) =
     [msg_no_property (Faulty.refusing "MongoError: bad auth")]
  /\ exited (snd (serve (Faulty.refusing "MongoError: bad auth") 2
                    (Sample.post "/mydb/_stats/" (VArr [])))) = true.
Proof.
  apply (unreadable_refusal_is_unhandled
           (Faulty.refusing "MongoError: bad auth")
           2 (Sample.post "/mydb/_stats/" (VArr [])) "MongoError: bad auth");
    reflexivity.
Defined.

(** The same refusal under a Node that only warns: the guard answers. *)
Example unreadable_refusal_with_warning :
  replies (serve (Faulty.warning (Faulty.refusing "MongoError: bad auth")) 2
             (Sample.post "/mydb/_stats/" (VArr []))) =
  [(500%Z, envelope "timeout" None 500)].
Proof. reflexivity. Qed.

(** ** From the path to the invocation *)

(** On a path of one of the three shapes, with the objects of the
    target obtained, the routes after the connection end in the action
    handler of the target the path names, entered with the response as
    it was. *)
Lemma routes_reach_invoke (P : platform) (req : request) (t : target)
  (a : string) (st : state) :
  site P req t a ->
  opens P t ->
  locals_client st = true ->
  exists st0,
    run_routes P req after_connection st = invoke P (Some t) a (body req) st0
    /\ res st0 = res st /\ dispatched st0 = dispatched st
    /\ exited st0 = exited st.
Proof.
  intros (Hm & seg & tail & Hseg & Ha & Ht & Hsite) Ho Hcl.
  unfold after_connection. cbn [run_routes].
  rewrite !(applies_post P _ req Hm).
  pose proof (action_of_marked seg Hseg) as Hact.
  destruct t as [|d|d c].
  - assert (E : pattern ClientAction (path req) =
                Some {| p_db_name := ""; p_collection_name := "";
                        p_action := seg |}).
    { unfold pattern. rewrite Hsite.
      destruct Ht; subst tail; cbn [nonempty String.eqb negb];
        rewrite Hact; reflexivity. }
    rewrite E. cbn [option_map handler decode_params p_action].
    rewrite (decode_param_of P seg Hseg), <- Ha, Hcl.
    destruct (invoke P (Some Client) a (body req) st) eqn:Ei.
    exists st. rewrite <- Ei. auto.
  - destruct Hsite as (s1 & Hs1 & Hd & Hsite).
    pose proof (nonempty_of s1 Hs1) as Hnd.
    assert (E1 : pattern ClientAction (path req) = None).
    { unfold pattern. rewrite Hsite.
      destruct Ht; subst tail; reflexivity. }
    assert (E2 : pattern OpenDatabase (path req) =
                 Some {| p_db_name := s1; p_collection_name := "";
                         p_action := "" |}).
    { unfold pattern. rewrite Hsite.
      cbn [nonempty String.eqb negb andb]. fold (nonempty s1).
      rewrite Hnd. reflexivity. }
    assert (E3 : pattern DatabaseAction (path req) =
                 Some {| p_db_name := s1; p_collection_name := "";
                         p_action := seg |}).
    { unfold pattern. rewrite Hsite.
      destruct Ht; subst tail;
        cbn [nonempty String.eqb negb andb]; fold (nonempty s1);
        rewrite Hnd, Hact; reflexivity. }
    rewrite E1, E2, E3.
    cbn [option_map handler decode_params p_action p_db_name].
    rewrite (decode_param_of P seg Hseg), (decode_param_of P s1 Hs1).
    rewrite <- Ha, <- Hd, Hcl. cbn [opens] in Ho. rewrite Ho.
    cbn [locals_database with_database option_map].
    match goal with
    | |- context [invoke ?Q ?x ?y ?b ?s] =>
        destruct (invoke Q x y b s) eqn:Ei; exists s; rewrite <- Ei; auto
    end.
  - destruct Hsite as (s1 & s2 & Hs1 & Hs2 & Hd & Hcn & Hsite).
    pose proof (nonempty_of s1 Hs1) as Hnd.
    pose proof (nonempty_of s2 Hs2) as Hnc.
    assert (E1 : pattern ClientAction (path req) = None).
    { unfold pattern. rewrite Hsite.
      destruct Ht; subst tail; destruct s2; reflexivity. }
    assert (E2 : pattern OpenDatabase (path req) =
                 Some {| p_db_name := s1; p_collection_name := "";
                         p_action := "" |}).
    { unfold pattern. rewrite Hsite.
      cbn [nonempty String.eqb negb andb]. fold (nonempty s1).
      rewrite Hnd. reflexivity. }
    assert (E3 : pattern DatabaseAction (path req) = None).
    { unfold pattern. rewrite Hsite.
      destruct Ht; subst tail; reflexivity. }
    assert (E4 : pattern OpenCollection (path req) =
                 Some {| p_db_name := s1; p_collection_name := s2;
                         p_action := "" |}).
    { unfold pattern. rewrite Hsite.
      cbn [nonempty String.eqb negb andb].
      fold (nonempty s1). fold (nonempty s2).
      rewrite Hnd, Hnc. reflexivity. }
    assert (E5 : pattern CollectionAction (path req) =
                 Some {| p_db_name := s1; p_collection_name := s2;
                         p_action := seg |}).
    { unfold pattern. rewrite Hsite.
      destruct Ht; subst tail;
        cbn [nonempty String.eqb negb andb];
        fold (nonempty s1); fold (nonempty s2);
        rewrite Hnd, Hnc, Hact; reflexivity. }
    rewrite E1, E2, E3, E4, E5.
    cbn [option_map handler decode_params p_action p_db_name
         p_collection_name].
    rewrite (decode_param_of P seg Hseg), (decode_param_of P s1 Hs1),
      (decode_param_of P s2 Hs2).
    rewrite <- Ha, <- Hd, <- Hcn, Hcl.
    cbn [opens] in Ho. destruct Ho as [Ho1 Ho2]. rewrite Ho1.
    cbn [locals_database with_database]. rewrite Ho2.
    cbn [locals_collection with_collection option_map fst snd].
    match goal with
    | |- context [invoke ?Q ?x ?y ?b ?s] =>
        destruct (invoke Q x y b s) eqn:Ei; exists s; rewrite <- Ei; auto
    end.
Qed.

(** The second turn of such a request, when the connection is
    established before the timer fires, is the invocation, on a
    response that is not answered yet. *)
Lemma second_turn_invokes (P : platform) (req : request) (t : target)
  (a : string) :
  site P req t a ->
  opens P t ->
  body_passes req = true ->
  connect P (extract_auth P (authorization req)) = None ->
  exists st0,
    turns P req 2 (Arrived, initial) = invoke P (Some t) a (body req) st0
    /\ res st0 = res initial /\ dispatched st0 = []
    /\ exited st0 = false.
Proof.
  intros Hs Ho Hb Hc. pose proof Hs as (Hm & _).
  rewrite (second_turn P req Hm (body_passes_guard req Hb)).
  unfold connection_settled. rewrite Hc.
  apply (routes_reach_invoke P req t a
           (with_client
              (log_connect (extract_auth P (authorization req)) initial))
           Hs Ho).
  reflexivity.
Qed.

Lemma turns_pending (P : platform) (req : request) (n : nat) a st :
  turns P req n (Calling a Pending, st) = (Calling a Pending, st).
Proof. induction n as [|n IH]; simpl; auto. Qed.

Lemma reply_not_found_unsent (P : platform) (a m : string) (st : state) :
  headersSent (res st) = false ->
  written (res (reply_not_found P a m st)) =
  [(404%Z,
    envelope "not_found"
      (Some [("message", VStr m); ("action", VStr a)]) 404)].
Proof. intro H. apply reply_error_unsent; exact H. Qed.

(** The first turn of a POST whose body passes the check leaves the
    request connecting, unanswered, in a process that runs. *)
Lemma connecting_at_first (P : platform) (req : request) :
  req_method req = POST ->
  body_passes req = true ->
  exited (snd (at_deadline P 0 req)) = false
  /\ headersSent (res (snd (at_deadline P 0 req))) = false.
Proof.
  intros Hm Hb. unfold at_deadline.
  change (turns P req 1 (Arrived, initial))
    with (step P req (Arrived, initial)).
  rewrite (arrival_post P req Hm), (body_passes_guard req Hb).
  split; reflexivity.
Qed.

(** X7: the timeout does not cancel the request.  When the timer fires
    while the connection is awaited, the client gets 500 [timeout], and
    once the connection is established the action is looked up all the
    same, on the target the path names (its pieces decoded), provided
    the objects of that target are obtained. *)
Theorem timeout_does_not_cancel (P : platform) (req : request)
  (t : target) (a : string) :
  site P req t a ->
  opens P t ->
  body_passes req = true ->
  connect P (extract_auth P (authorization req)) = None ->
  replies (serve P 0 req) = [(500%Z, envelope "timeout" None 500)]
  /\ dispatched (snd (serve P 0 req)) = [(t, a)].
Proof.
  intros Hs Ho Hb Hc. pose proof Hs as (Hm & _).
  split.
  - destruct (connecting_at_first P req Hm Hb) as [Hx Hu].
    apply unanswered_gets_timeout; assumption.
  - rewrite (serve_timer_first P req Hm Hb).
    unfold connection_settled. rewrite Hc.
    set (st := with_client
                 (timeout_guard P
                    (log_connect (extract_auth P (authorization req))
                       initial))).
    destruct (routes_reach_invoke P req t a st Hs Ho)
      as (st0 & E0 & _ & E2 & _); [reflexivity|].
    rewrite E0.
    destruct (turns_settling P req 3 (invoke P (Some t) a (body req) st0)
                (invoke_settling P _ _ _ _)) as (_ & (E & _)).
    rewrite E, invoke_dispatched, E2. unfold st. cbn [dispatched with_client].
    destruct (timeout_guard_routing P
                (log_connect (extract_auth P (authorization req)) initial))
      as (E' & _).
    rewrite E'. reflexivity.
Qed.

Lemma timeout_does_not_cancel_witness :
  replies (serve Faulty.checking_names 0
             (Sample.post "/my%2Ddb/users/_drop/" (VArr []))) =
  [(500%Z, envelope "timeout" None 500)]
  /\ dispatched (snd (serve Faulty.checking_names 0
                        (Sample.post "/my%2Ddb/users/_drop/" (VArr [])))) =
     [(Collection "my-db" "users", "drop")].
Proof.
  apply (timeout_does_not_cancel Faulty.checking_names
           (Sample.post "/my%2Ddb/users/_drop/" (VArr []))
           (Collection "my-db" "users") "drop").
  - split; [reflexivity|]. exists "drop", [""].
    split; [discriminate|]. split; [reflexivity|].
    split; [right; reflexivity|].
    exists "my%2Ddb", "users".
    repeat (split; [first [discriminate | reflexivity]|]). reflexivity.
  - split; reflexivity.
  - reflexivity.
  - reflexivity.
Defined.

(** ** What the invocation comes to *)

Lemma resolved_call_finishes (P : platform) (req : request) (a : string)
  (v : jsval) (st : state) :
  fst (turns P req 2 (Calling a (Resolves v), st)) = Finished.
Proof.
  change (turns P req 2 (Calling a (Resolves v), st))
    with (step P req (result_settled P a v st)).
  unfold result_settled.
  destruct (constructor_name P v) as [name|m]; [|reflexivity].
  destruct (named_Cursor name); [|reflexivity].
  destruct v; try reflexivity.
  unfold step. destruct (toArray P _); reflexivity.
Qed.

(** A call that resolves with [v]: after four turns the handlers are
    through and, with no timer in between, the reply is [parse] of
    [v]. *)
Lemma fourth_turn (P : platform) (req : request) (t : target) (a : string)
  (l : list jsval) (f : list jsval -> invocation) (v : jsval) :
  site P req t a ->
  opens P t ->
  body_passes req = true ->
  connect P (extract_auth P (authorization req)) = None ->
  spread P (body req) = Ok l ->
  lookup P t a = Some f ->
  f l = Returns (Resolves v) ->
  exists st,
    turns P req 4 (Arrived, initial) = (Finished, st)
    /\ written (res st) =
       match parse P v with
       | Ok w => [(200%Z, w)]
       | Throw m =>
           [(404%Z,
             envelope "not_found"
               (Some [("message", VStr m); ("action", VStr a)]) 404)]
       end.
Proof.
  intros Hs Ho Hb Hc Hsp Hl Hf.
  destruct (second_turn_invokes P req t a Hs Ho Hb Hc)
    as (st0 & E0 & E1 & _).
  unfold invoke in E0. rewrite Hsp, Hl, Hf in E0.
  rewrite (turns_add P req 2 2), E0.
  pose proof (resolved_call_finishes P req a v (log_dispatch t a st0)) as Hk.
  pose proof (result_settled_parse P req a v (log_dispatch t a st0)) as Hw.
  destruct (turns P req 2 (Calling a (Resolves v), log_dispatch t a st0))
    as [k st]. cbn [fst snd] in *. subst k.
  exists st. split; [reflexivity|].
  rewrite Hw.
  - cbn [res log_dispatch]. rewrite E1. reflexivity.
  - cbn [res log_dispatch]. rewrite E1. reflexivity.
Qed.

(** Handlers that are through when the timer is due were through at
    any turn at which they are seen to be. *)
Lemma through_at_deadline (P : platform) (early : nat) (req : request)
  (n : nat) (st : state) :
  fst (at_deadline P early req) = Finished ->
  turns P req n (Arrived, initial) = (Finished, st) ->
  at_deadline P early req = (Finished, st).
Proof.
  unfold at_deadline. intros Hd Hn.
  destruct (Nat.le_gt_cases n (S early)) as [Hle|Hgt].
  - rewrite (turns_after P req n (S early) _ Hle), Hn. apply turns_Finished.
  - rewrite (turns_after P req (S early) n _ ltac:(lia)) in Hn.
    destruct (turns P req (S early) (Arrived, initial)) as [k st'].
    cbn [fst] in Hd. subst k. rewrite turns_Finished in Hn. exact Hn.
Qed.

(** X8: when the call of an action resolves and the handlers are through
    before the timer fires, the reply is what [parse] makes of the
    result: 200 with the value [parse] returns, or 404 [not_found] with
    the message of the error [parse] throws. *)
Theorem resolved_call_reply (P : platform) (early : nat) (req : request)
  (t : target) (a : string) (l : list jsval)
  (f : list jsval -> invocation) (v : jsval) :
  site P req t a ->
  opens P t ->
  body_passes req = true ->
  connect P (extract_auth P (authorization req)) = None ->
  spread P (body req) = Ok l ->
  lookup P t a = Some f ->
  f l = Returns (Resolves v) ->
  fst (at_deadline P early req) = Finished ->
  replies (serve P early req) =
  match parse P v with
  | Ok w => [(200%Z, w)]
  | Throw m =>
      [(404%Z,
        envelope "not_found"
          (Some [("message", VStr m); ("action", VStr a)]) 404)]
  end.
Proof.
  intros Hs Ho Hb Hc Hsp Hl Hf He.
  destruct (fourth_turn P req t a l f v Hs Ho Hb Hc Hsp Hl Hf)
    as (st & Ht & Hw).
  pose proof (through_at_deadline P early req 4 st He Ht) as Hd.
  assert (Hsent : headersSent (res st) = true).
  { unfold headersSent. rewrite Hw. destruct (parse P v); reflexivity. }
  rewrite (replied_early P early req); rewrite Hd; cbn [snd]; assumption.
Qed.

Lemma resolved_call_reply_witness :
  replies (serve Faulty.checking_names 2
             (Sample.post "/my%2Ddb/_stats/" (VArr []))) =
  match parse Faulty.checking_names (VObj "Object" [("ok", VNum 1)]) with
  | Ok w => [(200%Z, w)]
  | Throw m =>
      [(404%Z,
        envelope "not_found"
          (Some [("message", VStr m); ("action", VStr "stats")]) 404)]
  end.
Proof.
  apply (resolved_call_reply Faulty.checking_names 2
           (Sample.post "/my%2Ddb/_stats/" (VArr []))
           (Database "my-db") "stats" []
           (fun _ => Returns (Resolves (VObj "Object" [("ok", VNum 1)])))).
  - split; [reflexivity|]. exists "stats", [""].
    split; [discriminate|]. split; [reflexivity|].
    split; [right; reflexivity|].
    exists "my%2Ddb".
    repeat (split; [first [discriminate | reflexivity]|]). reflexivity.
  - reflexivity.
  - reflexivity.
  - reflexivity.
  - reflexivity.
  - reflexivity.
  - reflexivity.
  - reflexivity.
Defined.

(** X9: a result that is a cursor of class [Cursor] is drained before
    the reply: the body of the 200 is the clone of the array of all its
    documents, in their order; and when [toArray()] rejects, the reply
    is 404 [not_found] with the message of the rejection. *)
Theorem Cursor_is_drained (P : platform) (early : nat) (req : request)
  (t : target) (a : string) (l : list jsval)
  (f : list jsval -> invocation)
  (fields : list (string * jsval)) (docs : list jsval)
  (failure : option string) :
  site P req t a ->
  opens P t ->
  body_passes req = true ->
  connect P (extract_auth P (authorization req)) = None ->
  spread P (body req) = Ok l ->
  lookup P t a = Some f ->
  f l = Returns (Resolves (VCursor "Cursor" fields docs failure)) ->
  Js.own "constructor" fields = None ->
  3 <= early ->
  replies (serve P early req) =
  match failure with
  | None => [(200%Z, fclone P (VArr docs))]
  | Some m =>
      [(404%Z,
        envelope "not_found"
          (Some [("message", VStr m); ("action", VStr a)]) 404)]
  end.
Proof.
  intros Hs Ho Hb Hc Hsp Hl Hf Hown He.
  destruct (fourth_turn P req t a l f _ Hs Ho Hb Hc Hsp Hl Hf)
    as (st & Ht & Hw).
  assert (Hp : parse P (VCursor "Cursor" fields docs failure) =
               match failure with
               | None => Ok (fclone P (VArr docs))
               | Some m => Throw m
               end).
  { unfold parse, constructor_name. rewrite Hown. cbn.
    destruct failure; reflexivity. }
  rewrite Hp in Hw.
  rewrite (finished_early_replied P early req 4 st ltac:(lia) Ht).
  - rewrite Hw. destruct failure; reflexivity.
  - unfold headersSent. rewrite Hw. destruct failure; reflexivity.
Qed.

Lemma Cursor_is_drained_witness :
  replies (serve Faulty.checking_names 3
             (Sample.post "/mydb/users/_find/" (VArr [VObj "Object" []]))) =
  [(200%Z, fclone Faulty.checking_names (VArr [Sample.alice; Sample.bob]))].
Proof.
  apply (Cursor_is_drained Faulty.checking_names 3
           (Sample.post "/mydb/users/_find/" (VArr [VObj "Object" []]))
           (Collection "mydb" "users") "find" [VObj "Object" []]
           (fun _ => Returns (Resolves
              (VCursor "Cursor" [("cmd", VStr "find")]
                 [Sample.alice; Sample.bob] None)))
           [("cmd", VStr "find")] [Sample.alice; Sample.bob] None).
  - split; [reflexivity|]. exists "find", [""].
    split; [discriminate|]. split; [reflexivity|].
    split; [right; reflexivity|].
    exists "mydb", "users".
    repeat (split; [first [discriminate | reflexivity]|]). reflexivity.
  - split; reflexivity.
  - reflexivity.
  - reflexivity.
  - reflexivity.
  - reflexivity.
  - reflexivity.
  - reflexivity.
  - lia.
Defined.

(** X10: a call that never settles is answered by the timeout guard
    alone, whenever the timer fires: the only reply is 500 [timeout]. *)
Theorem pending_call_times_out (P : platform) (early : nat) (req : request)
  (t : target) (a : string) (l : list jsval)
  (f : list jsval -> invocation) :
  site P req t a ->
  opens P t ->
  body_passes req = true ->
  connect P (extract_auth P (authorization req)) = None ->
  spread P (body req) = Ok l ->
  lookup P t a = Some f ->
  f l = Returns Pending ->
  replies (serve P early req) = [(500%Z, envelope "timeout" None 500)].
Proof.
  intros Hs Ho Hb Hc Hsp Hl Hf. pose proof Hs as (Hm & _).
  destruct early as [|e].
  - destruct (connecting_at_first P req Hm Hb) as [Hx Hu].
    apply unanswered_gets_timeout; assumption.
  - destruct (second_turn_invokes P req t a Hs Ho Hb Hc)
      as (st0 & E0 & E1 & _ & E2).
    unfold invoke in E0. rewrite Hsp, Hl, Hf in E0.
    apply unanswered_gets_timeout; unfold at_deadline;
      rewrite (turns_after P req 2 (S (S e)) _ ltac:(lia)), E0, turns_pending;
      cbn [snd res exited log_dispatch].
    + exact E2.
    + rewrite E1. reflexivity.
Qed.

Lemma pending_call_times_out_witness :
  replies (serve Faulty.checking_names 3
             (Sample.post "/mydb/users/_watch/" (VArr []))) =
  [(500%Z, envelope "timeout" None 500)].
Proof.
  apply (pending_call_times_out Faulty.checking_names 3
           (Sample.post "/mydb/users/_watch/" (VArr []))
           (Collection "mydb" "users") "watch" [] (fun _ => Returns Pending)).
  - split; [reflexivity|]. exists "watch", [""].
    split; [discriminate|]. split; [reflexivity|].
    split; [right; reflexivity|].
    exists "mydb", "users".
    repeat (split; [first [discriminate | reflexivity]|]). reflexivity.
  - split; reflexivity.
  - reflexivity.
  - reflexivity.
  - reflexivity.
  - reflexivity.
  - reflexivity.
Defined.

(** X12, the converse of the rule of dispatch: on a path of one of the
    three shapes, with a body that passes the check, a connection
    established before the timer fires and the objects of the target
    obtained, the action is looked up, once, on the target of that
    depth, under the names the pieces of the path decode to. *)
Theorem dispatch_reached (P : platform) (early : nat) (req : request)
  (t : target) (a : string) :
  site P req t a ->
  opens P t ->
  body_passes req = true ->
  connect P (extract_auth P (authorization req)) = None ->
  1 <= early ->
  dispatched (snd (serve P early req)) = [(t, a)].
Proof.
  intros Hs Ho Hb Hc He.
  destruct (second_turn_invokes P req t a Hs Ho Hb Hc)
    as (st0 & E0 & _ & Hd0 & _).
  assert (Hst : settling (fst (turns P req 2 (Arrived, initial))) = true).
  { rewrite E0. apply invoke_settling. }
  destruct (serve_settling P early req 2 ltac:(lia) Hst) as (Hd & _).
  rewrite Hd, E0, invoke_dispatched, Hd0. reflexivity.
Qed.

Lemma dispatch_reached_witness :
  dispatched (snd (serve Faulty.checking_names 1
                     (Sample.post "/my%2Ddb/_stats/" (VArr [])))) =
  [(Database "my-db", "stats")].
Proof.
  apply (dispatch_reached Faulty.checking_names 1
           (Sample.post "/my%2Ddb/_stats/" (VArr []))
           (Database "my-db") "stats").
  - split; [reflexivity|]. exists "stats", [""].
    split; [discriminate|]. split; [reflexivity|].
    split; [right; reflexivity|].
    exists "my%2Ddb".
    repeat (split; [first [discriminate | reflexivity]|]). reflexivity.
  - reflexivity.
  - reflexivity.
  - reflexivity.
  - lia.
Defined.

(** ** Objects that do not open *)

(** X13: when [client.db(name)] throws (the driver rejects the name the
    first piece of the path decodes to), nothing catches the error and
    [next()] is never called: no action is looked up and the promise of
    the handler is rejected unhandled.  Where Node ends the process at
    an unhandled rejection and the connection was established before
    the timer fired, the request gets no reply at all; in every other
    case the only reply is the 500 of the timeout guard. *)
Theorem database_error_is_unhandled (P : platform) (early : nat)
  (req : request) (s1 x : string) (rest : list string) (m : string) :
  req_method req = POST ->
  body_passes req = true ->
  connect P (extract_auth P (authorization req)) = None ->
  segments (path req) = "" :: s1 :: x :: rest ->
  s1 <> "" ->
  (x = "" -> rest = [] -> action_of s1 = None) ->
  client_db P (decodeURIComponent P s1) = Some m ->
  replies (serve P early req) =
    match unhandled_rejections P, early with
    | ModeThrow, S _ => []
    | _, _ => [(500%Z, envelope "timeout" None 500)]
    end
  /\ dispatched (snd (serve P early req)) = []
  /\ uncaught (snd (serve P early req)) = [m]
  /\ exited (snd (serve P early req)) =
     ends_process (unhandled_rejections P).
Proof.
  intros Hm Hb Hc Hseg Hd Hend Hdb.
  apply (stalled_after_connection P early req m with_client Hm Hb).
  - intro st. unfold connection_settled. rewrite Hc.
    unfold after_connection. cbn [run_routes].
    rewrite !(applies_post P _ req Hm).
    assert (E1 : pattern ClientAction (path req) = None).
    { destruct (pattern ClientAction (path req)) as [ps|] eqn:E;
        [|reflexivity].
      apply pattern_ClientAction in E. destruct E as (tail & Ht & E & Hn).
      rewrite Hseg in E. exfalso.
      assert (Ha : action_of s1 = None).
      { destruct Ht; subst tail; inversion E; subst; auto; discriminate. }
      inversion E; subst. rewrite (action_of_marked _ Hn) in Ha.
      discriminate. }
    assert (E2 : pattern OpenDatabase (path req) =
                 Some {| p_db_name := s1; p_collection_name := "";
                         p_action := "" |}).
    { unfold pattern. rewrite Hseg.
      cbn [nonempty String.eqb negb andb]. fold (nonempty s1).
      rewrite (nonempty_of s1 Hd). reflexivity. }
    rewrite E1, E2.
    cbn [option_map handler decode_params p_db_name locals_client
         with_client].
    rewrite (decode_param_of P s1 Hd), Hdb. reflexivity.
  - intro st. repeat split; reflexivity.
Qed.

Lemma database_error_is_unhandled_witness :
  replies (serve Faulty.checking_names 2
             (Sample.post "/my.db/_stats/" (VArr []))) = []
  /\ dispatched (snd (serve Faulty.checking_names 2
                        (Sample.post "/my.db/_stats/" (VArr [])))) = []
  /\ uncaught (snd (serve Faulty.checking_names 2
                      (Sample.post "/my.db/_stats/" (VArr [])))) =
     ["database names cannot contain the character '.'"]
  /\ exited (snd (serve Faulty.checking_names 2
                    (Sample.post "/my.db/_stats/" (VArr [])))) = true.
Proof.
  apply (database_error_is_unhandled Faulty.checking_names 2
           (Sample.post "/my.db/_stats/" (VArr []))
           "my.db" "_stats" [""]).
  - reflexivity.
  - reflexivity.
  - reflexivity.
  - reflexivity.
  - discriminate.
  - discriminate.
  - reflexivity.
Defined.

(** The name [client.db] checks is the decoded one: the piece [my%20db]
    holds no character the driver refuses, the name it stands for
    does. *)
Example decoded_name_is_checked :
  uncaught (snd (serve Faulty.checking_names 2
                   (Sample.post "/my%20db/_stats/" (VArr [])))) =
  ["database names cannot contain the character ' '"].
Proof. reflexivity. Qed.

(** A name that is itself marked, before a further piece: [client.db]
    is called with it all the same. *)
Example marked_database_error :
  uncaught (snd (serve Faulty.checking_names 2
                   (Sample.post "/_my.db/users/_find/" (VArr [])))) =
  ["database names cannot contain the character '.'"].
Proof. reflexivity. Qed.

(** X14: likewise when [database.collection(name)] throws on the name
    the second piece of the path decodes to: no action is looked up,
    the rejection is unhandled, and the request gets no reply at all
    where Node ends the process and the connection was established
    before the timer fired, the 500 of the timeout guard otherwise. *)
Theorem collection_error_is_unhandled (P : platform) (early : nat)
  (req : request) (s1 s2 x : string) (rest : list string) (m : string) :
  req_method req = POST ->
  body_passes req = true ->
  connect P (extract_auth P (authorization req)) = None ->
  segments (path req) = "" :: s1 :: s2 :: x :: rest ->
  s1 <> "" -> s2 <> "" ->
  (x = "" -> rest = [] -> action_of s2 = None) ->
  client_db P (decodeURIComponent P s1) = None ->
  db_collection P (decodeURIComponent P s1) (decodeURIComponent P s2)
  = Some m ->
  replies (serve P early req) =
    match unhandled_rejections P, early with
    | ModeThrow, S _ => []
    | _, _ => [(500%Z, envelope "timeout" None 500)]
    end
  /\ dispatched (snd (serve P early req)) = []
  /\ uncaught (snd (serve P early req)) = [m]
  /\ exited (snd (serve P early req)) =
     ends_process (unhandled_rejections P).
Proof.
  intros Hm Hb Hc Hseg Hd Hcn Hend Hdb Hcoll.
  apply (stalled_after_connection P early req m
           (fun st => with_database (decodeURIComponent P s1)
                        (with_client st)) Hm Hb).
  - intro st. unfold connection_settled. rewrite Hc.
    unfold after_connection. cbn [run_routes].
    rewrite !(applies_post P _ req Hm).
    assert (E1 : pattern ClientAction (path req) = None).
    { unfold pattern. rewrite Hseg. destruct s2; [congruence|reflexivity]. }
    assert (E2 : pattern OpenDatabase (path req) =
                 Some {| p_db_name := s1; p_collection_name := "";
                         p_action := "" |}).
    { unfold pattern. rewrite Hseg.
      cbn [nonempty String.eqb negb andb]. fold (nonempty s1).
      rewrite (nonempty_of s1 Hd). reflexivity. }
    assert (E3 : pattern DatabaseAction (path req) = None).
    { destruct (pattern DatabaseAction (path req)) as [ps|] eqn:E;
        [|reflexivity].
      apply pattern_DatabaseAction in E.
      destruct E as (tail & Ht & E & _ & Hn).
      rewrite Hseg in E. exfalso.
      assert (Ha : action_of s2 = None).
      { destruct Ht; subst tail; inversion E; subst; auto; discriminate. }
      inversion E; subst. rewrite (action_of_marked _ Hn) in Ha.
      discriminate. }
    assert (E4 : pattern OpenCollection (path req) =
                 Some {| p_db_name := s1; p_collection_name := s2;
                         p_action := "" |}).
    { unfold pattern. rewrite Hseg.
      cbn [nonempty String.eqb negb andb].
      fold (nonempty s1). fold (nonempty s2).
      rewrite (nonempty_of s1 Hd), (nonempty_of s2 Hcn). reflexivity. }
    rewrite E1, E2, E3, E4.
    cbn [option_map handler decode_params p_db_name p_collection_name
         locals_client with_client].
    rewrite (decode_param_of P s1 Hd), (decode_param_of P s2 Hcn), Hdb.
    cbn [locals_database with_database]. rewrite Hcoll.
    reflexivity.
  - intro st. repeat split; reflexivity.
Qed.

Lemma collection_error_is_unhandled_witness :
  replies (serve Faulty.checking_names 2
             (Sample.post "/mydb/us$ers/_find/" (VArr []))) = []
  /\ dispatched (snd (serve Faulty.checking_names 2
                        (Sample.post "/mydb/us$ers/_find/" (VArr [])))) = []
  /\ uncaught (snd (serve Faulty.checking_names 2
                      (Sample.post "/mydb/us$ers/_find/" (VArr [])))) =
     ["collection names must not contain '$'"]
  /\ exited (snd (serve Faulty.checking_names 2
                    (Sample.post "/mydb/us$ers/_find/" (VArr [])))) = true.
Proof.
  apply (collection_error_is_unhandled Faulty.checking_names 2
           (Sample.post "/mydb/us$ers/_find/" (VArr []))
           "mydb" "us$ers" "_find" [""]).
  - reflexivity.
  - reflexivity.
  - reflexivity.
  - reflexivity.
  - discriminate.
  - discriminate.
  - discriminate.
  - reflexivity.
  - reflexivity.
Defined.

(** ** Paths that are too long *)

(** X15: nothing is served below the collections.  A POST whose path
    has a fourth non-empty segment after three others, action segment
    or not, is answered 404 [not_found] and no action is looked up,
    provided the database and the collection its own first two pieces
    name are obtained. *)
Theorem no_action_below_collections (P : platform) (early : nat)
  (req : request) (s1 s2 s3 s4 : string) (rest : list string) :
  req_method req = POST ->
  body_passes req = true ->
  connect P (extract_auth P (authorization req)) = None ->
  (s1 <> "" -> client_db P (decodeURIComponent P s1) = None) ->
  (s1 <> "" -> s2 <> "" ->
   db_collection P (decodeURIComponent P s1) (decodeURIComponent P s2)
   = None) ->
  1 <= early ->
  segments (path req) = "" :: s1 :: s2 :: s3 :: s4 :: rest ->
  s4 <> "" ->
  replies (serve P early req) = [(404%Z, envelope "not_found" None 404)]
  /\ dispatched (snd (serve P early req)) = [].
Proof.
  intros Hm Hb Hc Hdb Hcoll He Hseg H4.
  assert (E1 : pattern ClientAction (path req) = None).
  { destruct (pattern ClientAction (path req)) as [ps|] eqn:E;
      [|reflexivity].
    apply pattern_ClientAction in E. destruct E as (tail & Ht & E & _).
    rewrite Hseg in E. destruct Ht; subst tail; inversion E. }
  assert (E2 : pattern DatabaseAction (path req) = None).
  { destruct (pattern DatabaseAction (path req)) as [ps|] eqn:E;
      [|reflexivity].
    apply pattern_DatabaseAction in E. destruct E as (tail & Ht & E & _).
    rewrite Hseg in E. destruct Ht; subst tail; inversion E. }
  assert (E3 : pattern CollectionAction (path req) = None).
  { destruct (pattern CollectionAction (path req)) as [ps|] eqn:E;
      [|reflexivity].
    apply pattern_CollectionAction in E. destruct E as (tail & Ht & E & _).
    rewrite Hseg in E. destruct Ht; subst tail; inversion E.
    subst. congruence. }
  assert (Ho : objects_open P req).
  { split.
    - intros t1 x r E Hn. rewrite Hseg in E. inversion E; subst. auto.
    - intros t1 t2 x r E Hn1 Hn2. rewrite Hseg in E. inversion E; subst.
      auto. }
  pose proof (second_turn P req Hm (body_passes_guard req Hb)) as H2.
  unfold connection_settled in H2. rewrite Hc in H2.
  destruct (fallback_without_action P req
              (with_client
                 (log_connect (extract_auth P (authorization req)) initial))
              Hm E1 E2 E3 Ho eq_refl eq_refl)
    as (st' & Hr & Hw & Hd).
  rewrite Hr in H2. split.
  - rewrite (finished_early_replied P early req 2 st' ltac:(lia) H2).
    + exact Hw.
    + unfold headersSent. rewrite Hw. reflexivity.
  - rewrite (finished_early P early req 2 st' ltac:(lia) H2).
    destruct (fire_routing P (Finished, st')) as (E & _).
    rewrite E. cbn [snd]. rewrite Hd. reflexivity.
Qed.

Lemma no_action_below_collections_witness :
  replies (serve Faulty.checking_names 1
             (Sample.post "/mydb/users/x.y/_find" (VArr []))) =
  [(404%Z, envelope "not_found" None 404)]
  /\ dispatched (snd (serve Faulty.checking_names 1
                        (Sample.post "/mydb/users/x.y/_find" (VArr [])))) = [].
Proof.
  apply (no_action_below_collections Faulty.checking_names 1
           (Sample.post "/mydb/users/x.y/_find" (VArr []))
           "mydb" "users" "x.y" "_find" []).
  - reflexivity.
  - reflexivity.
  - reflexivity.
  - reflexivity.
  - reflexivity.
  - lia.
  - reflexivity.
  - discriminate.
Defined.

(** ** The header *)

Lemma prefix_Basic_space (s : string) :
  String.prefix "Basic " s = true -> In " "%char (list_ascii_of_string s).
Proof.
  intro H.
  do 6 (destruct s as [|? s]; cbn [String.prefix] in H;
        [discriminate H|];
        match type of H with
        | (if ascii_dec ?a ?b then _ else _) = true =>
            destruct (ascii_dec a b); [subst|discriminate H]
        end).
  simpl. tauto.
Qed.

Lemma includes_Basic_space (s : string) :
  JsString.includes "Basic " s = true ->
  In " "%char (list_ascii_of_string s).
Proof.
  induction s as [|c rest IH]; intro H.
  - discriminate H.
  - cbn [JsString.includes] in H. apply orb_true_iff in H.
    destruct H as [H|H].
    + apply prefix_Basic_space; exact H.
    + right. apply IH; exact H.
Qed.

Lemma strip_Basic (b : string) :
  ~ In " "%char (list_ascii_of_string b) ->
  JsString.join "" (JsString.split "Basic " ("Basic " ++ b)) = b.
Proof.
  intro H.
  assert (Hi : JsString.includes "Basic " b = false).
  { destruct (JsString.includes "Basic " b) eqn:E; [|reflexivity].
    exfalso. apply H. apply includes_Basic_space; exact E. }
  unfold JsString.split.
  change (JsString.split_from "Basic " 0 ("Basic " ++ b))
    with (if String.prefix "" b
          then "" :: JsString.split_from "Basic " 0 b
          else match JsString.split_from "Basic " 0
                       (String "a" (String "s" (String "i" (String "c"
                          (String " " b))))) with
               | piece :: pieces => String "B" piece :: pieces
               | [] => ["B"]
               end).
  rewrite prefix_nil.
  fold (JsString.split "Basic " b). rewrite (includes_false_split _ _ Hi).
  reflexivity.
Qed.

(** X16: from a header [Basic <b>], [b] without a space, the credential
    is read off the decoded [b]: the user is the decoded text before
    its first colon, the password what follows that colon with any
    further colon removed (and empty when there is no colon). *)
Theorem Basic_header_credential (P : platform) (b : string) :
  ~ In " "%char (list_ascii_of_string b) ->
  extract_auth P (Some ("Basic " ++ b)) =
  Some {| user := before_colon (base64_utf8 P b);
          password := match after_colon (base64_utf8 P b) with
                      | Some rest => without_colons rest
                      | None => ""
                      end |}.
Proof.
  intro H.
  rewrite (extracted_credential P ("Basic " ++ b) eq_refl).
  rewrite (strip_Basic b H). reflexivity.
Qed.

Lemma Basic_header_credential_witness :
  extract_auth Sample.it (Some ("Basic " ++ "cm9vdDpzM2NyZXQ=")) =
  Some {| user := before_colon (base64_utf8 Sample.it "cm9vdDpzM2NyZXQ=");
          password := match after_colon (base64_utf8 Sample.it "cm9vdDpzM2NyZXQ=")
                      with
                      | Some rest => without_colons rest
                      | None => ""
                      end |}.
Proof.
  apply (Basic_header_credential Sample.it "cm9vdDpzM2NyZXQ=").
  intro H. simpl in H.
  repeat (destruct H as [H|H]; [discriminate H|]). exact H.
Defined.

(** X17: the scheme of the header is not checked.  A non-empty header
    that does not contain ["Basic "] is base64-decoded as a whole and
    a credential is made of it all the same. *)
Theorem other_scheme_accepted (P : platform) (h : string) :
  nonempty h = true ->
  JsString.includes "Basic " h = false ->
  extract_auth P (Some h) =
  Some {| user := before_colon (base64_utf8 P h);
          password := match after_colon (base64_utf8 P h) with
                      | Some rest => without_colons rest
                      | None => ""
                      end |}.
Proof.
  intros Hn Hi.
  rewrite (extracted_credential P h Hn).
  rewrite (includes_false_split _ _ Hi).
  unfold JsString.join. cbn [String.concat]. reflexivity.
Qed.

Lemma other_scheme_accepted_witness :
  extract_auth Sample.it (Some "Bearer_cm9vdDpzM2NyZXQ") =
  Some {| user := before_colon (base64_utf8 Sample.it "Bearer_cm9vdDpzM2NyZXQ");
          password :=
            match after_colon (base64_utf8 Sample.it "Bearer_cm9vdDpzM2NyZXQ") with
            | Some rest => without_colons rest
            | None => ""
            end |}.
Proof.
  apply (other_scheme_accepted Sample.it "Bearer_cm9vdDpzM2NyZXQ");
    reflexivity.
Defined.

(** ** The envelope, member by member *)

Lemma set_fresh (k : string) (v : jsval) (fields : list (string * jsval)) :
  ~ In k (map fst fields) -> Js.set k v fields = (fields ++ [(k, v)])%list.
Proof.
  induction fields as [|[k' v'] fields IH]; intro H; simpl.
  - reflexivity.
  - destruct (String.eqb_spec k' k) as [E|E].
    + exfalso. apply H. left; exact E.
    + rewrite IH; [reflexivity|]. intro Hin. apply H. right; exact Hin.
Qed.

Lemma set_all_fresh (props fields : list (string * jsval)) :
  NoDup (map fst props) ->
  (forall k, In k (map fst props) -> ~ In k (map fst fields)) ->
  Js.set_all props fields = (fields ++ props)%list.
Proof.
  unfold Js.set_all. revert fields.
  induction props as [|[k v] props IH]; intros fields Hnd Hf; simpl.
  - rewrite app_nil_r. reflexivity.
  - inversion Hnd as [|? ? Hk Hnd']; subst.
    rewrite set_fresh by (apply Hf; left; reflexivity).
    rewrite IH; [rewrite <- app_assoc; reflexivity|exact Hnd'|].
    intros k' Hin Hin'. rewrite map_app in Hin'. apply in_app_or in Hin'.
    destruct Hin' as [Hin'|[Hin'|[]]].
    + apply (Hf k'); [right; exact Hin|exact Hin'].
    + simpl in Hin'. subst k'. apply Hk; exact Hin.
Qed.

(** X18: the envelope has exactly the members [reason], those of the
    context in their order, and [status], when the context has distinct
    keys other than [reason] and [status] (as the contexts of the five
    kinds of failure have). *)
Theorem envelope_members (reason : string)
  (context : list (string * jsval)) (status : Z) :
  NoDup (map fst context) ->
  ~ In "reason" (map fst context) ->
  ~ In "status" (map fst context) ->
  envelope reason (Some context) status =
  VObj "Object"
    [("error",
      VObj "Object"
        (("reason", VStr reason) :: context ++ [("status", VNum status)]))].
Proof.
  intros Hnd Hr Hs. unfold envelope.
  rewrite set_all_fresh.
  - rewrite set_fresh; [reflexivity|].
    simpl. intros [E|Hin]; [discriminate E|]. exact (Hs Hin).
  - exact Hnd.
  - intros k Hin [E|[]]. simpl in E. subst k. exact (Hr Hin).
Qed.

Lemma envelope_members_witness :
  envelope "not_found"
    (Some [("message", VStr "ns not found"); ("action", VStr "drop")]) 404 =
  VObj "Object"
    [("error",
      VObj "Object"
        (("reason", VStr "not_found")
         :: [("message", VStr "ns not found"); ("action", VStr "drop")]
         ++ [("status", VNum 404)]))].
Proof.
  apply (envelope_members "not_found"
           [("message", VStr "ns not found"); ("action", VStr "drop")] 404).
  - repeat constructor; simpl; intuition discriminate.
  - simpl; intuition discriminate.
  - simpl; intuition discriminate.
Defined.

(** ** The message of a refused connection *)

Lemma split_char_step (ch c : ascii) (rest : string) :
  JsString.split (String ch "") (String c rest) =
  if (c =? ch)%char then EmptyString :: JsString.split (String ch "") rest
  else match JsString.split (String ch "") rest with
       | piece :: pieces => String c piece :: pieces
       | [] => [String c EmptyString]
       end.
Proof.
  unfold JsString.split. cbn [JsString.split_from String.prefix].
  rewrite prefix_nil.
  destruct (ascii_dec ch c) as [E|E].
  - subst c. rewrite Ascii.eqb_refl. reflexivity.
  - destruct (Ascii.eqb_spec c ch); [subst; congruence|reflexivity].
Qed.

Lemma split_char_nonempty (ch : ascii) (s : string) :
  JsString.split (String ch "") s <> [].
Proof.
  destruct s as [|c rest]; [discriminate|].
  rewrite split_char_step.
  destruct (c =? ch)%char; [discriminate|].
  destruct (JsString.split (String ch "") rest); discriminate.
Qed.

Lemma hd_split_char (ch : ascii) (s : string) :
  hd "" (JsString.split (String ch "") s) = before_char ch s.
Proof.
  induction s as [|c rest IH]; [reflexivity|].
  rewrite split_char_step. cbn [before_char].
  destruct (c =? ch)%char; [reflexivity|].
  destruct (JsString.split (String ch "") rest) as [|piece pieces] eqn:E.
  - exfalso. exact (split_char_nonempty ch rest E).
  - simpl in *. rewrite IH. reflexivity.
Qed.

Lemma join_split_char (ch : ascii) (s : string) :
  JsString.join "" (JsString.split (String ch "") s) = without_char ch s.
Proof.
  unfold JsString.join. induction s as [|c rest IH]; [reflexivity|].
  rewrite split_char_step. cbn [without_char].
  destruct (c =? ch)%char.
  - rewrite concat_nil_cons. exact IH.
  - destruct (JsString.split (String ch "") rest) as [|piece pieces] eqn:E.
    + exfalso. exact (split_char_nonempty ch rest E).
    + rewrite concat_nil_cons in *. simpl. rewrite IH. reflexivity.
Qed.

Lemma lower_char_plain (c : ascii) :
  (nat_of_ascii c =? 46)%nat = false ->
  (nat_of_ascii c =? 10)%nat = false ->
  plain (JsString.lower_char c) = true.
Proof.
  destruct c as [[] [] [] [] [] [] [] []]; vm_compute; congruence.
Qed.

Lemma normalised_plain (s : string) :
  all_chars plain
    (JsString.toLowerCase
       (without_char "." (before_char (ascii_of_nat 10) s))) = true.
Proof.
  induction s as [|c rest IH]; [reflexivity|].
  cbn [before_char].
  destruct (Ascii.eqb_spec c (ascii_of_nat 10)) as [E|E]; [reflexivity|].
  cbn [without_char].
  destruct (Ascii.eqb_spec c ".") as [E'|E']; [exact IH|].
  cbn [JsString.toLowerCase all_chars]. rewrite IH, andb_true_r.
  apply lower_char_plain.
  - apply Nat.eqb_neq. intro H. apply E'.
    rewrite <- (ascii_nat_embedding c), H. reflexivity.
  - apply Nat.eqb_neq. intro H. apply E.
    rewrite <- (ascii_nat_embedding c), H. reflexivity.
Qed.

(** X19: the message reported for a refused connection whose text
    carries ["[MongoError: "] is plain: it holds no full stop, no line
    feed and no ASCII capital. *)
Theorem connection_message_plain (P : platform) (m message : string) :
  JsString.includes "MongoError" m = true ->
  connection_message P m = Ok message ->
  all_chars plain message = true.
Proof.
  intros Hi H. unfold connection_message in H. rewrite Hi in H.
  destruct (nth_error (JsString.split "[MongoError: " m) 1) as [piece|];
    [|discriminate H].
  inversion H; subst; clear H.
  change JsString.newline with (String (ascii_of_nat 10) "").
  rewrite hd_split_char, join_split_char.
  apply normalised_plain.
Qed.

Lemma connection_message_plain_witness :
  all_chars plain "authentication failed]" = true.
Proof.
  apply (connection_message_plain Sample.it
           ("failed to connect to server [localhost:27017] " ++
            "on first connect [MongoError: Authentication failed.]")
           "authentication failed]");
    reflexivity.
Defined.

(* ================================================================== *)
(** * Properties of the start-up *)

Lemma start_without_retry {disk : Type} (H : host disk) (k : nat)
  (b : boot disk) :
  start H (S k) false b = start H 1 false b.
Proof. reflexivity. Qed.

Lemma last_attempt {disk : Type} (H : host disk) (b : boot disk) :
  exists b',
    start H 1 false b = Some b'
    /\ reads b' = S (reads b)
    /\ length (writes b') <= S (length (writes b)).
Proof.
  cbn [start negb].
  repeat break_match; eexists; (split; [reflexivity|]);
    cbn [reads writes count_read set_defaults wrote now_serving rejected];
    rewrite ?length_app; simpl; split; lia.
Qed.

(** X20: [start] calls itself at most once.  Whatever the disk, the
    parser and the driver do, two rounds are enough for it to end, more
    rounds change nothing, and by then the configuration file has been
    read at most twice and written at most twice. *)
Theorem start_retries_once {disk : Type} (H : host disk) (n : nat)
  (b : boot disk) :
  exists b',
    start H (2 + n) true b = Some b'
    /\ start H 2 true b = Some b'
    /\ reads b' <= reads b + 2
    /\ length (writes b') <= length (writes b) + 2.
Proof.
  change (2 + n) with (S (S n)).
  cbn [start negb]. fold (@start disk).
  repeat match goal with
    | |- context [start H (S ?k) false ?x] =>
        rewrite (start_without_retry H k x);
        let b' := fresh "b" in
        let E := fresh "E" in
        let R := fresh "R" in
        let W := fresh "W" in
        destruct (last_attempt H x) as (b' & E & R & W);
        rewrite ?E;
        cbn [reads writes count_read set_defaults wrote] in R, W;
        rewrite ?length_app in W; simpl in W
    | _ => break_match
    end;
    eexists; (split; [reflexivity|]); (split; [reflexivity|]);
    cbn [reads writes count_read set_defaults wrote now_serving rejected];
    rewrite ?length_app; simpl; split; lia.
Qed.

(** X21: a configuration file that can be read is never written over,
    whether it is well formed or not and whether the database answers
    or not, as long as no later error speaks of a missing file: it is
    read once, and the disk is left as it was. *)
Theorem readable_file_is_kept {disk : Type} (H : host disk) (fuel : nat)
  (retry : bool) (b : boot disk) (text : string) :
  readFile H (disk_of b) = Ok text ->
  (forall config m, initial_connection H config = Threw m ->
                    JsString.includes no_such_file m = false) ->
  (forall config m, listen H config = Some m ->
                    JsString.includes no_such_file m = false) ->
  exists b',
    start H (S fuel) retry b = Some b'
    /\ writes b' = writes b
    /\ disk_of b' = disk_of b
    /\ reads b' = S (reads b).
Proof.
  intros Hr Hc Hl. cbn [start]. rewrite Hr.
  destruct (JSON_parse H text) as [parsed|e].
  - destruct (initial_connection H (JsObject.assign (defaults b) parsed))
      as [|m|m] eqn:Ec.
    + destruct (Js.truthy (JsObject.assign (defaults b) parsed)).
      * destruct (listen H (JsObject.assign (defaults b) parsed))
          as [m|] eqn:El.
        -- rewrite (Hl _ _ El). eexists; repeat split; reflexivity.
        -- eexists; repeat split; reflexivity.
      * eexists; repeat split; reflexivity.
    + eexists; repeat split; reflexivity.
    + rewrite (Hc _ _ Ec). eexists; repeat split; reflexivity.
  - eexists; repeat split; reflexivity.
Qed.

Lemma readable_file_is_kept_witness :
  exists b',
    start SampleHost.it 1 true (power_on (Some "{ web_port: ")) = Some b'
    /\ writes b' = writes (power_on (Some "{ web_port: "))
    /\ disk_of b' = disk_of (power_on (Some "{ web_port: "))
    /\ reads b' = S (reads (power_on (Some "{ web_port: "))).
Proof.
  apply (readable_file_is_kept SampleHost.it 0 true
           (power_on (Some "{ web_port: ")) "{ web_port: ").
  - reflexivity.
  - intros config m E. discriminate E.
  - intros config m E. discriminate E.
Defined.

(** X22: the first run.  With no configuration file, a disk that takes
    the write and gives the text back, a parser that reads back what
    the serializer wrote, and a database that answers, [start] writes
    the default configuration once, reads it back, and the server runs
    with [DEFAULT_CONFIG]. *)
Theorem first_run_serves_defaults {disk : Type} (H : host disk) (n : nat)
  (d d' : disk) (m : string) :
  readFile H d = Throw m ->
  JsString.includes no_such_file m = true ->
  writeFile H (JSON_stringify H DEFAULT_CONFIG) d = Ok d' ->
  readFile H d' = Ok (JSON_stringify H DEFAULT_CONFIG) ->
  JSON_parse H (JSON_stringify H DEFAULT_CONFIG) = Ok DEFAULT_CONFIG ->
  initial_connection H DEFAULT_CONFIG = Established ->
  listen H DEFAULT_CONFIG = None ->
  start H (2 + n) true (power_on d) =
  Some {| disk_of := d';
          defaults := DEFAULT_CONFIG;
          reads := 2;
          writes := [JSON_stringify H DEFAULT_CONFIG];
          serving := Some DEFAULT_CONFIG;
          rejections := [] |}.
Proof.
  intros Hr Hi Hw Hr' Hp Hc Hl.
  change (2 + n) with (S (S n)).
  cbn [start negb disk_of defaults power_on count_read wrote].
  rewrite Hr, Hi, Hw.
  cbn [start negb disk_of defaults power_on count_read wrote].
  rewrite Hr', Hp.
  change (JsObject.assign DEFAULT_CONFIG DEFAULT_CONFIG) with DEFAULT_CONFIG.
  rewrite Hc. cbn [Js.truthy DEFAULT_CONFIG]. rewrite Hl. reflexivity.
Qed.

Lemma first_run_serves_defaults_witness :
  start SampleHost.it (2 + 0) true (power_on None) =
  Some {| disk_of := Some (JSON_stringify SampleHost.it DEFAULT_CONFIG);
          defaults := DEFAULT_CONFIG;
          reads := 2;
          writes := [JSON_stringify SampleHost.it DEFAULT_CONFIG];
          serving := Some DEFAULT_CONFIG;
          rejections := [] |}.
Proof.
  apply (first_run_serves_defaults SampleHost.it 0 None
           (Some (JSON_stringify SampleHost.it DEFAULT_CONFIG))
           SampleHost.missing); reflexivity.
Defined.

Lemma get_set_other (k k' : string) (v : jsval)
  (fields : list (string * jsval)) :
  k <> k' -> Js.get k (Js.set k' v fields) = Js.get k fields.
Proof.
  intro Hne. unfold Js.get.
  induction fields as [|[k0 v0] fields IH]; simpl.
  - destruct (String.eqb_spec k' k); [congruence|reflexivity].
  - destruct (String.eqb_spec k0 k') as [E|E]; simpl.
    + subst k0. destruct (String.eqb_spec k' k); [congruence|reflexivity].
    + destruct (k0 =? k); [reflexivity|exact IH].
Qed.

Lemma get_set_all_absent (k : string) (props fields : list (string * jsval)) :
  ~ In k (map fst props) ->
  Js.get k (Js.set_all props fields) = Js.get k fields.
Proof.
  unfold Js.set_all. revert fields.
  induction props as [|[k1 v1] props IH]; intros fields Hn; simpl.
  - reflexivity.
  - rewrite IH by (intro; apply Hn; right; assumption).
    apply get_set_other. intro E. apply Hn. left. simpl. congruence.
Qed.

Lemma get_set_all_present (k : string) (v : jsval)
  (props fields : list (string * jsval)) :
  NoDup (map fst props) -> In (k, v) props ->
  Js.get k (Js.set_all props fields) = v.
Proof.
  unfold Js.set_all. revert fields.
  induction props as [|[k1 v1] props IH]; intros fields Hnd Hin; simpl.
  - contradiction.
  - inversion Hnd as [|? ? Hk Hnd']; subst.
    destruct Hin as [E|Hin].
    + inversion E; subst.
      fold (Js.set_all props (Js.set k v fields)).
      rewrite get_set_all_absent by exact Hk. apply get_set_same.
    + apply IH; assumption.
Qed.

(** X23: the configuration the server runs with is [DEFAULT_CONFIG]
    with the members of the file laid over it, one level deep: a member
    the file gives has the value of the file, whole (a [client] object
    in the file replaces all the default driver options), and a member
    the file does not give keeps its default. *)
Theorem file_overrides_defaults {disk : Type} (H : host disk) (fuel : nat)
  (retry : bool) (b : boot disk) (text cls dcls : string)
  (props dflt : list (string * jsval)) :
  readFile H (disk_of b) = Ok text ->
  JSON_parse H text = Ok (VObj cls props) ->
  NoDup (map fst props) ->
  defaults b = VObj dcls dflt ->
  initial_connection H (JsObject.assign (defaults b) (VObj cls props)) =
    Established ->
  listen H (JsObject.assign (defaults b) (VObj cls props)) = None ->
  exists b' members,
    start H (S fuel) retry b = Some b'
    /\ serving b' = Some (VObj dcls members)
    /\ (forall k v, In (k, v) props -> Js.get k members = v)
    /\ (forall k, ~ In k (map fst props) ->
                  Js.get k members = Js.get k dflt).
Proof.
  intros Hr Hp Hnd Hd Hc Hl. cbn [start]. rewrite Hr, Hp, Hc.
  rewrite Hd in *. cbn [JsObject.assign JsObject.own_enumerable Js.truthy].
  cbn [JsObject.assign JsObject.own_enumerable] in Hl. rewrite Hl.
  eexists. exists (Js.set_all props dflt).
  split; [reflexivity|]. split; [reflexivity|]. split.
  - intros k v Hin. apply get_set_all_present; assumption.
  - intros k Hn. apply get_set_all_absent; assumption.
Qed.

Lemma file_overrides_defaults_witness :
  exists b' members,
    start SampleHost.it 1 true
      (power_on (Some (SampleHost.stringify SampleHost.custom))) = Some b'
    /\ serving b' = Some (VObj "Object" members)
    /\ (forall k v,
          In (k, v)
             [("web_port", VStr "8080");
              ("client", VObj "Object" [("connectTimeoutMS", VNum 500)])] ->
          Js.get k members = v)
    /\ (forall k,
          ~ In k (map fst
                    [("web_port", VStr "8080");
                     ("client",
                      VObj "Object" [("connectTimeoutMS", VNum 500)])]) ->
          Js.get k members =
          Js.get k
            [("connection", VStr "mongodb://localhost:27017");
             ("web_port", VStr "27020");
             ("client",
              VObj "Object"
                [("useNewUrlParser", VBool true);
                 ("useUnifiedTopology", VBool true);
                 ("connectTimeoutMS", VNum 2000)])]).
Proof.
  apply (file_overrides_defaults SampleHost.it 0 true
           (power_on (Some (SampleHost.stringify SampleHost.custom)))
           (SampleHost.stringify SampleHost.custom) "Object" "Object").
  - reflexivity.
  - reflexivity.
  - repeat constructor; simpl; intuition discriminate.
  - reflexivity.
  - reflexivity.
  - reflexivity.
Defined.

(** The default driver options are lost when the file gives [client]. *)
Example client_options_replaced :
  option_map
    (fun b => match serving b with
              | Some (VObj _ members) => Js.get "client" members
              | _ => VUndefined
              end)
    (start SampleHost.it 1 true
       (power_on (Some (SampleHost.stringify SampleHost.custom)))) =
  Some (VObj "Object" [("connectTimeoutMS", VNum 500)]).
Proof. reflexivity. Qed.

(** X26: the server is started only with a configuration for which the
    initial connection was established: if [start] leaves a server
    running, the configuration it runs with is one the database
    answered for and [app.listen] accepted. *)
Theorem serves_only_when_connected {disk : Type} (H : host disk)
  (fuel : nat) (retry : bool) (b b' : boot disk) (config : jsval) :
  serving b = None ->
  start H fuel retry b = Some b' ->
  serving b' = Some config ->
  initial_connection H config = Established /\ listen H config = None.
Proof.
  revert retry b. induction fuel as [|fuel IH]; intros retry b Hn Hs Hc.
  - discriminate Hs.
  - cbn [start] in Hs.
    repeat match type of Hs with
      | context [match ?x with _ => _ end] =>
          lazymatch x with
          | context [match _ with _ => _ end] => fail
          | _ => destruct x eqn:?
          end
      end;
      first
        [ eapply IH; [|exact Hs|exact Hc]; cbn; exact Hn
        | inversion Hs; subst; cbn in Hc; congruence
        | inversion Hs; subst; cbn in Hc; inversion Hc; subst; auto ].
Qed.

Lemma serves_only_when_connected_witness :
  initial_connection SampleHost.it DEFAULT_CONFIG = Established
  /\ listen SampleHost.it DEFAULT_CONFIG = None.
Proof.
  apply (serves_only_when_connected SampleHost.it 2 true (power_on None)
           {| disk_of := Some (JSON_stringify SampleHost.it DEFAULT_CONFIG);
              defaults := DEFAULT_CONFIG;
              reads := 2;
              writes := [JSON_stringify SampleHost.it DEFAULT_CONFIG];
              serving := Some DEFAULT_CONFIG;
              rejections := [] |}
           DEFAULT_CONFIG); reflexivity.
Defined.

(* ================================================================== *)
(** * No success without a lookup *)

Lemma earned_of_dispatched (c : pc * state) :
  dispatched (snd c) <> [] -> earned c.
Proof. intro H. split; intros; exact H. Qed.

Lemma reply_error_200 (P : platform) reason context (status : Z)
  (st : state) (b : jsval) :
  status <> 200%Z ->
  In (200%Z, b) (written (res (reply_error P reason context status st))) ->
  In (200%Z, b) (written (res st)).
Proof.
  intros Hs Hin.
  destruct (headersSent (res st)) eqn:E.
  - rewrite reply_error_sealed in Hin by exact E. exact Hin.
  - rewrite reply_error_unsent in Hin by exact E.
    destruct Hin as [Hin|[]]. inversion Hin. congruence.
Qed.

Lemma reply_error_earned (P : platform) reason context (status : Z)
  (k : pc) (st : state) :
  status <> 200%Z ->
  awaiting_result k = false ->
  (forall b, In (200%Z, b) (written (res st)) -> dispatched st <> []) ->
  earned (k, reply_error P reason context status st).
Proof.
  intros Hs Hk H. split; cbn [fst snd].
  - rewrite Hk. discriminate.
  - intros b Hin. apply reply_error_200 in Hin; [|exact Hs].
    destruct (reply_error_routing P reason context status st) as (E & _).
    rewrite E. exact (H b Hin).
Qed.

Lemma invoke_earned (P : platform) tgt a args (st : state) :
  (forall b, In (200%Z, b) (written (res st)) -> dispatched st <> []) ->
  earned (invoke P tgt a args st).
Proof.
  intro H. destruct tgt as [t|].
  - apply earned_of_dispatched. rewrite invoke_dispatched.
    destruct (dispatched st); discriminate.
  - unfold invoke, reply_not_found.
    apply reply_error_earned; [discriminate|reflexivity|exact H].
Qed.

Lemma handler_earned (P : platform) (req : request) r ps (st : state) :
  (forall b, In (200%Z, b) (written (res st)) -> dispatched st <> []) ->
  match handler P req r ps st with
  | Next st' =>
      forall b, In (200%Z, b) (written (res st')) -> dispatched st' <> []
  | Stop k st' => earned (k, st')
  end.
Proof.
  intro H. destruct r; cbn [handler];
    try match goal with
        | |- context [invoke ?Q ?t ?x ?b ?s] =>
            pose proof (invoke_earned Q t x b s H) as Hi;
            destruct (invoke Q t x b s); exact Hi
        end;
    repeat break_match;
    try exact H;
    try (apply reply_error_earned; [discriminate|reflexivity|exact H]);
    split; cbn; try discriminate; exact H.
Qed.

Lemma run_routes_earned (P : platform) (req : request) rs (st : state) :
  (forall b, In (200%Z, b) (written (res st)) -> dispatched st <> []) ->
  earned (run_routes P req rs st).
Proof.
  revert st. induction rs as [|r rs IH]; intros st H; cbn [run_routes].
  - split; cbn; [discriminate|exact H].
  - destruct (applies P r req) as [ps|]; [|auto].
    pose proof (handler_earned P req r ps st H) as Hh.
    destruct (handler P req r ps st) as [st'|k st']; auto.
Qed.

Lemma step_earned (P : platform) (req : request) (c : pc * state) :
  earned c -> earned (step P req c).
Proof.
  destruct c as [k st]. intros [H1 H2]. cbn [fst snd] in *. unfold step.
  destruct k as [|auth|action p|action cursor|].
  - apply run_routes_earned; exact H2.
  - unfold connection_settled. destruct (connect P auth) as [m|].
    + destruct (connection_message P m).
      * apply reply_error_earned; [discriminate|reflexivity|exact H2].
      * split; cbn; [discriminate|exact H2].
    + apply run_routes_earned. exact H2.
  - apply earned_of_dispatched.
    destruct (step_settling P req (Calling action p, st) eq_refl)
      as (_ & (E & _)).
    unfold step in E. rewrite E. apply H1; reflexivity.
  - apply earned_of_dispatched.
    destruct (step_settling P req (Draining action cursor, st) eq_refl)
      as (_ & (E & _)).
    unfold step in E. rewrite E. apply H1; reflexivity.
  - split; cbn; [discriminate|exact H2].
Qed.

Lemma turns_earned (P : platform) (req : request) (n : nat) (c : pc * state) :
  earned c -> earned (turns P req n c).
Proof.
  revert c. induction n as [|n IH]; intros c H; cbn [turns]; auto.
  apply IH, step_earned, H.
Qed.

Lemma fire_earned (P : platform) (c : pc * state) :
  earned c -> earned (fire P c).
Proof.
  destruct c as [k st]. intros [H1 H2]. unfold fire, timeout_guard.
  cbn [fst snd] in *.
  destruct (exited st); [split; assumption|]. cbn [fst snd].
  destruct (headersSent (res st)); [split; assumption|].
  split; cbn [fst snd].
  - intro Hk.
    destruct (reply_error_routing P "timeout" None 500 st) as (E & _).
    rewrite E. exact (H1 Hk).
  - intros b Hin. apply reply_error_200 in Hin; [|discriminate].
    destruct (reply_error_routing P "timeout" None 500 st) as (E & _).
    rewrite E. exact (H2 b Hin).
Qed.

(** X25: no success without a lookup.  A reply with status 200 is only
    ever written for a request on which an action was looked up on a
    target. *)
Theorem success_needs_lookup (P : platform) (early : nat) (req : request)
  (b : jsval) :
  In (200%Z, b) (replies (serve P early req)) ->
  dispatched (snd (serve P early req)) <> [].
Proof.
  assert (E : earned (serve P early req)).
  { unfold serve, at_deadline.
    apply turns_earned, fire_earned, turns_earned.
    split; cbn; [discriminate|intros ? []]. }
  destruct E as [_ E]. apply E.
Qed.

Lemma success_needs_lookup_witness :
  dispatched (snd (serve Sample.it 3
                     (Sample.post "/mydb/_stats/" (VArr [])))) <> [].
Proof.
  apply (success_needs_lookup Sample.it 3
           (Sample.post "/mydb/_stats/" (VArr []))
           (fclone Sample.it (VObj "Object" [("ok", VNum 1)]))).
  left; reflexivity.
Defined.
